(** * audio_book: the book catalog, the content store, the reader and the shelf

    A shallow embedding of [src/services/BookStorage.ts] (catalog
    persistence, import, content reads with the session cache), of the
    reader screen of [src/app/reader/[id].tsx] (loading a book, the
    chapter-detection loop, the tap handlers) and of the bookshelf screen
    and the Book interface of [src/app/(tabs)/index.tsx].

    JavaScript strings are sequences of UTF-16 code units; asynchronous
    functions become computations in a state-and-error monad over an explicit
    world (key-value item, file system, content cache, trace of platform
    calls); the platform built-ins the code calls (JSON, AsyncStorage,
    expo-file-system, String case mapping) are the fields of a [Platform].
    [console.log]/[console.error]/[console.warn] calls have no effect on any
    modelled state and are left out. *)

From Stdlib Require Import NArith ZArith String Ascii Sorted DecimalPos DecimalN.
From stdpp Require Import gmap list.

Local Open Scope N_scope.

(** ** JavaScript strings *)

Module JsString.

(** A JS string: its UTF-16 code units, in order. *)
Abbreviation jsstring := (list N).

(** Source text is UTF-8; [utf8_to_utf16] decodes a byte sequence strictly
    (shortest form, no encoded surrogates), producing surrogate pairs for
    code points above the basic plane. *)
Definition is_cont (b : N) : bool := (0x80 <=? b) && (b <? 0xC0).

Fixpoint utf8_to_utf16 (bs : list N) : option (list N) :=
  match bs with
  | [] => Some []
  | b0 :: r0 =>
    if b0 <? 0x80 then cons b0 <$> utf8_to_utf16 r0
    else if b0 <? 0xC2 then None
    else if b0 <? 0xE0 then
      match r0 with
      | b1 :: r1 =>
        if is_cont b1
        then cons ((b0 - 0xC0) * 64 + (b1 - 0x80)) <$> utf8_to_utf16 r1
        else None
      | _ => None
      end
    else if b0 <? 0xF0 then
      match r0 with
      | b1 :: b2 :: r2 =>
        let cp := (b0 - 0xE0) * 4096 + (b1 - 0x80) * 64 + (b2 - 0x80) in
        if is_cont b1 && is_cont b2 && (0x800 <=? cp)
           && negb ((0xD800 <=? cp) && (cp <? 0xE000))
        then cons cp <$> utf8_to_utf16 r2
        else None
      | _ => None
      end
    else if b0 <? 0xF5 then
      match r0 with
      | b1 :: b2 :: b3 :: r3 =>
        let cp := (b0 - 0xF0) * 262144 + (b1 - 0x80) * 4096
                  + (b2 - 0x80) * 64 + (b3 - 0x80) in
        if is_cont b1 && is_cont b2 && is_cont b3
           && (0x10000 <=? cp) && (cp <? 0x110000)
        then (fun t => (0xD800 + (cp - 0x10000) / 1024)
                         :: (0xDC00 + (cp - 0x10000) mod 1024) :: t)
               <$> utf8_to_utf16 r3
        else None
      | _ => None
      end
    else None
  end.

Definition bytes_of_string (s : string) : list N :=
  List.map N_of_ascii (list_ascii_of_string s).

(** A string literal of the source, as code units. *)
Definition js (s : string) : list N :=
  default [] (utf8_to_utf16 (bytes_of_string s)).

(** [s.startsWith(p)] *)
Fixpoint starts_with (p s : list N) : bool :=
  match p, s with
  | [], _ => true
  | a :: p', b :: s' => (a =? b) && starts_with p' s'
  | _ :: _, [] => false
  end.

(** [s.includes(sub)]: [sub] occurs at some index of [s]. *)
Fixpoint includes (s sub : list N) : bool :=
  starts_with sub s ||
  match s with
  | [] => false
  | _ :: s' => includes s' sub
  end.

(** [s.split(sep)] for a one-code-unit separator: the pieces between the
    occurrences of [sep]; always at least one piece. *)
Fixpoint split (sep : N) (s : list N) : list (list N) :=
  match s with
  | [] => [[]]
  | c :: r =>
    if c =? sep then [] :: split sep r
    else match split sep r with
         | p :: ps => (c :: p) :: ps
         | [] => [[c]]
         end
  end.

(** ECMAScript WhiteSpace and LineTerminator code units, the ones
    [String.prototype.trim] strips. *)
Definition is_line_terminator (c : N) : bool :=
  (c =? 0x0A) || (c =? 0x0D) || (c =? 0x2028) || (c =? 0x2029).

Definition is_white_space (c : N) : bool :=
  (c =? 0x09) || (c =? 0x0B) || (c =? 0x0C) || (c =? 0x20) || (c =? 0xA0)
  || (c =? 0x1680) || ((0x2000 <=? c) && (c <=? 0x200A)) || (c =? 0x202F)
  || (c =? 0x205F) || (c =? 0x3000) || (c =? 0xFEFF).

Definition is_trimmed (c : N) : bool := is_white_space c || is_line_terminator c.

Fixpoint trim_start (s : list N) : list N :=
  match s with
  | c :: r => if is_trimmed c then trim_start r else s
  | [] => []
  end.

Definition trim_end (s : list N) : list N := rev (trim_start (rev s)).

(** [s.trim()] *)
Definition trim (s : list N) : list N := trim_end (trim_start s).

End JsString.

Import JsString.

(** ** Regular expressions

    The fragment of ECMAScript patterns the reader uses: literals, [.],
    character classes, sequence, alternation and bounded repetition, under
    the [i] flag and without the [u] flag (matching is per code unit). *)

Module Regex.

Inductive regex : Type :=
| Eps
| Lit (c : N)
| Dot
| Class (cs : list N)
| Seq (r1 r2 : regex)
| Alt (r1 r2 : regex).

(** Canonicalize of the [i] flag.  For the code units that occur in the
    patterns below (ASCII letters and caseless CJK characters) it folds
    [a]-[z] onto [A]-[Z] and fixes everything else: without the [u] flag a
    code unit of 128 and above is never identified with an ASCII one. *)
Definition canonicalize (c : N) : N :=
  if (0x61 <=? c) && (c <=? 0x7A) then c - 0x20 else c.

Definition lit_matches (c x : N) : bool := canonicalize x =? canonicalize c.

(** [r{n}] and [r{0,n}] (greedy), then [r{lo,hi}]. *)
Fixpoint times (n : nat) (r : regex) : regex :=
  match n with
  | O => Eps
  | S n' => Seq r (times n' r)
  end.

Fixpoint upto (n : nat) (r : regex) : regex :=
  match n with
  | O => Eps
  | S n' => Alt (Seq r (upto n' r)) Eps
  end.

Definition quant (lo hi : nat) (r : regex) : regex :=
  Seq (times lo r) (upto (hi - lo) r).

(** A literal word, one [Lit] per code unit. *)
Fixpoint word (w : list N) : regex :=
  match w with
  | [] => Eps
  | c :: w' => Seq (Lit c) (word w')
  end.

(** The backtracking matcher: [accept r s k] tries to match [r] on a prefix
    of [s] and hands the rest to the continuation [k]. *)
Fixpoint accept (r : regex) (s : list N) (k : list N -> bool) : bool :=
  match r with
  | Eps => k s
  | Lit c =>
    match s with
    | x :: s' => lit_matches c x && k s'
    | [] => false
    end
  | Dot =>
    match s with
    | x :: s' => negb (is_line_terminator x) && k s'
    | [] => false
    end
  | Class cs =>
    match s with
    | x :: s' => existsb (fun c => lit_matches c x) cs && k s'
    | [] => false
    end
  | Seq r1 r2 => accept r1 s (fun s' => accept r2 s' k)
  | Alt r1 r2 => accept r1 s k || accept r2 s k
  end.

(** [r.test(s)] for a pattern without anchors: a match may start at any
    index and end anywhere. *)
Fixpoint test (r : regex) (s : list N) : bool :=
  accept r s (fun _ => true) ||
  match s with
  | [] => false
  | _ :: s' => test r s'
  end.

(** The language of a pattern, declaratively. *)
Inductive matches : regex -> list N -> Prop :=
| m_eps : matches Eps []
| m_lit c x : lit_matches c x = true -> matches (Lit c) [x]
| m_dot x : is_line_terminator x = false -> matches Dot [x]
| m_class cs x c : In c cs -> lit_matches c x = true -> matches (Class cs) [x]
| m_seq r1 r2 u v : matches r1 u -> matches r2 v -> matches (Seq r1 r2) (u ++ v)
| m_alt_l r1 r2 u : matches r1 u -> matches (Alt r1 r2) u
| m_alt_r r1 r2 u : matches r2 u -> matches (Alt r1 r2) u.

(** No code unit of [u] is a line terminator: [u] is in the language of [.*]. *)
Definition no_terminator (u : list N) : Prop :=
  Forall (fun x => is_line_terminator x = false) u.

(** [u] is the word [w] up to the case of its ASCII letters. *)
Definition eq_ci (w u : list N) : Prop :=
  List.map canonicalize u = List.map canonicalize w.

End Regex.

(** ** The records of the catalog *)

(** A property declared [Date] ([lastRead], [createdAt]).  The record a
    caller builds holds a Date object ([new Date()]); [JSON.stringify]
    writes it as the ISO string its [toJSON] gives, and [JSON.parse] gives
    back that string, not a Date.  So a record read from the store holds the
    string where the interface says Date.  A Date object is named here by
    the ISO string it is written as. *)
Inductive DateValue : Type :=
| DateObject (iso : jsstring)
| DateString (iso : jsstring).

(** The value [JSON.parse(JSON.stringify(d))] *)
Definition stored_date (d : DateValue) : DateValue :=
  match d with
  | DateObject iso | DateString iso => DateString iso
  end.

(** [interface BookHighlight] and [interface BookBookmark]
    ([src/app/(tabs)/index.tsx]); a position or chapter is a whole number. *)
Module BookHighlight.
Record t : Type := mk {
  id : jsstring;
  text : jsstring;
  position : Z;
  chapter : option Z;
  createdAt : DateValue;
  note : option jsstring
}.

Definition stored (h : t) : t :=
  {| id := id h; text := text h; position := position h; chapter := chapter h;
     createdAt := stored_date (createdAt h); note := note h |}.
End BookHighlight.

Module BookBookmark.
Record t : Type := mk {
  id : jsstring;
  position : Z;
  chapter : option Z;
  createdAt : DateValue;
  note : option jsstring
}.

Definition stored (m : t) : t :=
  {| id := id m; position := position m; chapter := chapter m;
     createdAt := stored_date (createdAt m); note := note m |}.
End BookBookmark.

(** [interface Book] ([src/app/(tabs)/index.tsx]).  An optional property
    that is missing is [None]; the page and chapter numbers are whole
    numbers.  No function of the repository reads or writes [lastPage],
    [totalPages], [chapterIndex], [highlights] or [bookmarks]: they travel
    with the record. *)
Record Book : Type := mkBook {
  id : jsstring;
  title : jsstring;
  author : option jsstring;
  filePath : jsstring;
  fileType : jsstring;
  coverUrl : option jsstring;
  lastRead : option DateValue;
  lastPage : option Z;
  totalPages : option Z;
  chapterIndex : option Z;
  highlights : option (list BookHighlight.t);
  bookmarks : option (list BookBookmark.t)
}.

(** The record [JSON.parse(JSON.stringify(book))]: the record as it is
    stored and read back, every Date now the string it was written as. *)
Definition stored (book : Book) : Book :=
  {| id := id book; title := title book; author := author book;
     filePath := filePath book; fileType := fileType book;
     coverUrl := coverUrl book;
     lastRead := option_map stored_date (lastRead book);
     lastPage := lastPage book; totalPages := totalPages book;
     chapterIndex := chapterIndex book;
     highlights := option_map (fmap (M := list) BookHighlight.stored) (highlights book);
     bookmarks := option_map (fmap (M := list) BookBookmark.stored) (bookmarks book) |}.

(** [{...book, filePath: p}] *)
Definition with_filePath (book : Book) (p : jsstring) : Book :=
  {| id := id book; title := title book; author := author book;
     filePath := p; fileType := fileType book; coverUrl := coverUrl book;
     lastRead := lastRead book;
     lastPage := lastPage book; totalPages := totalPages book;
     chapterIndex := chapterIndex book;
     highlights := highlights book; bookmarks := bookmarks book |}.

(** What [JSON.parse] returns for a text, when it returns: an array, whose
    elements are taken at the type the code declares for them, [Book], or a
    value that is no array. *)
Inductive NonArray : Type :=
| JsonNull
| JsonBoolean (b : bool)
| JsonNumber (n : Z)
| JsonString (s : jsstring)
| JsonObject.

Inductive Parsed : Type :=
| Records (books : list Book)
| NotAnArray (v : NonArray).

(** ** The platform *)

Inductive Encoding : Type := UTF8 | Base64.

(** The calls the code makes into AsyncStorage and expo-file-system.
    [ReadAsString] carries the optional [(length, position)] of its options. *)
Inductive IoCall : Type :=
| GetItem (key : jsstring)
| SetItem (key value : jsstring)
| GetInfo (uri : jsstring)
| MakeDirectory (uri : jsstring)
| ReadAsString (uri : jsstring) (enc : Encoding) (range : option (N * N))
| WriteAsString (uri content : jsstring)
| Copy (from to : jsstring)
| Delete (uri : jsstring).

Definition is_fs_call (c : IoCall) : bool :=
  match c with
  | GetItem _ | SetItem _ _ => false
  | _ => true
  end.

(** Everything the code takes from its host: the OS test, the document
    directory, the String and JSON built-ins, the text codecs behind the
    file API, and [rejects], the calls the host refuses for reasons outside
    the modelled state (permissions, quota, a broken store).
    [JSON.stringify] is the built-in on arrays of records, the one use the
    code makes of it.  [JSON.parse] is [None] where the built-in throws.
    The laws: [JSON.parse] reads an array written by [JSON.stringify] back
    as the array of its records in stored form; it throws on the empty
    string; and no record it returns holds a Date object. *)
Class Platform : Type := {
  OS_is_ios : bool;
  documentDirectory : jsstring;
  toUpperCase : jsstring -> jsstring;
  toLowerCase : jsstring -> jsstring;
  JSON_stringify : list Book -> jsstring;
  JSON_parse : jsstring -> option Parsed;
  utf8_decode : list N -> option jsstring;
  utf8_encode : jsstring -> list N;
  base64_encode : list N -> jsstring;
  Buffer_base64_to_utf8 : jsstring -> jsstring;
  rejects : IoCall -> bool;
  JSON_parse_stringify :
    forall books, JSON_parse (JSON_stringify books) = Some (Records (stored <$> books));
  JSON_parse_empty : JSON_parse [] = None;
  JSON_parse_stored :
    forall text books, JSON_parse text = Some (Records books) -> stored <$> books = books
}.

(** ** The reader's chapter detection ([src/app/reader/[id].tsx], loadBook) *)

Module Reader.

Record Chapter : Type := mkChapter {
  title : jsstring;
  position : nat
}.

(** [/第.{1,3}[章节卷篇]|chapter|section|part/i] *)
Definition CHAPTER_PATTERN : Regex.regex :=
  Regex.Alt
    (Regex.Seq (Regex.Lit 0x7B2C)
       (Regex.Seq (Regex.quant 1 3 Regex.Dot)
          (Regex.Class [0x7AE0; 0x8282; 0x5377; 0x7BC7])))
    (Regex.Alt (Regex.word (js "chapter"))
       (Regex.Alt (Regex.word (js "section")) (Regex.word (js "part")))).

(** The pattern in the specification's words: the marker 第, one to three
    code units that are no line terminators, then one of 章 节 卷 篇; or one
    of the words chapter, section, part in any letter case. *)
Definition chapter_marker (u : jsstring) : Prop :=
  (exists mid c,
      u = 0x7B2C :: mid ++ [c]
      /\ (1 <= length mid <= 3)%nat
      /\ Regex.no_terminator mid
      /\ In c [0x7AE0; 0x8282; 0x5377; 0x7BC7])
  \/ Regex.eq_ci (js "chapter") u
  \/ Regex.eq_ci (js "section") u
  \/ Regex.eq_ci (js "part") u.

(** The line contains a chapter marker somewhere. *)
Definition has_chapter_marker (line : jsstring) : Prop :=
  exists pre u post, line = pre ++ u ++ post /\ chapter_marker u.

Section WithPlatform.
Context `{Platform}.

(** The specification's rule for a raw line of the text. *)
Definition heading_spec (raw : jsstring) : Prop :=
  let line := trim raw in
  (0 < length line < 30)%nat
  /\ (line = toUpperCase line \/ has_chapter_marker line).

(** The condition of the [if] in the loop, on the trimmed line. *)
Definition is_heading (line : jsstring) : bool :=
  ((length line <? 30)%nat && (0 <? length line)%nat)
  && (bool_decide (toUpperCase line = line)
      || Regex.test CHAPTER_PATTERN line).

(** [for (let i = 0; i < lines.length; i++)], started at index [i]. *)
Fixpoint detect_from (i : nat) (lines : list jsstring) : list Chapter :=
  match lines with
  | [] => []
  | raw :: rest =>
    let line := trim raw in
    if is_heading line
    then {| title := line; position := i |} :: detect_from (S i) rest
    else detect_from (S i) rest
  end.

(** [bookContent.split('\n')] followed by the loop. *)
Definition detectedChapters (bookContent : jsstring) : list Chapter :=
  detect_from 0 (split 0x0A bookContent).

End WithPlatform.

(** The text of the specification's example. *)
Definition EXAMPLE_TEXT : jsstring :=
  Eval vm_compute in
    js "CHAPTER ONE" ++ [0x0A]
    ++ js "Some body text that is long enough to not qualify as a heading line here"
    ++ [0x0A] ++ js "第一章 开始".

End Reader.

(** ** The world and the monad of asynchronous operations *)

Inductive FsNode : Type :=
| Directory
| File (data : list N).

(** What the code can observe and change: the AsyncStorage items, the files
    by URI, the module-level [contentCache], and the calls made so far (most
    recent first). *)
Record World : Type := mkWorld {
  storage : gmap (list N) (list N);
  files : gmap (list N) FsNode;
  contentCache : gmap (list N) (list N);
  trace : list IoCall
}.

(** A thrown value: an [Error] made by the code, with its message, or the
    rejection of a platform call. *)
Inductive Error : Type :=
| JsError (message : jsstring)
| PlatformError (call : IoCall).

Inductive Result (A : Type) : Type :=
| Ok (a : A)
| Err (e : Error).
Arguments Ok {A} a.
Arguments Err {A} e.

(** An [async] function: it runs on a world and ends with a value or a
    thrown error; the effects it had before throwing stay. *)
Definition M (A : Type) : Type := World -> Result A * World.

Definition ret {A} (a : A) : M A := fun w => (Ok a, w).

Definition throw {A} (e : Error) : M A := fun w => (Err e, w).

Definition bind {A B} (m : M A) (k : A -> M B) : M B :=
  fun w =>
    match m w with
    | (Ok a, w') => k a w'
    | (Err e, w') => (Err e, w')
    end.

(** [try { m } catch (e) { h e }] *)
Definition try_catch {A} (m : M A) (h : Error -> M A) : M A :=
  fun w =>
    match m w with
    | (Ok a, w') => (Ok a, w')
    | (Err e, w') => h e w'
    end.

Notation "'let!' x := m 'in' k" := (bind m (fun x => k))
  (at level 10, x name, m at level 100, k at level 200).
Notation "m ;; k" := (bind m (fun _ => k))
  (at level 100, k at level 200, right associativity).

Definition record_call (c : IoCall) (w : World) : World :=
  {| storage := storage w; files := files w;
     contentCache := contentCache w; trace := c :: trace w |}.

Definition set_storage (s : gmap (list N) (list N)) (w : World) : World :=
  {| storage := s; files := files w;
     contentCache := contentCache w; trace := trace w |}.

Definition set_files (f : gmap (list N) FsNode) (w : World) : World :=
  {| storage := storage w; files := f;
     contentCache := contentCache w; trace := trace w |}.

Definition set_cache (c : gmap (list N) (list N)) (w : World) : World :=
  {| storage := storage w; files := files w;
     contentCache := c; trace := trace w |}.

(** A computation relates every world it starts in to the one it leaves. *)
Definition frame {A} (R : relation World) (m : M A) : Prop :=
  forall w r w', m w = (r, w') -> R w w'.

(** Relations a computation may keep: the store, the files, and everything
    but the trace. *)
Definition same_storage (w w' : World) : Prop := storage w' = storage w.

Definition same_files (w w' : World) : Prop := files w' = files w.

Definition same_state (w w' : World) : Prop :=
  storage w' = storage w /\ files w' = files w
  /\ contentCache w' = contentCache w.

(** ** The platform calls *)

Module Host.
Section WithPlatform.
Context `{Platform}.

(** A platform call: it is recorded, refused when the host rejects it, and
    otherwise acts on the world as [act] says. *)
Definition call {A} (c : IoCall) (act : World -> option (A * World)) : M A :=
  fun w =>
    let w1 := record_call c w in
    if rejects c then (Err (PlatformError c), w1)
    else match act w1 with
         | Some (a, w2) => (Ok a, w2)
         | None => (Err (PlatformError c), w1)
         end.

(** [AsyncStorage.getItem(key)]: the item, or [null]. *)
Definition getItem (key : jsstring) : M (option jsstring) :=
  call (GetItem key) (fun w => Some (storage w !! key, w)).

(** [AsyncStorage.setItem(key, value)] *)
Definition setItem (key value : jsstring) : M unit :=
  call (SetItem key value)
       (fun w => Some (tt, set_storage (<[key := value]> (storage w)) w)).

(** [FileSystem.getInfoAsync(uri)]: the pair [(exists, isDirectory)]. *)
Definition getInfoAsync (uri : jsstring) : M (bool * bool) :=
  call (GetInfo uri)
       (fun w => Some (match files w !! uri with
                       | None => (false, false)
                       | Some Directory => (true, true)
                       | Some (File _) => (true, false)
                       end, w)).

(** [FileSystem.makeDirectoryAsync(uri, { intermediates: true })]: an
    existing directory is accepted, an existing file is an error. *)
Definition makeDirectoryAsync (uri : jsstring) : M unit :=
  call (MakeDirectory uri)
       (fun w => match files w !! uri with
                 | Some (File _) => None
                 | _ => Some (tt, set_files (<[uri := Directory]> (files w)) w)
                 end).

(** [FileSystem.readAsStringAsync(uri, { encoding, length, position })]:
    the decoded text of a file; a missing file, a directory or bytes that do
    not decode are errors.  The UTF-8 read decodes the whole file whatever
    the range (expo-file-system honours the range for Base64 only). *)
Definition readAsStringAsync (uri : jsstring) (enc : Encoding)
    (range : option (N * N)) : M jsstring :=
  call (ReadAsString uri enc range)
       (fun w => match files w !! uri with
                 | Some (File data) =>
                   match enc with
                   | UTF8 => s ← utf8_decode data; Some (s, w)
                   | Base64 => Some (base64_encode data, w)
                   end
                 | _ => None
                 end).

(** [FileSystem.writeAsStringAsync(uri, content, { encoding: UTF8 })] *)
Definition writeAsStringAsync (uri content : jsstring) : M unit :=
  call (WriteAsString uri content)
       (fun w => match files w !! uri with
                 | Some Directory => None
                 | _ => Some (tt, set_files
                                    (<[uri := File (utf8_encode content)]> (files w)) w)
                 end).

(** [FileSystem.copyAsync({ from, to })] *)
Definition copyAsync (from to : jsstring) : M unit :=
  call (Copy from to)
       (fun w => node ← files w !! from;
                 Some (tt, set_files (<[to := node]> (files w)) w)).

(** [FileSystem.deleteAsync(uri)], without [idempotent]: deleting what does
    not exist is an error. *)
Definition deleteAsync (uri : jsstring) : M unit :=
  call (Delete uri)
       (fun w => _ ← files w !! uri;
                 Some (tt, set_files (delete uri (files w)) w)).

End WithPlatform.
End Host.

(** ** The catalog and content store ([src/services/BookStorage.ts]) *)

Module BookStorage.

Definition BOOKS_STORAGE_KEY : jsstring := Eval vm_compute in js "books_data".

Definition TEXT_PLAIN : jsstring := Eval vm_compute in js "text/plain".
Definition APPLICATION_PDF : jsstring := Eval vm_compute in js "application/pdf".
Definition APPLICATION_EPUB : jsstring := Eval vm_compute in js "application/epub+zip".

Definition PDF_PLACEHOLDER : jsstring :=
  Eval vm_compute in js "PDF文件需要特殊查看器，暂不支持".
Definition EPUB_PLACEHOLDER : jsstring :=
  Eval vm_compute in js "EPUB文件需要特殊解析器，暂不支持".

(** [new Error(`文件${localFilePath}无法读取`)], the specification's
    FileNotReadableError. *)
Definition FileNotReadableError (localFilePath : jsstring) : Error :=
  JsError (js "文件" ++ localFilePath ++ js "无法读取").

(** [new Error(`未找到ID为 ${updatedBook.id} 的书籍`)], the specification's
    RecordNotFoundError. *)
Definition RecordNotFoundError (bookId : jsstring) : Error :=
  JsError (js "未找到ID为 " ++ bookId ++ js " 的书籍").

(** What [JSON.parse] throws on text that is not JSON. *)
Definition SyntaxError : Error := JsError (js "SyntaxError").

(** [if (contentCache[filePath])]: present and not the empty string.  (The
    cache is a plain object; its keys are file URIs, none of which names a
    property inherited from [Object.prototype].) *)
Definition truthy (v : option jsstring) : bool :=
  match v with
  | Some (_ :: _) => true
  | _ => false
  end.

(** [contentCache[key] = value] *)
Definition cache_put (key value : jsstring) : M unit :=
  fun w => (Ok tt, set_cache (<[key := value]> (contentCache w)) w).

Section WithPlatform.
Context `{Platform}.

Definition BOOKS_DIR : jsstring := documentDirectory ++ js "books/".

Definition initialize : M unit :=
  try_catch
    (let! dirInfo := Host.getInfoAsync BOOKS_DIR in
     if negb (fst dirInfo) then Host.makeDirectoryAsync BOOKS_DIR else ret tt)
    (fun error => throw error).

(** getAllBooks returns what [JSON.parse] gives, unchecked. *)
Definition getAllBooks : M Parsed :=
  try_catch
    (let! booksJson := Host.getItem BOOKS_STORAGE_KEY in
     if truthy booksJson
     then match JSON_parse (default [] booksJson) with
          | Some parsed => ret parsed
          | None => throw SyntaxError
          end
     else ret (Records []))
    (fun error => ret (Records [])).

(** The result of getAllBooks as its callers take it, at its declared type
    [Book[]].  addBook, getBook, updateBook, deleteBook and the shelf are
    modelled for a store that holds an array, which is all saveBooks ever
    writes: where the store holds another value they are given the empty
    array here, whereas the code would go on with that value. *)
Definition books_of (parsed : Parsed) : list Book :=
  match parsed with
  | Records books => books
  | NotAnArray _ => []
  end.

Definition getBooks : M (list Book) :=
  let! parsed := getAllBooks in ret (books_of parsed).

Definition saveBooks (books : list Book) : M unit :=
  try_catch
    (Host.setItem BOOKS_STORAGE_KEY (JSON_stringify books))
    (fun error => throw error).

Definition isFileReadable (filePath : jsstring) : M bool :=
  try_catch
    (let! fileInfo := Host.getInfoAsync filePath in
     if negb (fst fileInfo) || snd fileInfo then ret false
     else if OS_is_ios then
       try_catch
         (Host.readAsStringAsync filePath UTF8 (Some (100, 0)) ;; ret true)
         (fun e => ret false)
     else ret true)
    (fun error => ret false).

(** The extension addBook picks (the first [if] chain of the function). *)
Definition fileExtOf (book : Book) (fileUri : jsstring) : jsstring :=
  if includes (fileType book) TEXT_PLAIN then js "txt"
  else if includes (fileType book) APPLICATION_PDF then js "pdf"
  else if includes (fileType book) APPLICATION_EPUB then js "epub"
  else
    let uriParts := split 0x2E fileUri in
    if (1 <? length uriParts)%nat
    then toLowerCase (List.last uriParts [])
    else [].

(** [BOOKS_DIR + `${book.id}.${fileExt}`] *)
Definition localFilePathOf (book : Book) (fileUri : jsstring) : jsstring :=
  BOOKS_DIR ++ (id book ++ [0x2E] ++ fileExtOf book fileUri).

(** addBook up to and including the copy: ensure the directory, pick the
    target path, write or copy the file there; the result is the path. *)
Definition materialize (book : Book) (fileUri : jsstring) : M jsstring :=
  initialize ;;
  let fileExt := fileExtOf book fileUri in
  let localFilePath := localFilePathOf book fileUri in
  (if bool_decide (fileExt = js "txt") then
     try_catch
       (let! content := Host.readAsStringAsync fileUri UTF8 None in
        cache_put localFilePath content ;;
        Host.writeAsStringAsync localFilePath content)
       (fun readError => Host.copyAsync fileUri localFilePath)
   else Host.copyAsync fileUri localFilePath) ;;
  ret localFilePath.

Definition addBook (book : Book) (fileUri : jsstring) : M Book :=
  try_catch
    (let! localFilePath := materialize book fileUri in
     let! isReadable := isFileReadable localFilePath in
     if negb isReadable then throw (FileNotReadableError localFilePath)
     else
       let updatedBook := with_filePath book localFilePath in
       let! books := getBooks in
       saveBooks (books ++ [updatedBook]) ;;
       ret updatedBook)
    (fun error => throw error).

Definition getBook (bookId : jsstring) : M (option Book) :=
  try_catch
    (let! books := getBooks in
     let book := snd <$> list_find (fun book => id book = bookId) books in
     match book with
     | Some b => isFileReadable (filePath b) ;; ret book
     | None => ret book
     end)
    (fun error => ret None).

(** The plain-text branch of readBookContent: the UTF-8 read with its
    Base64 fallback, the cache insert, and the return of the text. *)
Definition read_text (filePath : jsstring) : M jsstring :=
  let! content :=
    try_catch
      (Host.readAsStringAsync filePath UTF8 None)
      (fun e =>
         let! base64Content := Host.readAsStringAsync filePath Base64 None in
         ret (Buffer_base64_to_utf8 base64Content)) in
  cache_put filePath content ;;
  ret content.

Definition readBookContent (filePath fileType : jsstring) : M jsstring :=
  fun w =>
    if truthy (contentCache w !! filePath)
    then (Ok (default [] (contentCache w !! filePath)), w)
    else
      try_catch
        (if includes fileType TEXT_PLAIN then read_text filePath
         else if includes fileType APPLICATION_PDF then ret PDF_PLACEHOLDER
         else if includes fileType APPLICATION_EPUB then ret EPUB_PLACEHOLDER
         else ret [])
        (fun error => throw error) w.

Definition updateBook (updatedBook : Book) : M unit :=
  try_catch
    (let! books := getBooks in
     match fst <$> list_find (fun book => id book = id updatedBook) books with
     | Some index => saveBooks (<[index := updatedBook]> books)
     | None => throw (RecordNotFoundError (id updatedBook))
     end)
    (fun error => throw error).

Definition deleteBook (bookId : jsstring) : M unit :=
  try_catch
    (let! books := getBooks in
     match snd <$> list_find (fun book => id book = bookId) books with
     | Some bookToDelete =>
       try_catch (Host.deleteAsync (filePath bookToDelete)) (fun fileError => ret tt) ;;
       let updatedBooks := filter (fun book => id book <> bookId) books in
       saveBooks updatedBooks
     | None => ret tt
     end)
    (fun error => throw error).

(** The catalog collection: what [getAllBooks] returns in a world, as its
    callers take it. *)
Definition catalog (w : World) : list Book :=
  match fst (getAllBooks w) with
  | Ok parsed => books_of parsed
  | Err _ => []
  end.

(** No two records of the catalog share an [id]. *)
Definition unique_ids (w : World) : Prop := NoDup (id <$> catalog w).

(** The operations of the module, as a client calls them. *)
Inductive Op : Type :=
| Initialize
| GetAllBooks
| IsFileReadable (filePath : jsstring)
| AddBook (book : Book) (fileUri : jsstring)
| GetBook (bookId : jsstring)
| ReadBookContent (filePath fileType : jsstring)
| UpdateBook (updatedBook : Book)
| DeleteBook (bookId : jsstring).

(** The world an operation leaves, whether it returned or threw. *)
Definition run (op : Op) (w : World) : World :=
  match op with
  | Initialize => snd (initialize w)
  | GetAllBooks => snd (getAllBooks w)
  | IsFileReadable p => snd (isFileReadable p w)
  | AddBook book fileUri => snd (addBook book fileUri w)
  | GetBook bookId => snd (getBook bookId w)
  | ReadBookContent p t => snd (readBookContent p t w)
  | UpdateBook b => snd (updateBook b w)
  | DeleteBook bookId => snd (deleteBook bookId w)
  end.

(** The caller's obligation: an [id] given to [addBook] is not in the
    catalog yet. *)
Definition allowed (w : World) (op : Op) : Prop :=
  match op with
  | AddBook book _ => id book ∉ (id <$> catalog w)
  | _ => True
  end.

Fixpoint run_all (ops : list Op) (w : World) : World :=
  match ops with
  | [] => w
  | op :: rest => run_all rest (run op w)
  end.

Fixpoint all_allowed (ops : list Op) (w : World) : Prop :=
  match ops with
  | [] => True
  | op :: rest => allowed w op /\ all_allowed rest (run op w)
  end.

(** The file-system calls made so far. *)
Definition fs_calls (w : World) : list IoCall := List.filter is_fs_call (trace w).

(** The specification's cache property, as worded: once a plain-text read of
    a path has returned, the next read of it returns the same text without
    any file-system call. *)
Definition second_read_is_free : Prop :=
  forall (filePath fileType text : jsstring) (w w1 : World),
    includes fileType TEXT_PLAIN = true ->
    readBookContent filePath fileType w = (Ok text, w1) ->
    exists w2,
      readBookContent filePath fileType w1 = (Ok text, w2)
      /\ fs_calls w2 = fs_calls w1.

(** The specification's PDF property, as worded: a read with the PDF type
    returns the placeholder, for every path and in every world. *)
Definition pdf_read_is_placeholder : Prop :=
  forall (filePath : jsstring) (w : World),
    fst (readBookContent filePath APPLICATION_PDF w) = Ok PDF_PLACEHOLDER.

(** The specification's empty-text property, as worded: for a path whose
    file decodes to the empty text, every read of it, whatever its file
    type, makes a file-system call. *)
Definition every_read_rereads : Prop :=
  forall (filePath fileType : jsstring) (w : World) (data : list N),
    files w !! filePath = Some (File data) ->
    utf8_decode data = Some [] ->
    fs_calls (snd (readBookContent filePath fileType w)) <> fs_calls w.


(** [n] calls of [readBookContent] in a row, with their results. *)
Fixpoint read_repeatedly (n : nat) (filePath fileType : jsstring) (w : World)
    : list (Result jsstring) * World :=
  match n with
  | O => ([], w)
  | S n' =>
    let (r, w1) := readBookContent filePath fileType w in
    let (rs, w2) := read_repeatedly n' filePath fileType w1 in
    (r :: rs, w2)
  end.

End WithPlatform.
End BookStorage.

(** ** Descriptions of the store's behaviour *)

Module StorageSpec.
Import BookStorage.

Section WithPlatform.
Context `{Platform}.

(** What the readability probe finds in a world: the info call goes
    through, the path is a file and, on iOS, its probe read goes through and
    the bytes decode. *)
Definition readable (filePath : jsstring) (w : World) : bool :=
  negb (rejects (GetInfo filePath))
  && match files w !! filePath with
     | Some (File data) =>
       negb OS_is_ios
       || (negb (rejects (ReadAsString filePath UTF8 (Some (100, 0))))
           && bool_decide (is_Some (utf8_decode data)))
     | _ => false
     end.

(** The type is one of the three addBook and readBookContent know. *)
Definition recognized (fileType : jsstring) : bool :=
  includes fileType TEXT_PLAIN || includes fileType APPLICATION_PDF
  || includes fileType APPLICATION_EPUB.

(** The record getBook returns for an id: the first of the catalog that
    carries it. *)
Definition lookup_book (bookId : jsstring) (books : list Book) : option Book :=
  snd <$> list_find (fun book => id book = bookId) books.

End WithPlatform.
End StorageSpec.

(** ** Screens: component state beside the world *)

Module Screen.

(** An [async] handler of a component with state [S]: the [set...] calls it
    made before throwing stay, like its effects on the world. *)
Definition UI (S A : Type) : Type := S -> World -> Result A * S * World.

Definition ui_ret {S A} (a : A) : UI S A := fun s w => (Ok a, s, w).

Definition ui_throw {S A} (e : Error) : UI S A := fun s w => (Err e, s, w).

Definition ui_bind {S A B} (m : UI S A) (k : A -> UI S B) : UI S B :=
  fun s w =>
    match m s w with
    | (Ok a, s', w') => k a s' w'
    | (Err e, s', w') => (Err e, s', w')
    end.

(** [try { m } catch (e) { h e }] *)
Definition ui_try {S A} (m : UI S A) (h : Error -> UI S A) : UI S A :=
  fun s w =>
    match m s w with
    | (Ok a, s', w') => (Ok a, s', w')
    | (Err e, s', w') => h e s' w'
    end.

(** [try { m } finally { f }]: [f] runs in either case and the outcome of
    [m] stands unless [f] throws. *)
Definition ui_finally {S A} (m : UI S A) (f : UI S unit) : UI S A :=
  fun s w =>
    match m s w with
    | (r, s', w') =>
      match f s' w' with
      | (Ok _, s'', w'') => (r, s'', w'')
      | (Err e, s'', w'') => (Err e, s'', w'')
      end
    end.

(** [await m] for a call into the storage module. *)
Definition lift {S A} (m : M A) : UI S A :=
  fun s w => match m w with (r, w') => (r, s, w') end.

(** A state setter. *)
Definition modify {S} (f : S -> S) : UI S unit := fun s w => (Ok tt, f s, w).

End Screen.

Notation "'let*' x := m 'in' k" := (Screen.ui_bind m (fun x => k))
  (at level 10, x name, m at level 100, k at level 200).
Notation "m >>> k" := (Screen.ui_bind m (fun _ => k))
  (at level 100, k at level 200, right associativity).

(** ** The reader screen ([src/app/reader/[id].tsx]) *)

Module ReaderScreen.
Import Screen BookStorage.

Inductive Language : Type := zh | en.

(** The two entries of [READ_TRANSLATIONS] that loadBook throws. *)
Definition fileNotReadable (language : Language) : jsstring :=
  match language with
  | zh => js "文件无法读取"
  | en => js "File is not readable"
  end.

Definition fileNotFound (language : Language) : jsstring :=
  match language with
  | zh => js "找不到文件"
  | en => js "File not found"
  end.

Inductive ReaderMode : Type := READING | CONTROLS | TOC | SETTINGS.

Inductive Theme : Type := light | dark | sepia.

(** [ReaderSettings].  The font size is a whole number of points; the line
    height, the constant 1.5 that no handler changes, is carried as a
    fraction. *)
Record ReaderSettings : Type := mkSettings {
  fontSize : Z;
  fontFamily : jsstring;
  lineHeight : N * N;
  theme : Theme
}.

(** The [useState] cells of the component, and the value the last started
    animation drives [controlsOpacity] to. *)
Record State : Type := mkState {
  book : option Book;
  loading : bool;
  error : option jsstring;
  content : jsstring;
  readerMode : ReaderMode;
  controlsOpacity : Z;
  settings : ReaderSettings;
  chapters : list Reader.Chapter;
  isTableOfContentsVisible : bool;
  isSettingsVisible : bool;
  refreshKey : N
}.

(** The state the component mounts with, for a colour scheme. *)
Definition initial (darkScheme : bool) : State :=
  {| book := None; loading := true; error := None; content := [];
     readerMode := READING; controlsOpacity := 0%Z;
     settings := {| fontSize := 18%Z; fontFamily := js "System";
                    lineHeight := (3, 2);
                    theme := if darkScheme then dark else light |};
     chapters := []; isTableOfContentsVisible := false;
     isSettingsVisible := false; refreshKey := 0 |}.

Definition setBook (v : option Book) (s : State) : State :=
  mkState v (loading s) (error s) (content s) (readerMode s) (controlsOpacity s)
          (settings s) (chapters s) (isTableOfContentsVisible s)
          (isSettingsVisible s) (refreshKey s).

Definition setLoading (v : bool) (s : State) : State :=
  mkState (book s) v (error s) (content s) (readerMode s) (controlsOpacity s)
          (settings s) (chapters s) (isTableOfContentsVisible s)
          (isSettingsVisible s) (refreshKey s).

Definition setError (v : option jsstring) (s : State) : State :=
  mkState (book s) (loading s) v (content s) (readerMode s) (controlsOpacity s)
          (settings s) (chapters s) (isTableOfContentsVisible s)
          (isSettingsVisible s) (refreshKey s).

Definition setContent (v : jsstring) (s : State) : State :=
  mkState (book s) (loading s) (error s) v (readerMode s) (controlsOpacity s)
          (settings s) (chapters s) (isTableOfContentsVisible s)
          (isSettingsVisible s) (refreshKey s).

Definition setReaderMode (v : ReaderMode) (s : State) : State :=
  mkState (book s) (loading s) (error s) (content s) v (controlsOpacity s)
          (settings s) (chapters s) (isTableOfContentsVisible s)
          (isSettingsVisible s) (refreshKey s).

(** [Animated.timing(controlsOpacity, { toValue: v, ... }).start()] *)
Definition animateOpacity (v : Z) (s : State) : State :=
  mkState (book s) (loading s) (error s) (content s) (readerMode s) v
          (settings s) (chapters s) (isTableOfContentsVisible s)
          (isSettingsVisible s) (refreshKey s).

Definition setSettings (f : ReaderSettings -> ReaderSettings) (s : State) : State :=
  mkState (book s) (loading s) (error s) (content s) (readerMode s)
          (controlsOpacity s) (f (settings s)) (chapters s)
          (isTableOfContentsVisible s) (isSettingsVisible s) (refreshKey s).

Definition setChapters (v : list Reader.Chapter) (s : State) : State :=
  mkState (book s) (loading s) (error s) (content s) (readerMode s)
          (controlsOpacity s) (settings s) v (isTableOfContentsVisible s)
          (isSettingsVisible s) (refreshKey s).

Definition setIsTableOfContentsVisible (v : bool) (s : State) : State :=
  mkState (book s) (loading s) (error s) (content s) (readerMode s)
          (controlsOpacity s) (settings s) (chapters s) v
          (isSettingsVisible s) (refreshKey s).

Definition setIsSettingsVisible (v : bool) (s : State) : State :=
  mkState (book s) (loading s) (error s) (content s) (readerMode s)
          (controlsOpacity s) (settings s) (chapters s)
          (isTableOfContentsVisible s) v (refreshKey s).

Definition setRefreshKey (f : N -> N) (s : State) : State :=
  mkState (book s) (loading s) (error s) (content s) (readerMode s)
          (controlsOpacity s) (settings s) (chapters s)
          (isTableOfContentsVisible s) (isSettingsVisible s) (f (refreshKey s)).

(** [{...bookData, lastRead: new Date()}], for the ISO string [now] that
    names the new Date. *)
Definition with_lastRead (b : Book) (now : jsstring) : Book :=
  {| id := id b; title := title b; author := author b; filePath := filePath b;
     fileType := fileType b; coverUrl := coverUrl b;
     lastRead := Some (DateObject now);
     lastPage := lastPage b; totalPages := totalPages b;
     chapterIndex := chapterIndex b;
     highlights := highlights b; bookmarks := bookmarks b |}.

Section WithPlatform.
Context `{Platform}.

(** What the component shows of a rejected platform call: its message when
    it is an [Error], the text 未知错误 otherwise. *)
Variable rejection_message : IoCall -> jsstring.

(** [error instanceof Error ? error.message : '未知错误'] *)
Definition message_of (e : Error) : jsstring :=
  match e with
  | JsError message => message
  | PlatformError call => rejection_message call
  end.

(** loadBook, for the route parameter [id], the language in use and the
    ISO string that names the Date [new Date()] gives. *)
Definition loadBook (language : Language) (now : jsstring)
    (id : option jsstring) : UI State unit :=
  if negb (truthy id) then ui_ret tt
  else
    ui_finally
      (ui_try
         (modify (setLoading true) >>>
          modify (setError None) >>>
          let* bookData := lift (getBook (default [] id)) in
          match bookData with
          | None => ui_throw (JsError (fileNotFound language))
          | Some bookData =>
            modify (setBook (Some bookData)) >>>
            let* fileInfo := lift (Host.getInfoAsync (filePath bookData)) in
            if negb (fst fileInfo) then ui_throw (JsError (fileNotFound language))
            else
              ui_try
                (let* bookContent :=
                   lift (readBookContent (filePath bookData) (fileType bookData)) in
                 (if includes (fileType bookData) TEXT_PLAIN
                  then modify (setChapters (Reader.detectedChapters bookContent))
                  else ui_ret tt) >>>
                 modify (setContent bookContent))
                (fun readError => ui_throw (JsError (fileNotReadable language))) >>>
              ui_try
                (lift (updateBook (with_lastRead bookData now)))
                (fun updateError => ui_ret tt)
          end)
         (fun error => modify (setError (Some (message_of error)))))
      (modify (setLoading false)).

End WithPlatform.

(** The tap and button handlers. *)
Definition handleCenterTap (s : State) : State :=
  match readerMode s with
  | READING => animateOpacity 1%Z (setReaderMode CONTROLS s)
  | _ => animateOpacity 0%Z (setReaderMode READING s)
  end.

Definition increaseFontSize (s : State) : State :=
  setSettings (fun prev => mkSettings (Z.min (fontSize prev + 2) 32) (fontFamily prev)
                                      (lineHeight prev) (theme prev)) s.

Definition decreaseFontSize (s : State) : State :=
  setSettings (fun prev => mkSettings (Z.max (fontSize prev - 2) 12) (fontFamily prev)
                                      (lineHeight prev) (theme prev)) s.

Definition showTableOfContents (s : State) : State :=
  setReaderMode TOC (setIsTableOfContentsVisible true s).

Definition hideTableOfContents (s : State) : State :=
  setReaderMode CONTROLS (setIsTableOfContentsVisible false s).

Definition showSettings (s : State) : State := setIsSettingsVisible true s.

Definition handleRetry (s : State) : State := setRefreshKey (fun prev => prev + 1) s.

(** The handlers a user can trigger, and a run of them. *)
Inductive Tap : Type :=
| CenterTap | FontUp | FontDown | ShowToc | HideToc | ShowSettings | Retry.

Definition tap (t : Tap) (s : State) : State :=
  match t with
  | CenterTap => handleCenterTap s
  | FontUp => increaseFontSize s
  | FontDown => decreaseFontSize s
  | ShowToc => showTableOfContents s
  | HideToc => hideTableOfContents s
  | ShowSettings => showSettings s
  | Retry => handleRetry s
  end.

Definition taps (ts : list Tap) (s : State) : State := foldl (fun s t => tap t s) s ts.

(** The taps keep three facts about the mode, the opacity target and the
    table of contents. *)
Definition mode_invariant (s : State) : Prop :=
  readerMode s <> SETTINGS
  /\ (readerMode s = READING -> controlsOpacity s = 0%Z)
  /\ (readerMode s = TOC -> isTableOfContentsVisible s = true)
  /\ (controlsOpacity s = 0%Z \/ controlsOpacity s = 1%Z).

End ReaderScreen.

(** ** The bookshelf screen ([src/app/(tabs)/index.tsx], the version that
    uses BookStorage) *)

Module BookshelfScreen.
Import Screen BookStorage.

(** An argument of [Alert.alert]: [t(key)], [t(key, { title })] or a literal. *)
Inductive Text : Type :=
| T (key : string)
| TTitle (key : string) (title : jsstring)
| Literal (text : jsstring).

Record Alert : Type := mkAlert {
  heading : Text;
  message : Text
}.

(** The [useState] cells of the component, and the alerts shown so far
    (most recent first). *)
Record State : Type := mkState {
  books : list Book;
  loading : bool;
  alerts : list Alert
}.

Definition setBooks (f : list Book -> list Book) (s : State) : State :=
  mkState (f (books s)) (loading s) (alerts s).

Definition setLoading (v : bool) (s : State) : State :=
  mkState (books s) v (alerts s).

(** [Alert.alert(heading, message)] *)
Definition shown (a : Alert) (s : State) : State :=
  mkState (books s) (loading s) (a :: alerts s).

Definition alert (heading message : Text) : UI State unit :=
  modify (shown (mkAlert heading message)).

(** An asset of the document picker; [mimeType], [name] and [size] may be
    missing. *)
Record Asset : Type := mkAsset {
  uri : jsstring;
  mimeType : option jsstring;
  name : option jsstring;
  size : option N
}.

(** What [DocumentPicker.getDocumentAsync] resolves to. *)
Record PickerResult : Type := mkPicked {
  canceled : bool;
  assets : list Asset
}.

(** What reading a property of [undefined] throws. *)
Definition TypeError : Error := JsError (js "TypeError").

(** The search [/\.[^/.]+$/] makes in [s], start index after start index:
    a match starts at a dot that is followed, up to the end of the string,
    by one or more code units that are neither a slash nor a dot.
    [replace(..., '')] deletes the first match, which ends the string. *)
Definition extension_matches (rest : jsstring) : bool :=
  match rest with
  | [] => false
  | _ :: _ => forallb (fun x => negb ((x =? 0x2F) || (x =? 0x2E))) rest
  end.

Fixpoint remove_extension (s : jsstring) : jsstring :=
  match s with
  | [] => []
  | c :: rest =>
    if (c =? 0x2E) && extension_matches rest then []
    else c :: remove_extension rest
  end.

(** [file.size && file.size > 50 * 1024 * 1024] *)
Definition too_large (size : option N) : bool :=
  match size with
  | Some n => negb (n =? 0) && (50 * 1024 * 1024 <? n)
  | None => false
  end.

(** The type test of importBook. *)
Definition supported (fileType : jsstring) : bool :=
  includes fileType (js "epub") || includes fileType TEXT_PLAIN
  || includes fileType (js "pdf").

(** [file.mimeType || '未知'] and [file.name || '未命名'] *)
Definition fileTypeOf (file : Asset) : jsstring :=
  if truthy (mimeType file) then default [] (mimeType file) else js "未知".

Definition fileNameOf (file : Asset) : jsstring :=
  if truthy (name file) then default [] (name file) else js "未命名".

(** The record importBook builds: no optional property but [lastRead]. *)
Definition newBook (file : Asset) (fileType fileName : jsstring)
    (now_ms now : jsstring) : Book :=
  {| id := now_ms; title := remove_extension fileName; author := None;
     filePath := uri file; fileType := fileType; coverUrl := None;
     lastRead := Some (DateObject now);
     lastPage := None; totalPages := None; chapterIndex := None;
     highlights := None; bookmarks := None |}.

(** The label renderBookItem shows on a book without cover, as the key
    handed to [t]. *)
Definition typeLabel (item : Book) : string :=
  if includes (fileType item) (js "epub") then "epub"%string
  else if includes (fileType item) TEXT_PLAIN then "txt"%string
  else "pdf"%string.

Section WithPlatform.
Context `{Platform}.

Definition loadBooks : UI State unit :=
  ui_finally
    (ui_try
       (modify (setLoading true) >>>
        let* bookList := lift getBooks in
        modify (setBooks (fun _ => bookList)))
       (fun error => alert (T "error") (Literal (js "加载书籍列表失败"))))
    (modify (setLoading false)).

(** importBook, for what the picker gave (or threw), [Date.now().toString()]
    and the ISO string that names the Date [new Date()] gives. *)
Definition importBook (picked : Result PickerResult) (now_ms now : jsstring)
    : UI State unit :=
  ui_try
    (let* result := (fun s w => (picked, s, w)) in
     if canceled result then ui_ret tt
     else
       match assets result with
       | [] => ui_throw TypeError
       | file :: _ =>
         let fileType := fileTypeOf file in
         let fileName := fileNameOf file in
         if negb (supported fileType)
         then alert (T "unsupportedFileType") (T "unsupportedFileTypeMessage")
         else if too_large (size file)
         then alert (T "fileTooLarge") (T "fileTooLarge")
         else
           let book := newBook file fileType fileName now_ms now in
           ui_try
             (let* savedBook := lift (addBook book (uri file)) in
              modify (setBooks (fun prevBooks => prevBooks ++ [savedBook])) >>>
              alert (T "importSuccess") (TTitle "importSuccessMessage" (title book)))
             (fun saveError => alert (T "importFailed") (T "saveFileFailed"))
       end)
    (fun error => alert (T "importFailed") (T "importFailedMessage")).

(** What the user can make the screen do to its books, and a run of it. *)
Inductive Action : Type :=
| LoadBooks
| ImportBook (picked : Result PickerResult) (now_ms now : jsstring).

Definition act (a : Action) : UI State unit :=
  match a with
  | LoadBooks => loadBooks
  | ImportBook picked now_ms now => importBook picked now_ms now
  end.


End WithPlatform.
End BookshelfScreen.

(** ** A reference host

    Concrete built-ins to run the model on: a compact JSON printer and
    parser for catalogs, UTF-8 and Base64 codecs, and ASCII case mapping
    (which is what the String methods do on ASCII and on caseless scripts). *)

Module RefHost.

Definition QUOTE : N := 0x22.
Definition BACKSLASH : N := 0x5C.

Definition escape (s : jsstring) : jsstring :=
  flat_map (fun c => if (c =? QUOTE) || (c =? BACKSLASH) then [BACKSLASH; c] else [c]) s.

Definition print_string (s : jsstring) : jsstring := QUOTE :: escape s ++ [QUOTE].

Definition print_opt (o : option jsstring) : jsstring :=
  match o with
  | Some s => print_string s
  | None => js "null"
  end.

(** A whole number in decimal. *)
Fixpoint digits (d : Decimal.uint) : jsstring :=
  match d with
  | Decimal.Nil => []
  | Decimal.D0 d' => 0x30 :: digits d'
  | Decimal.D1 d' => 0x31 :: digits d'
  | Decimal.D2 d' => 0x32 :: digits d'
  | Decimal.D3 d' => 0x33 :: digits d'
  | Decimal.D4 d' => 0x34 :: digits d'
  | Decimal.D5 d' => 0x35 :: digits d'
  | Decimal.D6 d' => 0x36 :: digits d'
  | Decimal.D7 d' => 0x37 :: digits d'
  | Decimal.D8 d' => 0x38 :: digits d'
  | Decimal.D9 d' => 0x39 :: digits d'
  end.

Definition print_number (z : Z) : jsstring :=
  match z with
  | Zneg p => 0x2D :: digits (Pos.to_uint p)
  | _ => digits (N.to_uint (Z.to_N z))
  end.

Definition print_opt_number (o : option Z) : jsstring :=
  match o with
  | Some z => print_number z
  | None => js "null"
  end.

(** A date is written as its ISO string, whether it is held as a Date
    object or as that string. *)
Definition print_date (d : DateValue) : jsstring :=
  match d with
  | DateObject iso | DateString iso => print_string iso
  end.

Definition print_opt_date (o : option DateValue) : jsstring :=
  match o with
  | Some d => print_date d
  | None => js "null"
  end.

(** [,"name":] as it stands between two properties. *)
Definition key (name : string) : jsstring :=
  QUOTE :: js name ++ [QUOTE; 0x3A].

Section Lists.
Context {A : Type} (print : A -> jsstring).

Fixpoint print_items (xs : list A) : jsstring :=
  match xs with
  | [] => [0x5D]
  | x :: xs' => [0x2C] ++ print x ++ print_items xs'
  end.

Definition print_list (xs : list A) : jsstring :=
  match xs with
  | [] => [0x5B; 0x5D]
  | x :: xs' => [0x5B] ++ print x ++ print_items xs'
  end.

Definition print_opt_list (o : option (list A)) : jsstring :=
  match o with
  | Some xs => print_list xs
  | None => js "null"
  end.

End Lists.

Definition print_highlight (h : BookHighlight.t) : jsstring :=
  [0x7B] ++ key "id" ++ print_string (BookHighlight.id h)
  ++ [0x2C] ++ key "text" ++ print_string (BookHighlight.text h)
  ++ [0x2C] ++ key "position" ++ print_number (BookHighlight.position h)
  ++ [0x2C] ++ key "chapter" ++ print_opt_number (BookHighlight.chapter h)
  ++ [0x2C] ++ key "createdAt" ++ print_date (BookHighlight.createdAt h)
  ++ [0x2C] ++ key "note" ++ print_opt (BookHighlight.note h)
  ++ [0x7D].

Definition print_bookmark (m : BookBookmark.t) : jsstring :=
  [0x7B] ++ key "id" ++ print_string (BookBookmark.id m)
  ++ [0x2C] ++ key "position" ++ print_number (BookBookmark.position m)
  ++ [0x2C] ++ key "chapter" ++ print_opt_number (BookBookmark.chapter m)
  ++ [0x2C] ++ key "createdAt" ++ print_date (BookBookmark.createdAt m)
  ++ [0x2C] ++ key "note" ++ print_opt (BookBookmark.note m)
  ++ [0x7D].

Definition print_book (b : Book) : jsstring :=
  [0x7B] ++ key "id" ++ print_string (id b)
  ++ [0x2C] ++ key "title" ++ print_string (title b)
  ++ [0x2C] ++ key "author" ++ print_opt (author b)
  ++ [0x2C] ++ key "filePath" ++ print_string (filePath b)
  ++ [0x2C] ++ key "fileType" ++ print_string (fileType b)
  ++ [0x2C] ++ key "coverUrl" ++ print_opt (coverUrl b)
  ++ [0x2C] ++ key "lastRead" ++ print_opt_date (lastRead b)
  ++ [0x2C] ++ key "lastPage" ++ print_opt_number (lastPage b)
  ++ [0x2C] ++ key "totalPages" ++ print_opt_number (totalPages b)
  ++ [0x2C] ++ key "chapterIndex" ++ print_opt_number (chapterIndex b)
  ++ [0x2C] ++ key "highlights" ++ print_opt_list print_highlight (highlights b)
  ++ [0x2C] ++ key "bookmarks" ++ print_opt_list print_bookmark (bookmarks b)
  ++ [0x7D].

Definition stringify (bs : list Book) : jsstring := print_list print_book bs.

(** Parsers take the input and give the value read and the rest. *)
Definition p_lit (l s : jsstring) : option (unit * jsstring) :=
  if starts_with l s then Some (tt, drop (length l) s) else None.

Fixpoint p_chars (s : jsstring) : option (jsstring * jsstring) :=
  match s with
  | [] => None
  | c :: r =>
    if c =? QUOTE then Some ([], r)
    else if c =? BACKSLASH then
      match r with
      | d :: r' =>
        if (d =? QUOTE) || (d =? BACKSLASH)
        then '(x, rest) ← p_chars r'; Some (d :: x, rest)
        else None
      | [] => None
      end
    else '(x, rest) ← p_chars r; Some (c :: x, rest)
  end.

Definition p_string (s : jsstring) : option (jsstring * jsstring) :=
  match s with
  | c :: r => if c =? QUOTE then p_chars r else None
  | [] => None
  end.

(** [null] or what [p] reads. *)
Definition p_nullable {A} (p : jsstring -> option (A * jsstring)) (s : jsstring)
    : option (option A * jsstring) :=
  match p_lit (js "null") s with
  | Some (_, r) => Some (None, r)
  | None => '(x, r) ← p s; Some (Some x, r)
  end.

Definition p_opt : jsstring -> option (option jsstring * jsstring) :=
  p_nullable p_string.

Definition is_digit (c : N) : bool := (0x30 <=? c) && (c <=? 0x39).

Definition push_digit (c : N) (d : Decimal.uint) : Decimal.uint :=
  match c - 0x30 with
  | 0 => Decimal.D0 d
  | 1 => Decimal.D1 d
  | 2 => Decimal.D2 d
  | 3 => Decimal.D3 d
  | 4 => Decimal.D4 d
  | 5 => Decimal.D5 d
  | 6 => Decimal.D6 d
  | 7 => Decimal.D7 d
  | 8 => Decimal.D8 d
  | _ => Decimal.D9 d
  end.

Fixpoint p_digits (s : jsstring) : Decimal.uint * jsstring :=
  match s with
  | c :: r =>
    if is_digit c then let (d, rest) := p_digits r in (push_digit c d, rest)
    else (Decimal.Nil, s)
  | [] => (Decimal.Nil, [])
  end.

Definition p_natural (s : jsstring) : option (N * jsstring) :=
  match p_digits s with
  | (Decimal.Nil, _) => None
  | (d, r) => Some (N.of_uint d, r)
  end.

Definition p_number (s : jsstring) : option (Z * jsstring) :=
  match s with
  | c :: r =>
    if c =? 0x2D then '(n, rest) ← p_natural r; Some (Z.opp (Z.of_N n), rest)
    else '(n, rest) ← p_natural s; Some (Z.of_N n, rest)
  | [] => None
  end.

(** A date is read as the string it is. *)
Definition p_date (s : jsstring) : option (DateValue * jsstring) :=
  '(iso, r) ← p_string s; Some (DateString iso, r).

Section Lists.
Context {A : Type} (p : jsstring -> option (A * jsstring)).

Fixpoint p_items (fuel : nat) (s : jsstring) : option (list A * jsstring) :=
  match fuel with
  | O => None
  | S fuel' =>
    match s with
    | c :: r =>
      if c =? 0x5D then Some ([], r)
      else if c =? 0x2C then
        '(x, r1) ← p r; '(xs, r2) ← p_items fuel' r1; Some (x :: xs, r2)
      else None
    | [] => None
    end
  end.

Definition p_list (s : jsstring) : option (list A * jsstring) :=
  match s with
  | c :: r =>
    if c =? 0x5B then
      match p_lit [0x5D] r with
      | Some (_, r') => Some ([], r')
      | None =>
        '(x, r1) ← p r; '(xs, r2) ← p_items (length r1) r1; Some (x :: xs, r2)
      end
    else None
  | [] => None
  end.

End Lists.

Definition p_highlight (s : jsstring) : option (BookHighlight.t * jsstring) :=
  '(_, s) ← p_lit ([0x7B] ++ key "id") s;
  '(h_id, s) ← p_string s;
  '(_, s) ← p_lit ([0x2C] ++ key "text") s;
  '(h_text, s) ← p_string s;
  '(_, s) ← p_lit ([0x2C] ++ key "position") s;
  '(h_position, s) ← p_number s;
  '(_, s) ← p_lit ([0x2C] ++ key "chapter") s;
  '(h_chapter, s) ← p_nullable p_number s;
  '(_, s) ← p_lit ([0x2C] ++ key "createdAt") s;
  '(h_createdAt, s) ← p_date s;
  '(_, s) ← p_lit ([0x2C] ++ key "note") s;
  '(h_note, s) ← p_opt s;
  '(_, s) ← p_lit [0x7D] s;
  Some (BookHighlight.mk h_id h_text h_position h_chapter h_createdAt h_note, s).

Definition p_bookmark (s : jsstring) : option (BookBookmark.t * jsstring) :=
  '(_, s) ← p_lit ([0x7B] ++ key "id") s;
  '(m_id, s) ← p_string s;
  '(_, s) ← p_lit ([0x2C] ++ key "position") s;
  '(m_position, s) ← p_number s;
  '(_, s) ← p_lit ([0x2C] ++ key "chapter") s;
  '(m_chapter, s) ← p_nullable p_number s;
  '(_, s) ← p_lit ([0x2C] ++ key "createdAt") s;
  '(m_createdAt, s) ← p_date s;
  '(_, s) ← p_lit ([0x2C] ++ key "note") s;
  '(m_note, s) ← p_opt s;
  '(_, s) ← p_lit [0x7D] s;
  Some (BookBookmark.mk m_id m_position m_chapter m_createdAt m_note, s).

Definition p_book (s : jsstring) : option (Book * jsstring) :=
  '(_, s) ← p_lit ([0x7B] ++ key "id") s;
  '(b_id, s) ← p_string s;
  '(_, s) ← p_lit ([0x2C] ++ key "title") s;
  '(b_title, s) ← p_string s;
  '(_, s) ← p_lit ([0x2C] ++ key "author") s;
  '(b_author, s) ← p_opt s;
  '(_, s) ← p_lit ([0x2C] ++ key "filePath") s;
  '(b_filePath, s) ← p_string s;
  '(_, s) ← p_lit ([0x2C] ++ key "fileType") s;
  '(b_fileType, s) ← p_string s;
  '(_, s) ← p_lit ([0x2C] ++ key "coverUrl") s;
  '(b_coverUrl, s) ← p_opt s;
  '(_, s) ← p_lit ([0x2C] ++ key "lastRead") s;
  '(b_lastRead, s) ← p_nullable p_date s;
  '(_, s) ← p_lit ([0x2C] ++ key "lastPage") s;
  '(b_lastPage, s) ← p_nullable p_number s;
  '(_, s) ← p_lit ([0x2C] ++ key "totalPages") s;
  '(b_totalPages, s) ← p_nullable p_number s;
  '(_, s) ← p_lit ([0x2C] ++ key "chapterIndex") s;
  '(b_chapterIndex, s) ← p_nullable p_number s;
  '(_, s) ← p_lit ([0x2C] ++ key "highlights") s;
  '(b_highlights, s) ← p_nullable (p_list p_highlight) s;
  '(_, s) ← p_lit ([0x2C] ++ key "bookmarks") s;
  '(b_bookmarks, s) ← p_nullable (p_list p_bookmark) s;
  '(_, s) ← p_lit [0x7D] s;
  Some (mkBook b_id b_title b_author b_filePath b_fileType b_coverUrl
               b_lastRead b_lastPage b_totalPages b_chapterIndex
               b_highlights b_bookmarks, s).

(** A value that is no array: a literal, a whole number, a string or the
    empty object. *)
Definition p_other (s : jsstring) : option NonArray :=
  if bool_decide (s = js "null") then Some JsonNull
  else if bool_decide (s = js "true") then Some (JsonBoolean true)
  else if bool_decide (s = js "false") then Some (JsonBoolean false)
  else if bool_decide (s = js "{}") then Some JsonObject
  else
    match p_number s with
    | Some (z, []) => Some (JsonNumber z)
    | _ =>
      match p_string s with
      | Some (x, []) => Some (JsonString x)
      | _ => None
      end
    end.

Definition parse (s : jsstring) : option Parsed :=
  match p_list p_book s with
  | Some (bs, []) => Some (Records bs)
  | _ => NotAnArray <$> p_other s
  end.

(** UTF-16 to UTF-8, a lone surrogate becoming U+FFFD. *)
Definition REPLACEMENT : list N := [0xEF; 0xBF; 0xBD].

Fixpoint utf16_to_utf8 (s : jsstring) : list N :=
  match s with
  | [] => []
  | c :: r =>
    if c <? 0x80 then c :: utf16_to_utf8 r
    else if c <? 0x800 then (0xC0 + c / 64) :: (0x80 + c mod 64) :: utf16_to_utf8 r
    else if (0xD800 <=? c) && (c <? 0xDC00) then
      match r with
      | d :: r' =>
        if (0xDC00 <=? d) && (d <? 0xE000) then
          let cp := 0x10000 + (c - 0xD800) * 1024 + (d - 0xDC00) in
          (0xF0 + cp / 262144) :: (0x80 + (cp / 4096) mod 64)
            :: (0x80 + (cp / 64) mod 64) :: (0x80 + cp mod 64) :: utf16_to_utf8 r'
        else REPLACEMENT ++ utf16_to_utf8 r
      | [] => REPLACEMENT
      end
    else if (0xDC00 <=? c) && (c <? 0xE000) then REPLACEMENT ++ utf16_to_utf8 r
    else (0xE0 + c / 4096) :: (0x80 + (c / 64) mod 64) :: (0x80 + c mod 64)
           :: utf16_to_utf8 r
  end.

(** UTF-8 decoding that never fails: a byte that starts no well-formed
    sequence becomes U+FFFD. *)
Fixpoint utf8_lossy (fuel : nat) (bs : list N) : jsstring :=
  match fuel, bs with
  | S fuel', b :: r =>
    let n := if b <? 0xC2 then 1%nat else if b <? 0xE0 then 2%nat
             else if b <? 0xF0 then 3%nat else 4%nat in
    match utf8_to_utf16 (take n bs) with
    | Some cs => cs ++ utf8_lossy fuel' (drop n bs)
    | None => 0xFFFD :: utf8_lossy fuel' r
    end
  | _, _ => []
  end.

Definition sextet_char (i : N) : N :=
  if i <? 26 then 0x41 + i
  else if i <? 52 then 0x61 + (i - 26)
  else if i <? 62 then 0x30 + (i - 52)
  else if i =? 62 then 0x2B else 0x2F.

Definition PAD : N := 0x3D.

Fixpoint base64 (bs : list N) : jsstring :=
  match bs with
  | [] => []
  | [a] => [sextet_char (a / 4); sextet_char ((a mod 4) * 16); PAD; PAD]
  | [a; b] =>
    [sextet_char (a / 4); sextet_char ((a mod 4) * 16 + b / 16);
     sextet_char ((b mod 16) * 4); PAD]
  | a :: b :: c :: r =>
    sextet_char (a / 4) :: sextet_char ((a mod 4) * 16 + b / 16)
      :: sextet_char ((b mod 16) * 4 + c / 64) :: sextet_char (c mod 64)
      :: base64 r
  end.

Definition char_sextet (c : N) : option N :=
  if (0x41 <=? c) && (c <=? 0x5A) then Some (c - 0x41)
  else if (0x61 <=? c) && (c <=? 0x7A) then Some (c - 0x61 + 26)
  else if (0x30 <=? c) && (c <=? 0x39) then Some (c - 0x30 + 52)
  else if c =? 0x2B then Some 62
  else if c =? 0x2F then Some 63
  else None.

Fixpoint unbase64 (ss : list N) : list N :=
  match ss with
  | a :: b :: c :: d :: r =>
    (a * 4 + b / 16) :: ((b mod 16) * 16 + c / 4) :: ((c mod 4) * 64 + d)
      :: unbase64 r
  | [a; b; c] => [a * 4 + b / 16; (b mod 16) * 16 + c / 4]
  | [a; b] => [a * 4 + b / 16]
  | _ => []
  end.

(** [Buffer.from(s, 'base64').toString('utf8')] *)
Definition buffer_base64_to_utf8 (s : jsstring) : jsstring :=
  let bytes := unbase64 (omap char_sextet s) in
  utf8_lossy (length bytes) bytes.

Definition ascii_upper (s : jsstring) : jsstring :=
  List.map (fun c => if (0x61 <=? c) && (c <=? 0x7A) then c - 0x20 else c) s.

Definition ascii_lower (s : jsstring) : jsstring :=
  List.map (fun c => if (0x41 <=? c) && (c <=? 0x5A) then c + 0x20 else c) s.

Definition DOCUMENT_DIRECTORY : jsstring :=
  Eval vm_compute in js "file:///data/user/0/host.exp.exponent/files/".

Definition no_rejects (c : IoCall) : bool := false.

(** Sample data: a picked document (its URI has no dot), books of a given
    id and type that point at it, as records read from a store hold their
    date, and worlds holding given files. *)
Definition SOURCE_URI : jsstring := Eval vm_compute in js "content://picker/document/41".

Definition sample_book (bookId fileType : string) : Book :=
  {| id := js bookId; title := js "Sample"; author := None;
     filePath := SOURCE_URI; fileType := js fileType; coverUrl := None;
     lastRead := Some (DateString (js "2026-11-01T00:00:00.000Z"));
     lastPage := None; totalPages := None; chapterIndex := None;
     highlights := None; bookmarks := None |}.

Definition world_of (fs : list (jsstring * FsNode)) : World :=
  {| storage := ∅; files := list_to_map fs; contentCache := ∅; trace := [] |}.

Definition NOTES_PATH : jsstring := Eval vm_compute in js "file:///notes.txt".

End RefHost.

(** * Proofs *)

Module RefHostFacts.
Import RefHost.

Lemma starts_with_app (l r : jsstring) : starts_with l (l ++ r) = true.
Proof. induction l as [|c l IH]; simpl; [done|]. by rewrite N.eqb_refl. Qed.

Lemma p_lit_app (l r : jsstring) : p_lit l (l ++ r) = Some (tt, r).
Proof. unfold p_lit. by rewrite starts_with_app, drop_app_length. Qed.

Lemma p_chars_escape (x r : jsstring) :
  p_chars (escape x ++ QUOTE :: r) = Some (x, r).
Proof.
  induction x as [|c x IH]; [done|].
  unfold escape in *. simpl.
  destruct (c =? QUOTE) eqn:Hq; simpl.
  - apply N.eqb_eq in Hq as ->. simpl. by rewrite IH.
  - destruct (c =? BACKSLASH) eqn:Hb; simpl.
    + apply N.eqb_eq in Hb as ->. simpl. by rewrite IH.
    + rewrite Hq, Hb. by rewrite IH.
Qed.

Lemma p_string_print (x r : jsstring) :
  p_string (print_string x ++ r) = Some (x, r).
Proof.
  unfold print_string, p_string. simpl.
  rewrite <- (assoc_L (++)). apply p_chars_escape.
Qed.

Lemma p_nullable_null {A} (p : jsstring -> option (A * jsstring)) (r : jsstring) :
  p_nullable p (js "null" ++ r) = Some (None, r).
Proof. unfold p_nullable. by rewrite p_lit_app. Qed.

Lemma p_nullable_value {A} (p : jsstring -> option (A * jsstring))
    (s r : jsstring) (x : A) :
  p_lit (js "null") s = None -> p s = Some (x, r) ->
  p_nullable p s = Some (Some x, r).
Proof. intros Hn Hp. unfold p_nullable. by rewrite Hn, Hp. Qed.

Lemma p_opt_print (o : option jsstring) (r : jsstring) :
  p_opt (print_opt o ++ r) = Some (o, r).
Proof.
  destruct o as [x|]; unfold p_opt, print_opt.
  - apply p_nullable_value; [reflexivity | apply p_string_print].
  - apply p_nullable_null.
Qed.

(** What may follow a number: anything but a digit. *)
Definition ends_number (r : jsstring) : bool :=
  match r with
  | c :: _ => negb (is_digit c)
  | [] => true
  end.

Lemma p_digits_print (d : Decimal.uint) (r : jsstring) :
  ends_number r = true -> p_digits (digits d ++ r) = (d, r).
Proof.
  intros Hr. induction d as [|d IH|d IH|d IH|d IH|d IH|d IH|d IH|d IH|d IH|d IH];
    try (cbn [digits app p_digits]; change (is_digit _) with true; cbv iota;
         by rewrite IH).
  cbn [digits app]. destruct r as [|c r]; [done|].
  cbn [p_digits]. simpl in Hr. by destruct (is_digit c).
Qed.

Lemma p_natural_print (n : N) (r : jsstring) :
  ends_number r = true -> p_natural (digits (N.to_uint n) ++ r) = Some (n, r).
Proof.
  intros Hr. unfold p_natural. rewrite p_digits_print by done.
  rewrite DecimalN.Unsigned.of_to.
  destruct n as [|q]; [done|].
  pose proof (DecimalPos.Unsigned.to_uint_nonnil q) as Hnil.
  change (N.to_uint (N.pos q)) with (Pos.to_uint q).
  by destruct (Pos.to_uint q).
Qed.

(** A number starts with a digit or a minus sign. *)
Definition starts_number (s : jsstring) : bool :=
  match s with
  | c :: _ => is_digit c || (c =? 0x2D)
  | [] => false
  end.

Lemma digits_start (d : Decimal.uint) (r : jsstring) :
  d <> Decimal.Nil -> exists c t, digits d ++ r = c :: t /\ is_digit c = true.
Proof. destruct d; [done|..]; intros _; by eexists _, _. Qed.

Lemma print_number_start (z : Z) (r : jsstring) :
  exists c t, print_number z ++ r = c :: t /\ (is_digit c || (c =? 0x2D)) = true.
Proof.
  destruct z as [|q|q]; [by eexists _, _| |by eexists _, _].
  destruct (digits_start (Pos.to_uint q) r (DecimalPos.Unsigned.to_uint_nonnil q))
    as (c & t & Heq & Hc).
  exists c, t. split; [exact Heq|]. by rewrite Hc.
Qed.

Lemma p_number_print (z : Z) (r : jsstring) :
  ends_number r = true -> p_number (print_number z ++ r) = Some (z, r).
Proof.
  intros Hr. destruct z as [|q|q].
  - change (print_number 0 ++ r) with (digits (N.to_uint 0) ++ r).
    pose proof (p_natural_print 0 r Hr) as Hn. unfold p_number.
    change (digits (N.to_uint 0) ++ r) with (0x30 :: r) in *.
    change (0x30 =? 0x2D) with false. cbv iota. by rewrite Hn.
  - change (print_number (Z.pos q) ++ r) with (digits (N.to_uint (N.pos q)) ++ r).
    pose proof (p_natural_print (N.pos q) r Hr) as Hn.
    destruct (digits_start (Pos.to_uint q) r (DecimalPos.Unsigned.to_uint_nonnil q))
      as (c & t & Heq & Hc).
    change (N.to_uint (N.pos q)) with (Pos.to_uint q) in *.
    rewrite Heq in *. unfold p_number.
    assert ((c =? 0x2D) = false) as ->.
    { unfold is_digit in Hc. apply andb_true_iff in Hc as [H1 H2].
      apply N.leb_le in H1. apply N.eqb_neq. lia. }
    by rewrite Hn.
  - change (print_number (Z.neg q) ++ r) with (0x2D :: digits (N.to_uint (N.pos q)) ++ r).
    unfold p_number. change (0x2D =? 0x2D) with true. cbv iota.
    by rewrite p_natural_print.
Qed.

Lemma p_lit_null_number (z : Z) (r : jsstring) :
  p_lit (js "null") (print_number z ++ r) = None.
Proof.
  destruct (print_number_start z r) as (c & t & -> & Hc).
  unfold p_lit. cbn [starts_with js].
  assert ((0x6E =? c) = false) as Hne.
  { apply N.eqb_neq. intros <-. by vm_compute in Hc. }
  change (js "null") with (0x6E :: js "ull"). cbn [starts_with]. by rewrite Hne.
Qed.

Lemma p_opt_number_print (o : option Z) (r : jsstring) :
  ends_number r = true ->
  p_nullable p_number (print_opt_number o ++ r) = Some (o, r).
Proof.
  intros Hr. destruct o as [z|]; unfold print_opt_number.
  - apply p_nullable_value; [apply p_lit_null_number | by apply p_number_print].
  - apply p_nullable_null.
Qed.

Lemma p_date_print (d : DateValue) (r : jsstring) :
  p_date (print_date d ++ r) = Some (stored_date d, r).
Proof. unfold p_date. destruct d; simpl print_date; by rewrite p_string_print. Qed.

Lemma p_opt_date_print (o : option DateValue) (r : jsstring) :
  p_nullable p_date (print_opt_date o ++ r) = Some (option_map stored_date o, r).
Proof.
  destruct o as [d|]; unfold print_opt_date.
  - apply p_nullable_value; [by destruct d | apply p_date_print].
  - apply p_nullable_null.
Qed.

Section Lists.
Context {A : Type} (print : A -> jsstring) (p : jsstring -> option (A * jsstring))
  (g : A -> A).
Hypothesis p_print : forall x r, p (print x ++ r) = Some (g x, r).
Hypothesis print_brace : forall x, exists t, print x = 0x7B :: t.

Lemma print_items_length (xs : list A) (r : jsstring) :
  (length xs < length (print_items print xs ++ r))%nat.
Proof.
  induction xs as [|x xs IH]; simpl; [lia|]. rewrite !length_app in *. lia.
Qed.

Lemma p_items_print (xs : list A) (r : jsstring) (fuel : nat) :
  (length xs < fuel)%nat ->
  p_items p fuel (print_items print xs ++ r) = Some (g <$> xs, r).
Proof.
  revert fuel. induction xs as [|x xs IH]; intros [|fuel] Hf; simpl in Hf; try lia.
  - done.
  - cbn [print_items]. rewrite <- !(assoc_L (++)). cbn [app p_items].
    change (0x2C =? 0x5D) with false. change (0x2C =? 0x2C) with true. cbv iota.
    rewrite p_print. cbn [mbind option_bind].
    rewrite IH by lia. done.
Qed.

Lemma p_list_print (xs : list A) (r : jsstring) :
  p_list p (print_list print xs ++ r) = Some (g <$> xs, r).
Proof.
  destruct xs as [|x xs]; [done|].
  unfold print_list, p_list. rewrite <- !(assoc_L (++)). cbn [app].
  change (0x5B =? 0x5B) with true. cbv iota.
  destruct (print_brace x) as [t Ht].
  assert (p_lit [0x5D] (print x ++ print_items print xs ++ r) = None) as ->
    by (by rewrite Ht).
  rewrite p_print. cbn [mbind option_bind].
  rewrite p_items_print by apply print_items_length. done.
Qed.

Lemma p_opt_list_print (o : option (list A)) (r : jsstring) :
  p_nullable (p_list p) (print_opt_list print o ++ r)
  = Some (option_map (fmap g) o, r).
Proof.
  destruct o as [xs|]; unfold print_opt_list.
  - apply p_nullable_value; [by destruct xs | apply p_list_print].
  - apply p_nullable_null.
Qed.

End Lists.

Ltac read_back :=
  repeat rewrite <- (assoc_L (++));
  repeat (first [ rewrite (assoc_L (++) [0x7B] (key _)), p_lit_app
                | rewrite (assoc_L (++) [0x2C] (key _)), p_lit_app
                | rewrite p_string_print
                | rewrite p_opt_print
                | rewrite p_number_print by reflexivity
                | rewrite p_opt_number_print by reflexivity
                | rewrite p_date_print
                | rewrite p_opt_date_print
                | rewrite p_lit_app ]; cbn [mbind option_bind]).

Lemma p_highlight_print (h : BookHighlight.t) (r : jsstring) :
  p_highlight (print_highlight h ++ r) = Some (BookHighlight.stored h, r).
Proof.
  destruct h. unfold p_highlight, print_highlight, BookHighlight.stored.
  cbn [BookHighlight.id BookHighlight.text BookHighlight.position
       BookHighlight.chapter BookHighlight.createdAt BookHighlight.note].
  read_back. done.
Qed.

Lemma p_bookmark_print (m : BookBookmark.t) (r : jsstring) :
  p_bookmark (print_bookmark m ++ r) = Some (BookBookmark.stored m, r).
Proof.
  destruct m. unfold p_bookmark, print_bookmark, BookBookmark.stored.
  cbn [BookBookmark.id BookBookmark.position BookBookmark.chapter
       BookBookmark.createdAt BookBookmark.note].
  read_back. done.
Qed.

Lemma p_book_print (b : Book) (r : jsstring) :
  p_book (print_book b ++ r) = Some (stored b, r).
Proof.
  destruct b. unfold p_book, print_book, stored.
  cbn [id title author filePath fileType coverUrl lastRead lastPage totalPages
       chapterIndex highlights bookmarks].
  read_back.
  rewrite (p_opt_list_print print_highlight p_highlight BookHighlight.stored
             p_highlight_print) by (intros x; by eexists).
  cbn [mbind option_bind]. read_back.
  rewrite (p_opt_list_print print_bookmark p_bookmark BookBookmark.stored
             p_bookmark_print) by (intros x; by eexists).
  cbn [mbind option_bind]. read_back. done.
Qed.

Lemma parse_stringify (bs : list Book) :
  parse (stringify bs) = Some (Records (stored <$> bs)).
Proof.
  unfold parse, stringify.
  pose proof (p_list_print print_book p_book stored p_book_print
                (fun x => ex_intro _ _ eq_refl) bs []) as Hl.
  rewrite (right_id_L [] (++)) in Hl. by rewrite Hl.
Qed.

Lemma parse_empty : parse [] = None.
Proof. reflexivity. Qed.

(** What the parsers return holds no Date object. *)
Ltac read_steps H :=
  repeat (apply bind_Some in H as ([? ?] & ? & H); cbn beta iota in H).

Lemma p_date_stored (s : jsstring) (d : DateValue) (r : jsstring) :
  p_date s = Some (d, r) -> stored_date d = d.
Proof. unfold p_date. intros H. read_steps H. by injection H as <- _. Qed.

Lemma p_nullable_stored {A} (p : jsstring -> option (A * jsstring)) (g : A -> A)
    (s r : jsstring) (o : option A) :
  (forall s x r, p s = Some (x, r) -> g x = x) ->
  p_nullable p s = Some (o, r) -> option_map g o = o.
Proof.
  intros Hp. unfold p_nullable. destruct (p_lit _ s) as [[[] r']|].
  - by intros [= <- _].
  - intros H. read_steps H. injection H as <- _. simpl. f_equal. by eapply Hp.
Qed.

Lemma p_items_stored {A} (p : jsstring -> option (A * jsstring)) (g : A -> A)
    (fuel : nat) (s r : jsstring) (xs : list A) :
  (forall s x r, p s = Some (x, r) -> g x = x) ->
  p_items p fuel s = Some (xs, r) -> g <$> xs = xs.
Proof.
  intros Hp. revert s r xs. induction fuel as [|fuel IH]; intros s r xs; [done|].
  cbn [p_items]. destruct s as [|c s]; [done|].
  destruct (c =? 0x5D); [by intros [= <- _]|].
  destruct (c =? 0x2C); [|done].
  intros H. read_steps H. injection H as <- _.
  rewrite fmap_cons. f_equal; [by eapply Hp | by eapply IH].
Qed.

Lemma p_list_stored {A} (p : jsstring -> option (A * jsstring)) (g : A -> A)
    (s r : jsstring) (xs : list A) :
  (forall s x r, p s = Some (x, r) -> g x = x) ->
  p_list p s = Some (xs, r) -> g <$> xs = xs.
Proof.
  intros Hp. unfold p_list. destruct s as [|c s]; [done|].
  destruct (c =? 0x5B); [|done].
  destruct (p_lit _ s) as [[[] r']|]; [by intros [= <- _]|].
  intros H. read_steps H. injection H as <- _.
  rewrite fmap_cons. f_equal; [by eapply Hp | by eapply p_items_stored].
Qed.

Lemma p_highlight_stored (s : jsstring) (h : BookHighlight.t) (r : jsstring) :
  p_highlight s = Some (h, r) -> BookHighlight.stored h = h.
Proof.
  unfold p_highlight. intros H. read_steps H. injection H as <- _.
  unfold BookHighlight.stored. simpl. f_equal. by eapply p_date_stored.
Qed.

Lemma p_bookmark_stored (s : jsstring) (m : BookBookmark.t) (r : jsstring) :
  p_bookmark s = Some (m, r) -> BookBookmark.stored m = m.
Proof.
  unfold p_bookmark. intros H. read_steps H. injection H as <- _.
  unfold BookBookmark.stored. simpl. f_equal. by eapply p_date_stored.
Qed.

Lemma p_book_stored (s : jsstring) (b : Book) (r : jsstring) :
  p_book s = Some (b, r) -> stored b = b.
Proof.
  unfold p_book. intros H. read_steps H. injection H as <- _.
  unfold stored. simpl. f_equal.
  - eapply (p_nullable_stored p_date); [apply p_date_stored | eassumption].
  - eapply (p_nullable_stored (p_list p_highlight) (fmap BookHighlight.stored));
      [|eassumption].
    intros ? ? ?. apply p_list_stored, p_highlight_stored.
  - eapply (p_nullable_stored (p_list p_bookmark) (fmap BookBookmark.stored));
      [|eassumption].
    intros ? ? ?. apply p_list_stored, p_bookmark_stored.
Qed.

Lemma parse_stored (text : jsstring) (books : list Book) :
  parse text = Some (Records books) -> stored <$> books = books.
Proof.
  unfold parse.
  destruct (p_list p_book text) as [[bs [|c r]]|] eqn:Hl.
  - intros [= <-]. by eapply p_list_stored, Hl; apply p_book_stored.
  - by destruct (p_other text).
  - by destruct (p_other text).
Qed.

End RefHostFacts.

(** The reference host, for a choice of operating system and of refused
    calls. *)
Definition ref_host (ios : bool) (refused : IoCall -> bool) : Platform :=
  {| OS_is_ios := ios;
     documentDirectory := RefHost.DOCUMENT_DIRECTORY;
     toUpperCase := RefHost.ascii_upper;
     toLowerCase := RefHost.ascii_lower;
     JSON_stringify := RefHost.stringify;
     JSON_parse := RefHost.parse;
     utf8_decode := utf8_to_utf16;
     utf8_encode := RefHost.utf16_to_utf8;
     base64_encode := RefHost.base64;
     Buffer_base64_to_utf8 := RefHost.buffer_base64_to_utf8;
     rejects := refused;
     JSON_parse_stringify := RefHostFacts.parse_stringify;
     JSON_parse_empty := RefHostFacts.parse_empty;
     JSON_parse_stored := RefHostFacts.parse_stored |}.

Module RegexFacts.
Import Regex.

Lemma accept_matches (r : regex) :
  forall (s : list N) (k : list N -> bool),
    accept r s k = true <->
    exists u v, s = u ++ v /\ matches r u /\ k v = true.
Proof.
  induction r as [|c| |cs|r1 IH1 r2 IH2|r1 IH1 r2 IH2]; intros s k; simpl.
  - split.
    + intros Hk. exists [], s. repeat split; [constructor | done].
    + intros (u & v & -> & Hm & Hk). inversion Hm; subst. done.
  - destruct s as [|x s'].
    + split; [done|]. intros (u & v & Hs & Hm & _). inversion Hm; subst. done.
    + rewrite andb_true_iff. split.
      * intros [Hc Hk]. exists [x], s'. repeat split; [by constructor | done].
      * intros (u & v & Hs & Hm & Hk). inversion Hm; subst.
        simpl in Hs. by injection Hs as -> ->.
  - destruct s as [|x s'].
    + split; [done|]. intros (u & v & Hs & Hm & _). inversion Hm; subst. done.
    + rewrite andb_true_iff, negb_true_iff. split.
      * intros [Hc Hk]. exists [x], s'. repeat split; [by constructor | done].
      * intros (u & v & Hs & Hm & Hk). inversion Hm; subst.
        simpl in Hs. by injection Hs as -> ->.
  - destruct s as [|x s'].
    + split; [done|]. intros (u & v & Hs & Hm & _). inversion Hm; subst. done.
    + rewrite andb_true_iff, existsb_exists. split.
      * intros [(c & Hin & Hc) Hk]. exists [x], s'.
        repeat split; [by econstructor | done].
      * intros (u & v & Hs & Hm & Hk). inversion Hm; subst.
        simpl in Hs. injection Hs as -> ->. eauto.
  - rewrite IH1. split.
    + intros (u & v & -> & Hu & Hv). apply IH2 in Hv as (u' & v' & -> & Hu' & Hk).
      exists (u ++ u'), v'. rewrite <- (assoc_L (++)). repeat split; [by constructor | done].
    + intros (u & v & -> & Hm & Hk). inversion Hm; subst.
      eexists _, _. rewrite <- (assoc_L (++)). repeat split; [done|].
      apply IH2. eauto.
  - rewrite orb_true_iff, IH1, IH2. split.
    + intros [(u & v & -> & Hm & Hk)|(u & v & -> & Hm & Hk)];
        exists u, v; (split; [done|]); (split; [|done]);
        [by apply m_alt_l | by apply m_alt_r].
    + intros (u & v & -> & Hm & Hk). inversion Hm; subst; eauto 10.
Qed.

Lemma test_matches (r : regex) (s : list N) :
  test r s = true <-> exists pre u post, s = pre ++ u ++ post /\ matches r u.
Proof.
  induction s as [|x s IH]; simpl; rewrite orb_true_iff, accept_matches.
  - split.
    + intros [(u & v & Hs & Hm & _)|?]; [|done]. exists [], u, v. eauto.
    + intros (pre & u & post & Hs & Hm). left.
      destruct pre; [|done]. exists u, post. eauto.
  - rewrite IH. split.
    + intros [(u & v & Hs & Hm & _)|(pre & u & post & -> & Hm)].
      * exists [], u, v. eauto.
      * exists (x :: pre), u, post. eauto.
    + intros (pre & u & post & Hs & Hm). destruct pre as [|y pre].
      * left. exists u, post. eauto.
      * right. simpl in Hs. injection Hs as -> ->. eauto.
Qed.


Lemma matches_eps_inv (w : list N) : matches Eps w <-> w = [].
Proof. split; [by inversion 1 | intros ->; constructor]. Qed.

Lemma matches_dot_inv (w : list N) :
  matches Dot w <-> exists x, w = [x] /\ is_line_terminator x = false.
Proof.
  split; [inversion 1; eauto | intros (x & -> & Hx); by constructor].
Qed.

Lemma matches_lit_inv (c : N) (w : list N) :
  matches (Lit c) w <-> exists x, w = [x] /\ canonicalize x = canonicalize c.
Proof.
  unfold lit_matches. split.
  - inversion 1 as [|c' x Hx| | | | |]; subst. apply N.eqb_eq in Hx. eauto.
  - intros (x & -> & Hx). constructor. by apply N.eqb_eq.
Qed.

Lemma matches_class_inv (cs w : list N) :
  matches (Class cs) w <->
  exists x c, w = [x] /\ In c cs /\ canonicalize x = canonicalize c.
Proof.
  split.
  - inversion 1 as [| | |cs' x c Hin Hx| | |]; subst.
    apply N.eqb_eq in Hx. eauto.
  - intros (x & c & -> & Hin & Hx). econstructor; [done|]. by apply N.eqb_eq.
Qed.

Lemma matches_seq_inv (r1 r2 : regex) (w : list N) :
  matches (Seq r1 r2) w <->
  exists u v, w = u ++ v /\ matches r1 u /\ matches r2 v.
Proof.
  split; [inversion 1; eauto | intros (u & v & -> & ? & ?); by constructor].
Qed.

Lemma matches_alt_inv (r1 r2 : regex) (w : list N) :
  matches (Alt r1 r2) w <-> matches r1 w \/ matches r2 w.
Proof.
  split; [inversion 1; eauto | intros [?|?]; [by apply m_alt_l | by apply m_alt_r]].
Qed.

Lemma matches_word (w u : list N) : matches (word w) u <-> eq_ci w u.
Proof.
  unfold eq_ci. revert u. induction w as [|c w IH]; intros u; simpl.
  - rewrite matches_eps_inv. split; [by intros -> | by destruct u].
  - rewrite matches_seq_inv. split.
    + intros (a & b & -> & Ha & Hb). apply matches_lit_inv in Ha as (x & -> & Hx).
      apply IH in Hb. simpl. by rewrite Hx, Hb.
    + destruct u as [|x u]; [done|]. simpl. intros [= Hx Hu].
      exists [x], u. split; [done|]. split; [|by apply IH].
      apply matches_lit_inv. eauto.
Qed.

Lemma matches_times_dot (n : nat) (u : list N) :
  matches (times n Dot) u <-> length u = n /\ no_terminator u.
Proof.
  unfold no_terminator. revert u. induction n as [|n IH]; intros u; simpl.
  - rewrite matches_eps_inv. split; [by intros -> |]. intros [Hl _]. by destruct u.
  - rewrite matches_seq_inv. split.
    + intros (a & b & -> & Ha & Hb). apply matches_dot_inv in Ha as (x & -> & Hx).
      apply IH in Hb as [<- Hb]. split; [done | by constructor].
    + destruct u as [|x u]; intros [Hl Hu]; [done|].
      inversion Hu; subst. exists [x], u. split; [done|]. split.
      * apply matches_dot_inv. eauto.
      * apply IH. split; [by injection Hl | done].
Qed.

Lemma matches_upto_dot (n : nat) (u : list N) :
  matches (upto n Dot) u <-> (length u <= n)%nat /\ no_terminator u.
Proof.
  unfold no_terminator. revert u. induction n as [|n IH]; intros u; simpl.
  - rewrite matches_eps_inv. split; [intros ->; by split |].
    intros [Hl _]. destruct u; [done | simpl in Hl; lia].
  - rewrite matches_alt_inv, matches_seq_inv, matches_eps_inv. split.
    + intros [(a & b & -> & Ha & Hb)| ->].
      * apply matches_dot_inv in Ha as (x & -> & Hx).
        apply IH in Hb as [Hl Hb]. split; [simpl; lia | by constructor].
      * split; [simpl; lia | constructor].
    + destruct u as [|x u]; intros [Hl Hu]; [by right|]. left.
      inversion Hu; subst. exists [x], u. split; [done|]. split.
      * apply matches_dot_inv. eauto.
      * apply IH. split; [simpl in Hl; lia | done].
Qed.

Lemma matches_quant_dot (lo hi : nat) (u : list N) :
  (lo <= hi)%nat ->
  matches (quant lo hi Dot) u <-> (lo <= length u <= hi)%nat /\ no_terminator u.
Proof.
  intros Hle. unfold quant, no_terminator. rewrite matches_seq_inv. split.
  - intros (a & b & -> & Ha & Hb).
    apply matches_times_dot in Ha as [Hla Ha].
    apply matches_upto_dot in Hb as [Hlb Hb].
    rewrite length_app. split; [lia | by apply Forall_app].
  - intros [Hl Hu]. exists (take lo u), (drop lo u).
    split; [by rewrite take_drop|].
    rewrite <- (take_drop lo u) in Hu. apply Forall_app in Hu as [Ha Hb]. split.
    + apply matches_times_dot. split; [rewrite length_take; lia | done].
    + apply matches_upto_dot. split; [rewrite length_drop; lia | done].
Qed.

(** A code unit outside [a]-[z] and [A]-[Z] is matched by itself only. *)
Lemma canonicalize_caseless (c x : N) :
  c < 0x41 \/ 0x7A < c ->
  canonicalize x = canonicalize c <-> x = c.
Proof.
  intros Hc. unfold canonicalize.
  destruct ((0x61 <=? x) && (x <=? 0x7A)) eqn:Hx;
    destruct ((0x61 <=? c) && (c <=? 0x7A)) eqn:Hcc;
    rewrite ?andb_true_iff, ?andb_false_iff, ?N.leb_le, ?N.leb_gt in *; lia.
Qed.

End RegexFacts.

Module ReaderFacts.
Import Regex RegexFacts Reader.

Lemma matches_CHAPTER_PATTERN (u : jsstring) :
  matches CHAPTER_PATTERN u <-> chapter_marker u.
Proof.
  unfold CHAPTER_PATTERN, chapter_marker.
  rewrite !matches_alt_inv, !matches_word.
  apply or_iff_compat_r.
  rewrite matches_seq_inv. split.
  - intros (a & b & -> & Ha & Hb).
    apply matches_lit_inv in Ha as (x & -> & Hx).
    apply canonicalize_caseless in Hx as ->; [|lia].
    apply matches_seq_inv in Hb as (mid & e & -> & Hmid & He).
    apply matches_quant_dot in Hmid as [Hl Hmid]; [|lia].
    apply matches_class_inv in He as (y & c & -> & Hin & Hy).
    exists mid, y. repeat split; try done; try lia.
    assert (y = c) as ->; [|done].
    apply canonicalize_caseless; [|done].
    simpl in Hin. destruct Hin as [<-|[<-|[<-|[<-|[]]]]]; lia.
  - intros (mid & c & -> & Hl & Hmid & Hin).
    exists [0x7B2C], (mid ++ [c]). split; [done|]. split.
    + apply matches_lit_inv. eauto.
    + apply matches_seq_inv. exists mid, [c]. split; [done|]. split.
      * apply matches_quant_dot; [lia | done].
      * apply matches_class_inv. eauto.
Qed.

Lemma test_CHAPTER_PATTERN (line : jsstring) :
  test CHAPTER_PATTERN line = true <-> has_chapter_marker line.
Proof.
  rewrite test_matches. unfold has_chapter_marker.
  split; intros (pre & u & post & -> & Hu); exists pre, u, post;
    (split; [done|]); by apply matches_CHAPTER_PATTERN.
Qed.

Section WithPlatform.
Context `{Platform}.

Lemma is_heading_spec (raw : jsstring) :
  is_heading (trim raw) = true <-> heading_spec raw.
Proof.
  unfold is_heading, heading_spec. simpl.
  rewrite !andb_true_iff, orb_true_iff, !Nat.ltb_lt, bool_decide_eq_true.
  rewrite test_CHAPTER_PATTERN. split.
  - intros [[? ?] [?|?]]; (split; [lia|]); auto.
  - intros [[? ?] [?|?]]; (split; [split; lia|]); auto.
Qed.

Lemma detect_from_elem (i : nat) (lines : list jsstring) (c : Chapter) :
  c ∈ detect_from i lines <->
  exists j raw,
    lines !! j = Some raw /\ c = mkChapter (trim raw) (i + j)
    /\ is_heading (trim raw) = true.
Proof.
  revert i. induction lines as [|raw lines IH]; intros i; simpl.
  - split; [by intros ?%elem_of_nil | by intros (j & r & ? & _)].
  - destruct (is_heading (trim raw)) eqn:Hh.
    + rewrite elem_of_cons, IH. split.
      * intros [->|(j & r & Hj & -> & Hr)].
        -- exists 0%nat, raw. by rewrite Nat.add_0_r.
        -- exists (S j), r. by rewrite Nat.add_succ_r.
      * intros (j & r & Hj & -> & Hr). destruct j as [|j]; simpl in Hj.
        -- injection Hj as ->. left. by rewrite Nat.add_0_r.
        -- right. exists j, r. by rewrite Nat.add_succ_r.
    + rewrite IH. split.
      * intros (j & r & Hj & -> & Hr). exists (S j), r. by rewrite Nat.add_succ_r.
      * intros (j & r & Hj & -> & Hr). destruct j as [|j]; simpl in Hj.
        -- injection Hj as ->. congruence.
        -- exists j, r. by rewrite Nat.add_succ_r.
Qed.

Lemma detect_from_sorted (i : nat) (lines : list jsstring) :
  Forall (fun c => (i <= position c)%nat) (detect_from i lines)
  /\ StronglySorted (fun a b => (position a < position b)%nat) (detect_from i lines).
Proof.
  revert i. induction lines as [|raw lines IH]; intros i; simpl.
  - split; constructor.
  - destruct (IH (S i)) as [Hlb Hs].
    assert (Forall (fun c => (i <= position c)%nat) (detect_from (S i) lines)) as Hlb'.
    { eapply Forall_impl; [done|]. simpl. lia. }
    destruct (is_heading (trim raw)); [|done]. split.
    + constructor; [simpl; lia | done].
    + constructor; [done|]. eapply Forall_impl; [exact Hlb|]. simpl. lia.
Qed.

End WithPlatform.
End ReaderFacts.

Module ReaderClaims.
Import Regex RegexFacts Reader ReaderFacts.

Section WithPlatform.
Context `{Platform}.

Lemma is_heading_by_marker (line : jsstring) :
  (0 < length line < 30)%nat ->
  test CHAPTER_PATTERN line = true ->
  is_heading line = true.
Proof.
  intros [H0 H30] Ht. unfold is_heading.
  rewrite Ht, orb_true_r, andb_true_r, andb_true_iff, !Nat.ltb_lt. done.
Qed.

Lemma is_heading_long (line : jsstring) :
  (30 <= length line)%nat -> is_heading line = false.
Proof.
  intros Hl. unfold is_heading.
  assert ((length line <? 30)%nat = false) as -> by by apply Nat.ltb_ge.
  done.
Qed.

Lemma detectedChapters_example :
  detectedChapters EXAMPLE_TEXT
  = [ mkChapter (js "CHAPTER ONE") 0; mkChapter (js "第一章 开始") 2 ].
Proof.
  unfold detectedChapters.
  assert (split 0x0A EXAMPLE_TEXT
          = [ js "CHAPTER ONE";
              js "Some body text that is long enough to not qualify as a heading line here";
              js "第一章 开始" ]) as -> by (vm_compute; reflexivity).
  cbn [detect_from].
  assert (trim (js "CHAPTER ONE") = js "CHAPTER ONE") as -> by (vm_compute; reflexivity).
  assert (trim (js "第一章 开始") = js "第一章 开始") as -> by (vm_compute; reflexivity).
  rewrite (is_heading_by_marker (js "CHAPTER ONE"));
    [|vm_compute; lia | vm_compute; reflexivity].
  rewrite is_heading_long; [|vm_compute; lia].
  rewrite (is_heading_by_marker (js "第一章 开始"));
    [|vm_compute; lia | vm_compute; reflexivity].
  reflexivity.
Qed.

(** C3.  A line is detected as a chapter heading exactly when its trimmed
    text has more than 0 and fewer than 30 code units and either equals its
    upper-cased form or contains a chapter marker (第, one to three code
    units, then 章/节/卷/篇; or chapter, section or part in any letter case).
    The detected headings are the qualifying lines with their zero-based line
    index, in line order; on the example text they are lines 0 and 2. *)
Theorem chapter_heading_detection :
  (forall raw : jsstring, is_heading (trim raw) = true <-> heading_spec raw)
  /\ (forall (lines : list jsstring) (c : Chapter),
         c ∈ detect_from 0 lines <->
         exists i raw,
           lines !! i = Some raw /\ heading_spec raw
           /\ c = mkChapter (trim raw) i)
  /\ (forall lines : list jsstring,
         StronglySorted (fun a b => (position a < position b)%nat)
                        (detect_from 0 lines))
  /\ detectedChapters EXAMPLE_TEXT
     = [ mkChapter (js "CHAPTER ONE") 0; mkChapter (js "第一章 开始") 2 ].
Proof.
  split; [exact is_heading_spec|]. split; [|split].
  - intros lines c. rewrite detect_from_elem.
    split; intros (i & raw & Hi & H1 & H2); exists i, raw.
    + apply is_heading_spec in H2. by subst.
    + apply is_heading_spec in H1. by subst.
  - intros lines. apply detect_from_sorted.
  - exact detectedChapters_example.
Qed.

End WithPlatform.
End ReaderClaims.

(** ** Running computations *)

Module MonadFacts.

Lemma bind_inv {A B} (m : M A) (k : A -> M B) (w w' : World) (r : Result B) :
  bind m k w = (r, w') ->
  (exists a w1, m w = (Ok a, w1) /\ k a w1 = (r, w'))
  \/ (exists e, m w = (Err e, w') /\ r = Err e).
Proof.
  unfold bind. destruct (m w) as [[a|e] w1]; intros Hr.
  - left. eauto.
  - right. injection Hr as <- <-. eauto.
Qed.

Lemma try_catch_inv {A} (m : M A) (h : Error -> M A) (w w' : World) (r : Result A) :
  try_catch m h w = (r, w') ->
  (exists a, m w = (Ok a, w') /\ r = Ok a)
  \/ (exists e w1, m w = (Err e, w1) /\ h e w1 = (r, w')).
Proof.
  unfold try_catch. destruct (m w) as [[a|e] w1]; intros Hr.
  - left. injection Hr as <- <-. eauto.
  - right. eauto.
Qed.

(** [try { m } catch (error) { throw error }] is [m]. *)
Lemma try_rethrow {A} (m : M A) (w : World) :
  try_catch m (fun error => throw error) w = m w.
Proof. unfold try_catch, throw. by destruct (m w) as [[a|e] w1]. Qed.

Section Frame.
Context (R : relation World) `{!PreOrder R}.

Lemma frame_ret {A} (a : A) : frame R (ret a).
Proof. intros w r w' [= <- <-]. reflexivity. Qed.

Lemma frame_throw {A} (e : Error) : frame R (@throw A e).
Proof. intros w r w' [= <- <-]. reflexivity. Qed.

Lemma frame_bind {A B} (m : M A) (k : A -> M B) :
  frame R m -> (forall a, frame R (k a)) -> frame R (bind m k).
Proof.
  intros Hm Hk w r w' [(a & w1 & H1 & H2)|(e & H1 & _)]%bind_inv.
  - transitivity w1; [by eapply Hm | by eapply Hk].
  - by eapply Hm.
Qed.

Lemma frame_try_catch {A} (m : M A) (h : Error -> M A) :
  frame R m -> (forall e, frame R (h e)) -> frame R (try_catch m h).
Proof.
  intros Hm Hh w r w' [(a & H1 & _)|(e & w1 & H1 & H2)]%try_catch_inv.
  - by eapply Hm.
  - transitivity w1; [by eapply Hm | by eapply Hh].
Qed.

Lemma frame_if {A} (b : bool) (m1 m2 : M A) :
  frame R m1 -> frame R m2 -> frame R (if b then m1 else m2).
Proof. by destruct b. Qed.

Lemma frame_call `{Platform} {A} (c : IoCall) (act : World -> option (A * World)) :
  (forall w, R w (record_call c w)) ->
  (forall w a w', act w = Some (a, w') -> R w w') ->
  frame R (Host.call c act).
Proof.
  intros Hrec Hact w r w'. unfold Host.call.
  destruct (rejects c); [intros [= <- <-]; apply Hrec|].
  destruct (act (record_call c w)) as [[a w2]|] eqn:Ha; intros [= <- <-].
  - transitivity (record_call c w); [apply Hrec | by eapply Hact].
  - apply Hrec.
Qed.

End Frame.

#[export] Instance same_storage_preorder : PreOrder same_storage.
Proof.
  split; [by intros w|]. intros a b c Hab Hbc. unfold same_storage in *. congruence.
Qed.

#[export] Instance same_files_preorder : PreOrder same_files.
Proof.
  split; [by intros w|]. intros a b c Hab Hbc. unfold same_files in *. congruence.
Qed.

#[export] Instance same_state_preorder : PreOrder same_state.
Proof.
  split; [by intros w|]. intros a b c (?&?&?) (?&?&?).
  unfold same_state. repeat split; congruence.
Qed.

End MonadFacts.

Module BookStorageFacts.
Import MonadFacts BookStorage.

Create HintDb frame discriminated.

(** Walks a computation down to its platform calls. *)
Ltac frame_steps :=
  repeat first
    [ match goal with |- forall _, _ => intro end
    | apply frame_ret; apply _
    | apply frame_throw; apply _
    | apply frame_bind; [apply _| |]
    | apply frame_try_catch; [apply _| |]
    | apply frame_if
    | solve [auto with frame] ].

Section WithPlatform.
Context `{Platform}.

Lemma call_same_storage {A} (c : IoCall) (act : World -> option (A * World)) :
  (forall w a w', act w = Some (a, w') -> storage w' = storage w) ->
  frame same_storage (Host.call c act).
Proof.
  intros Hact. apply frame_call; [apply _| |exact Hact]. by intros w.
Qed.

Lemma getItem_frame key : frame same_storage (Host.getItem key).
Proof. apply call_same_storage. by intros w a w' [= _ <-]. Qed.

Lemma getInfoAsync_frame uri : frame same_storage (Host.getInfoAsync uri).
Proof. apply call_same_storage. by intros w a w' [= _ <-]. Qed.

Lemma makeDirectoryAsync_frame uri : frame same_storage (Host.makeDirectoryAsync uri).
Proof.
  apply call_same_storage. intros w a w' Ha.
  destruct (files w !! uri) as [[]|]; by simplify_eq.
Qed.

Lemma readAsStringAsync_frame uri enc range :
  frame same_storage (Host.readAsStringAsync uri enc range).
Proof.
  apply call_same_storage. intros w a w' Ha.
  destruct (files w !! uri) as [[|data]|]; [done| |done].
  destruct enc; [|by simplify_eq].
  destruct (utf8_decode data); by simplify_eq/=.
Qed.

Lemma writeAsStringAsync_frame uri content :
  frame same_storage (Host.writeAsStringAsync uri content).
Proof.
  apply call_same_storage. intros w a w' Ha.
  destruct (files w !! uri) as [[]|]; by simplify_eq.
Qed.

Lemma copyAsync_frame from to : frame same_storage (Host.copyAsync from to).
Proof.
  apply call_same_storage. intros w a w' Ha.
  destruct (files w !! from); by simplify_eq/=.
Qed.

Lemma deleteAsync_frame uri : frame same_storage (Host.deleteAsync uri).
Proof.
  apply call_same_storage. intros w a w' Ha.
  destruct (files w !! uri); by simplify_eq/=.
Qed.

Lemma cache_put_frame key value : frame same_storage (cache_put key value).
Proof. by intros w r w' [= <- <-]. Qed.

End WithPlatform.

#[export] Hint Resolve cache_put_frame getItem_frame getInfoAsync_frame
  makeDirectoryAsync_frame readAsStringAsync_frame writeAsStringAsync_frame
  copyAsync_frame deleteAsync_frame : frame.

Section WithPlatform.
Context `{Platform}.

Lemma initialize_frame : frame same_storage initialize.
Proof. unfold initialize. frame_steps. Qed.

Lemma isFileReadable_frame p : frame same_storage (isFileReadable p).
Proof. unfold isFileReadable. frame_steps. Qed.

End WithPlatform.

#[export] Hint Resolve initialize_frame isFileReadable_frame : frame.

Section WithPlatform.
Context `{Platform}.

Lemma materialize_frame book fileUri : frame same_storage (materialize book fileUri).
Proof. unfold materialize. frame_steps. Qed.

Lemma try_catch_total {A} (m : M A) (a0 : A) (w : World) :
  exists a w', try_catch m (fun _ => ret a0) w = (Ok a, w').
Proof. unfold try_catch, ret. destruct (m w) as [[a|e] w1]; eauto. Qed.

(** getAllBooks always returns, and a value that depends on the store
    alone. *)
Lemma getAllBooks_returns (w : World) :
  exists parsed,
    getAllBooks w = (Ok parsed, record_call (GetItem BOOKS_STORAGE_KEY) w).
Proof.
  unfold getAllBooks, try_catch, bind, Host.getItem, Host.call, ret, throw.
  destruct (rejects _); [eauto|]. simpl.
  destruct (truthy _); [|eauto]. destruct (JSON_parse _); eauto.
Qed.

Lemma getAllBooks_rejected (w : World) :
  rejects (GetItem BOOKS_STORAGE_KEY) = true -> fst (getAllBooks w) = Ok (Records []).
Proof.
  intros Hr. unfold getAllBooks, try_catch, bind, Host.getItem, Host.call.
  by rewrite Hr.
Qed.

Lemma getAllBooks_accepted (w : World) :
  rejects (GetItem BOOKS_STORAGE_KEY) = false ->
  fst (getAllBooks w)
  = Ok (match storage w !! BOOKS_STORAGE_KEY with
        | Some text => default (Records []) (JSON_parse text)
        | None => Records []
        end).
Proof.
  intros Hr. unfold getAllBooks, try_catch, bind, Host.getItem, Host.call.
  rewrite Hr. simpl. destruct (storage w !! BOOKS_STORAGE_KEY) as [[|c s]|]; simpl.
  - by rewrite JSON_parse_empty.
  - by destruct (JSON_parse (c :: s)).
  - done.
Qed.

Lemma getAllBooks_same_storage (w w' : World) :
  storage w' = storage w -> fst (getAllBooks w') = fst (getAllBooks w).
Proof.
  intros Hs. destruct (rejects (GetItem BOOKS_STORAGE_KEY)) eqn:Hr.
  - by rewrite !getAllBooks_rejected.
  - by rewrite !getAllBooks_accepted, Hs.
Qed.

Lemma getBooks_run (w : World) :
  getBooks w = (Ok (catalog w), record_call (GetItem BOOKS_STORAGE_KEY) w).
Proof.
  unfold getBooks, catalog, bind.
  by destruct (getAllBooks_returns w) as [parsed ->].
Qed.

Lemma catalog_rejected (w : World) :
  rejects (GetItem BOOKS_STORAGE_KEY) = true -> catalog w = [].
Proof. intros Hr. unfold catalog. by rewrite getAllBooks_rejected. Qed.

Lemma catalog_accepted (w : World) :
  rejects (GetItem BOOKS_STORAGE_KEY) = false ->
  catalog w = match storage w !! BOOKS_STORAGE_KEY with
              | Some text => books_of (default (Records []) (JSON_parse text))
              | None => []
              end.
Proof.
  intros Hr. unfold catalog. rewrite getAllBooks_accepted by done.
  by destruct (storage w !! BOOKS_STORAGE_KEY).
Qed.

Lemma catalog_same_storage (w w' : World) :
  storage w' = storage w -> catalog w' = catalog w.
Proof. intros Hs. unfold catalog. by rewrite (getAllBooks_same_storage w w'). Qed.

(** The records of the catalog are as [JSON.parse] made them: none holds a
    Date object. *)
Lemma catalog_stored (w : World) : stored <$> catalog w = catalog w.
Proof.
  destruct (rejects (GetItem BOOKS_STORAGE_KEY)) eqn:Hr.
  - by rewrite catalog_rejected.
  - rewrite catalog_accepted by done.
    destruct (storage w !! BOOKS_STORAGE_KEY) as [text|]; [|done].
    destruct (JSON_parse text) as [[books|v]|] eqn:Hp; [|done..].
    simpl. by eapply JSON_parse_stored.
Qed.

Lemma stored_idemp (book : Book) : stored (stored book) = stored book.
Proof.
  destruct book as [? ? ? ? ? ? lr ? ? ? hs bs]. unfold stored. simpl. f_equal.
  - by destruct lr as [[]|].
  - destruct hs as [hs|]; [|done]. simpl. f_equal.
    rewrite <- list_fmap_compose. apply list_fmap_ext.
    intros i [? ? ? ? []] _; done.
  - destruct bs as [bs|]; [|done]. simpl. f_equal.
    rewrite <- list_fmap_compose. apply list_fmap_ext.
    intros i [? ? ? []] _; done.
Qed.

Lemma saveBooks_run (books : list Book) (w : World) :
  let c := SetItem BOOKS_STORAGE_KEY (JSON_stringify books) in
  saveBooks books w
  = if rejects c then (Err (PlatformError c), record_call c w)
    else (Ok tt, set_storage (<[BOOKS_STORAGE_KEY := JSON_stringify books]> (storage w))
                             (record_call c w)).
Proof.
  simpl. unfold saveBooks. rewrite (try_rethrow (A := unit)). unfold Host.setItem, Host.call.
  by destruct (rejects _).
Qed.

Lemma catalog_saved (books : list Book) (w : World) :
  storage w !! BOOKS_STORAGE_KEY = Some (JSON_stringify books) ->
  catalog w = if rejects (GetItem BOOKS_STORAGE_KEY) then [] else stored <$> books.
Proof.
  intros Hs. destruct (rejects _) eqn:Hr.
  - by apply catalog_rejected.
  - by rewrite catalog_accepted, Hs, JSON_parse_stringify.
Qed.

Lemma stored_ids (books : list Book) : id <$> (stored <$> books) = id <$> books.
Proof. rewrite <- list_fmap_compose. by apply list_fmap_ext. Qed.

Lemma stored_fixed (books : list Book) :
  stored <$> books = books <-> forall b, b ∈ books -> stored b = b.
Proof.
  induction books as [|x books IH]; [by split; [intros _ b ?%elem_of_nil|]|].
  rewrite fmap_cons. split.
  - intros [= Hx Hrest] b [->|Hb]%elem_of_cons; [done|]. by apply IH.
  - intros Hall. f_equal; [apply Hall; by left|]. apply IH. intros b Hb.
    apply Hall. by right.
Qed.

Lemma catalog_fixed (w : World) (b : Book) : b ∈ catalog w -> stored b = b.
Proof. apply stored_fixed, catalog_stored. Qed.

(** What is read back after the catalog has been saved with a record put
    at its end, with one of its records overwritten, or with some of its
    records left out. *)
Lemma stored_catalog_app (w : World) (b : Book) :
  stored <$> (catalog w ++ [b]) = catalog w ++ [stored b].
Proof. by rewrite fmap_app, catalog_stored. Qed.

Lemma stored_catalog_insert (w : World) (index : nat) (b : Book) :
  stored <$> <[index := b]> (catalog w) = <[index := stored b]> (catalog w).
Proof. by rewrite list_fmap_insert, catalog_stored. Qed.

Lemma stored_catalog_filter (w : World) (P : Book -> Prop) `{!forall b, Decision (P b)} :
  stored <$> filter P (catalog w) = filter P (catalog w).
Proof.
  apply stored_fixed. intros b [_ Hb]%list_elem_of_filter. by eapply catalog_fixed.
Qed.

Lemma saveBooks_frame_err (books : list Book) (w w' : World) (e : Error) :
  saveBooks books w = (Err e, w') -> storage w' = storage w.
Proof.
  rewrite saveBooks_run. simpl. destruct (rejects _); [|done]. by intros [= _ <-].
Qed.

Lemma isFileReadable_total (p : jsstring) (w : World) :
  exists b w', isFileReadable p w = (Ok b, w').
Proof. apply try_catch_total. Qed.

Lemma materialize_path book fileUri w p w1 :
  materialize book fileUri w = (Ok p, w1) -> p = localFilePathOf book fileUri.
Proof.
  unfold materialize.
  intros [(? & w2 & _ & Hk)|(e & _ & [=])]%bind_inv.
  apply bind_inv in Hk as [(? & w3 & _ & Hk)|(e & _ & [=])].
  by injection Hk as <- _.
Qed.

(** What [addBook] can do to the store: nothing when it throws, and on
    return the catalog it read with the new record at the end. *)
Lemma addBook_cases book fileUri w r w' :
  addBook book fileUri w = (r, w') ->
  let updatedBook := with_filePath book (localFilePathOf book fileUri) in
  (storage w' = storage w /\ exists e, r = Err e)
  \/ (r = Ok updatedBook
      /\ storage w' = <[BOOKS_STORAGE_KEY := JSON_stringify (catalog w ++ [updatedBook])]>
                        (storage w)).
Proof.
  unfold addBook. rewrite (try_rethrow (A := Book)). simpl.
  intros [(p & w1 & Hm & Hk)|(e & Hm & ->)]%bind_inv.
  2:{ left. split; [by eapply materialize_frame | eauto]. }
  pose proof (materialize_frame _ _ _ _ _ Hm) as Hs1.
  apply materialize_path in Hm as ->.
  apply bind_inv in Hk as [(b & w2 & Hp & Hk)|(e & Hp & ->)].
  2:{ destruct (isFileReadable_total (localFilePathOf book fileUri) w1) as (b & w2 & Hb).
      congruence. }
  pose proof (isFileReadable_frame _ _ _ _ Hp) as Hs2.
  destruct b; simpl in Hk.
  2:{ injection Hk as <- <-. left. split; [|eauto].
      unfold same_storage in *. congruence. }
  unfold bind in Hk. rewrite getBooks_run, saveBooks_run in Hk. simpl in Hk.
  assert (catalog w2 = catalog w) as Hc.
  { apply catalog_same_storage. unfold same_storage in *. congruence. }
  rewrite Hc in Hk.
  destruct (rejects (SetItem _ _)); injection Hk as <- <-.
  - left. split; [|eauto]. simpl. unfold same_storage in *. congruence.
  - right. split; [done|]. simpl. unfold same_storage in *. congruence.
Qed.

End WithPlatform.
End BookStorageFacts.

Module CatalogClaims.
Import MonadFacts BookStorage BookStorageFacts.

Section WithPlatform.
Context `{Platform}.

(** C1.  When the file addBook has just materialized at [p] fails the
    readability check, addBook throws FileNotReadableError for [p], nothing
    is written to the store, and the catalog is what it was before the
    call.  More generally, whenever addBook throws, at whatever step, the
    store and the catalog are what they were: no record is persisted. *)
Theorem addBook_unreadable_aborts (book : Book) (fileUri : jsstring) (w : World) :
  (forall (p : jsstring) (w1 w2 : World),
      materialize book fileUri w = (Ok p, w1) ->
      isFileReadable p w1 = (Ok false, w2) ->
      addBook book fileUri w = (Err (FileNotReadableError p), w2)
      /\ storage w2 = storage w
      /\ catalog w2 = catalog w)
  /\ (forall (e : Error) (w' : World),
         addBook book fileUri w = (Err e, w') ->
         storage w' = storage w /\ catalog w' = catalog w).
Proof.
  split.
  - intros p w1 w2 Hm Hp.
    assert (storage w2 = storage w) as Hs.
    { apply materialize_frame in Hm. apply isFileReadable_frame in Hp.
      unfold same_storage in *. congruence. }
    split; [|split; [done | by apply catalog_same_storage]].
    unfold addBook. rewrite (try_rethrow (A := Book)).
    unfold bind. by rewrite Hm, Hp.
  - intros e w' [[Hs _]|[[=] _]]%addBook_cases.
    split; [done | by apply catalog_same_storage].
Qed.

Lemma addBook_appends book fileUri w b' w' :
  rejects (GetItem BOOKS_STORAGE_KEY) = false ->
  addBook book fileUri w = (Ok b', w') ->
  catalog w' = catalog w ++ [stored b'].
Proof.
  intros Hr [[_ [e [=]]]|[[= <-] Hs]]%addBook_cases.
  erewrite catalog_saved, Hr; [apply stored_catalog_app|].
  rewrite Hs. apply lookup_insert_eq.
Qed.





Lemma getBook_frame bookId : frame same_storage (getBook bookId).
Proof.
  unfold getBook. apply frame_try_catch; [apply _| |frame_steps].
  apply frame_bind; [apply _| |].
  - intros w r w'. rewrite getBooks_run. by intros [= _ <-].
  - intros books. destruct (snd <$> list_find _ books); frame_steps.
Qed.

Lemma readBookContent_frame p t : frame same_storage (readBookContent p t).
Proof.
  intros w r w'. unfold readBookContent.
  destruct (truthy _); [by intros [= _ <-]|].
  revert w r w'.
  change (frame same_storage
    (try_catch
       (if includes t TEXT_PLAIN then read_text p
        else if includes t APPLICATION_PDF then ret PDF_PLACEHOLDER
        else if includes t APPLICATION_EPUB then ret EPUB_PLACEHOLDER
        else ret [])
       (fun error => throw error))).
  unfold read_text. frame_steps.
Qed.

(** A store written with a collection of distinct ids has distinct ids. *)
Lemma unique_ids_saved (books : list Book) (w : World) :
  NoDup (id <$> books) ->
  storage w !! BOOKS_STORAGE_KEY = Some (JSON_stringify books) ->
  unique_ids w.
Proof.
  intros Hnd Hs. unfold unique_ids. rewrite (catalog_saved books) by done.
  destruct (rejects _); [constructor | by rewrite stored_ids].
Qed.

Lemma unique_ids_same_storage (w w' : World) :
  storage w' = storage w -> unique_ids w -> unique_ids w'.
Proof. intros Hs. unfold unique_ids. by rewrite (catalog_same_storage w w'). Qed.

Lemma addBook_unique book fileUri w :
  unique_ids w -> id book ∉ (id <$> catalog w) ->
  unique_ids (snd (addBook book fileUri w)).
Proof.
  intros Hu Hfresh. destruct (addBook book fileUri w) as [r w'] eqn:Ha.
  apply addBook_cases in Ha as [[Hs _]|[_ Hs]]; simpl.
  - by apply (unique_ids_same_storage w).
  - eapply unique_ids_saved; [|rewrite Hs; apply lookup_insert_eq].
    rewrite fmap_app. apply NoDup_app. split; [done|]. split; [|apply NoDup_singleton].
    simpl. intros x Hx ->%list_elem_of_singleton. done.
Qed.

Lemma updateBook_unique b w :
  unique_ids w -> unique_ids (snd (updateBook b w)).
Proof.
  intros Hu. unfold updateBook. rewrite (try_rethrow (A := unit)).
  unfold bind. rewrite getBooks_run.
  destruct (list_find _ (catalog w)) as [[index old]|] eqn:Hfind; simpl.
  - apply list_find_Some in Hfind as (Hl & Hold & _).
    rewrite saveBooks_run. simpl. destruct (rejects (SetItem _ _)); simpl.
    + by apply (unique_ids_same_storage w).
    + eapply unique_ids_saved; [|simpl; apply lookup_insert_eq].
      rewrite list_fmap_insert, list_insert_id; [done|].
      by rewrite list_lookup_fmap, Hl, <- Hold.
  - by apply (unique_ids_same_storage w).
Qed.

Lemma deleteBook_unique bookId w :
  unique_ids w -> unique_ids (snd (deleteBook bookId w)).
Proof.
  intros Hu. unfold deleteBook. rewrite (try_rethrow (A := unit)).
  unfold bind at 1. rewrite getBooks_run.
  destruct (list_find _ (catalog w)) as [[index old]|] eqn:Hfind; simpl.
  - unfold bind, try_catch.
    destruct (Host.deleteAsync (filePath old) _) as [r w1] eqn:Hdel.
    apply deleteAsync_frame in Hdel.
    assert (forall w2 : World,
               snd (saveBooks (filter (fun book => id book <> bookId) (catalog w)) w2)
               = snd (saveBooks (filter (fun book => id book <> bookId) (catalog w)) w1) ->
               unique_ids (snd (saveBooks (filter (fun book => id book <> bookId) (catalog w)) w2)))
      as Hsave.
    { intros w2 ->. rewrite saveBooks_run. simpl. destruct (rejects (SetItem _ _)); simpl.
      - apply (unique_ids_same_storage w); [|done]. simpl. by rewrite Hdel.
      - eapply unique_ids_saved; [|simpl; apply lookup_insert_eq].
        eapply sublist_NoDup; [exact Hu|]. apply fmap_sublist, sublist_filter. }
    destruct r; simpl; by apply Hsave.
  - by apply (unique_ids_same_storage w).
Qed.

(** C2.  Every operation keeps the ids of the catalog distinct, provided
    an [id] handed to addBook is not in the catalog at that moment; so the
    ids are distinct after any sequence of operations that starts from a
    catalog with distinct ids, in particular from an empty store. *)
Theorem id_unique_at_all_times :
  (forall (w : World) (op : Op),
      unique_ids w -> allowed w op -> unique_ids (run op w))
  /\ (forall (ops : list Op) (w : World),
         unique_ids w -> all_allowed ops w -> unique_ids (run_all ops w))
  /\ (forall (ops : list Op) (w : World),
         storage w !! BOOKS_STORAGE_KEY = None ->
         all_allowed ops w -> unique_ids (run_all ops w)).
Proof.
  assert (forall (w : World) (op : Op),
             unique_ids w -> allowed w op -> unique_ids (run op w)) as Hstep.
  { intros w op Hu Hop.
    assert (forall {A} (m : M A), frame same_storage m -> unique_ids (snd (m w))) as Hframe.
    { intros A m Hm. destruct (m w) as [r w'] eqn:Hr.
      eapply unique_ids_same_storage; [|done]. by eapply Hm. }
    destruct op; simpl.
    - apply Hframe, initialize_frame.
    - destruct (getAllBooks_returns w) as [parsed ->].
      by apply (unique_ids_same_storage w).
    - apply Hframe, isFileReadable_frame.
    - by apply addBook_unique.
    - apply Hframe, getBook_frame.
    - apply Hframe, readBookContent_frame.
    - by apply updateBook_unique.
    - by apply deleteBook_unique. }
  assert (forall (ops : list Op) (w : World),
             unique_ids w -> all_allowed ops w -> unique_ids (run_all ops w)) as Hall.
  { induction ops as [|op ops IH]; intros w Hu Hops; simpl in *; [done|].
    destruct Hops as [Hop Hrest]. apply IH; [by apply Hstep | done]. }
  split; [done|]. split; [done|].
  intros ops w Hnone. apply Hall. unfold unique_ids.
  destruct (rejects (GetItem BOOKS_STORAGE_KEY)) eqn:Hr.
  - rewrite catalog_rejected by done. constructor.
  - rewrite catalog_accepted, Hnone by done. constructor.
Qed.

End WithPlatform.
End CatalogClaims.

Module ContentClaims.
Import MonadFacts BookStorage BookStorageFacts.

Section WithPlatform.
Context `{Platform}.

(** The three ways a read goes: served from the cache, dispatched on a type
    that is not plain text, or read from the file. *)
Lemma readBookContent_hit p t w :
  truthy (contentCache w !! p) = true ->
  readBookContent p t w = (Ok (default [] (contentCache w !! p)), w).
Proof. intros Ht. unfold readBookContent. by rewrite Ht. Qed.

Lemma readBookContent_other p t w :
  truthy (contentCache w !! p) = false ->
  includes t TEXT_PLAIN = false ->
  readBookContent p t w
  = (Ok (if includes t APPLICATION_PDF then PDF_PLACEHOLDER
         else if includes t APPLICATION_EPUB then EPUB_PLACEHOLDER
         else []), w).
Proof.
  intros Ht Htxt. unfold readBookContent. rewrite Ht, Htxt.
  rewrite (try_rethrow (A := jsstring)).
  by destruct (includes t APPLICATION_PDF), (includes t APPLICATION_EPUB).
Qed.

Lemma readBookContent_text p t w :
  truthy (contentCache w !! p) = false ->
  includes t TEXT_PLAIN = true ->
  readBookContent p t w = read_text p w.
Proof.
  intros Ht Htxt. unfold readBookContent. rewrite Ht, Htxt.
  by rewrite (try_rethrow (A := jsstring)).
Qed.

(** A read from the file starts with the UTF-8 read of the path, and what
    it returns is what it has put in the cache. *)
Lemma read_text_trace p w r w' :
  read_text p w = (r, w') ->
  exists later, trace w' = later ++ ReadAsString p UTF8 None :: trace w.
Proof.
  unfold read_text, bind, try_catch, cache_put, ret, Host.readAsStringAsync, Host.call.
  destruct (rejects (ReadAsString p UTF8 None)); simpl.
  - destruct (rejects (ReadAsString p Base64 None)); simpl.
    + intros [= _ <-]. by exists [ReadAsString p Base64 None].
    + destruct (files w !! p) as [[|data]|]; simpl; intros [= _ <-];
        by exists [ReadAsString p Base64 None].
  - destruct (files w !! p) as [[|data]|] eqn:Hf; simpl.
    + destruct (rejects (ReadAsString p Base64 None)); simpl;
        rewrite ?Hf; intros [= _ <-]; by exists [ReadAsString p Base64 None].
    + destruct (utf8_decode data); simpl.
      * intros [= _ <-]. by exists [].
      * destruct (rejects (ReadAsString p Base64 None)); simpl;
          rewrite ?Hf; intros [= _ <-]; by exists [ReadAsString p Base64 None].
    + destruct (rejects (ReadAsString p Base64 None)); simpl;
        rewrite ?Hf; intros [= _ <-]; by exists [ReadAsString p Base64 None].
Qed.

Lemma read_text_cached p w text w' :
  read_text p w = (Ok text, w') -> contentCache w' !! p = Some text.
Proof.
  unfold read_text.
  intros [(content & w1 & _ & Hk)|(e & _ & [=])]%bind_inv.
  unfold bind, cache_put, ret in Hk. injection Hk as <- <-.
  simpl. apply lookup_insert_eq.
Qed.

Lemma read_text_empty_file p w data :
  files w !! p = Some (File data) ->
  utf8_decode data = Some [] ->
  rejects (ReadAsString p UTF8 None) = false ->
  read_text p w
  = (Ok [], set_cache (<[p := []]> (contentCache w))
                      (record_call (ReadAsString p UTF8 None) w)).
Proof.
  intros Hf Hd Hr.
  unfold read_text, bind, try_catch, cache_put, ret, Host.readAsStringAsync, Host.call.
  rewrite Hr. simpl. rewrite Hf. simpl. by rewrite Hd.
Qed.

(** C4, as amended.  Once a plain-text read of a path has returned a text
    that is not empty, the next read of that path returns the same text and
    leaves the world, trace included, as it is: it makes no platform call. *)
Theorem readBookContent_second_read_cached
    (filePath fileType text : jsstring) (w w1 : World) :
  includes fileType TEXT_PLAIN = true ->
  readBookContent filePath fileType w = (Ok text, w1) ->
  text <> [] ->
  readBookContent filePath fileType w1 = (Ok text, w1)
  /\ fs_calls (snd (readBookContent filePath fileType w1)) = fs_calls w1.
Proof.
  intros Htxt Hread Hne.
  assert (contentCache w1 !! filePath = Some text) as Hc.
  { destruct (truthy (contentCache w !! filePath)) eqn:Ht.
    - rewrite readBookContent_hit in Hread by done. injection Hread as <- <-.
      by destruct (contentCache w !! filePath) as [[|c s]|].
    - rewrite readBookContent_text in Hread by done. by eapply read_text_cached. }
  assert (readBookContent filePath fileType w1 = (Ok text, w1)) as Hsecond.
  { rewrite readBookContent_hit; rewrite Hc; [done|]. by destruct text. }
  by rewrite Hsecond.
Qed.

(** C8, as amended.  A read whose type contains no text/plain never throws
    and has no effect.  When the cache holds no non-empty text for the path,
    it returns the PDF placeholder for a type containing application/pdf,
    the EPUB placeholder for a type containing application/epub+zip and not
    application/pdf, and the empty text for any other type; when the cache
    holds a non-empty text for the path, that text is returned whatever the
    type. *)
Theorem readBookContent_placeholders (filePath fileType : jsstring) (w : World) :
  (includes fileType TEXT_PLAIN = false ->
     exists text, readBookContent filePath fileType w = (Ok text, w))
  /\ (truthy (contentCache w !! filePath) = false ->
      includes fileType TEXT_PLAIN = false ->
      (includes fileType APPLICATION_PDF = true ->
         readBookContent filePath fileType w = (Ok PDF_PLACEHOLDER, w))
      /\ (includes fileType APPLICATION_PDF = false ->
          includes fileType APPLICATION_EPUB = true ->
          readBookContent filePath fileType w = (Ok EPUB_PLACEHOLDER, w))
      /\ (includes fileType APPLICATION_PDF = false ->
          includes fileType APPLICATION_EPUB = false ->
          readBookContent filePath fileType w = (Ok [], w)))
  /\ (forall text,
         contentCache w !! filePath = Some text -> text <> [] ->
         readBookContent filePath fileType w = (Ok text, w)).
Proof.
  split; [|split].
  - intros Htxt. destruct (truthy (contentCache w !! filePath)) eqn:Ht.
    + rewrite readBookContent_hit by done. eauto.
    + rewrite readBookContent_other by done. eauto.
  - intros Ht Htxt. rewrite readBookContent_other by done.
    split; [|split]; [intros -> | intros -> -> ..]; done.
  - intros text Hc Hne. rewrite readBookContent_hit; rewrite Hc; [done|].
    by destruct text.
Qed.

Lemma read_repeatedly_empty_file n p t data w :
  includes t TEXT_PLAIN = true ->
  truthy (contentCache w !! p) = false ->
  files w !! p = Some (File data) ->
  utf8_decode data = Some [] ->
  rejects (ReadAsString p UTF8 None) = false ->
  fst (read_repeatedly n p t w) = replicate n (Ok [])
  /\ trace (snd (read_repeatedly n p t w))
     = replicate n (ReadAsString p UTF8 None) ++ trace w.
Proof.
  intros Htxt Ht Hf Hd Hr. revert w Ht Hf.
  induction n as [|n IH]; intros w Ht Hf; [done|].
  cbn [read_repeatedly].
  rewrite readBookContent_text, (read_text_empty_file p w data) by done.
  destruct (read_repeatedly n p t _) as [rs w2] eqn:Hrest.
  specialize (IH (set_cache (<[p := []]> (contentCache w))
                            (record_call (ReadAsString p UTF8 None) w))).
  rewrite Hrest in IH. simpl in IH.
  destruct IH as [IH1 IH2]; [by rewrite lookup_insert_eq | done |].
  simpl. rewrite IH1, IH2. split; [done|].
  change (ReadAsString p UTF8 None :: replicate n (ReadAsString p UTF8 None) ++ trace w)
    with (replicate (S n) (ReadAsString p UTF8 None) ++ trace w).
  by rewrite replicate_S_end, <- (assoc_L (++)).
Qed.

(** C9.  A plain-text read of a path for which the cache holds the empty
    string (or nothing) is not served from the cache: it starts with a
    UTF-8 read of the file.  So for a file whose text decodes to the empty
    string every one of [n] successive reads returns the empty text and
    reads the file again. *)
Theorem readBookContent_empty_never_cached (filePath fileType : jsstring) (w : World) :
  includes fileType TEXT_PLAIN = true ->
  (contentCache w !! filePath = Some [] ->
     exists later,
       trace (snd (readBookContent filePath fileType w))
       = later ++ ReadAsString filePath UTF8 None :: trace w)
  /\ (forall (n : nat) (data : list N),
         truthy (contentCache w !! filePath) = false ->
         files w !! filePath = Some (File data) ->
         utf8_decode data = Some [] ->
         rejects (ReadAsString filePath UTF8 None) = false ->
         fst (read_repeatedly n filePath fileType w) = replicate n (Ok [])
         /\ trace (snd (read_repeatedly n filePath fileType w))
            = replicate n (ReadAsString filePath UTF8 None) ++ trace w).
Proof.
  intros Htxt. split.
  - intros Hc. rewrite readBookContent_text; [|by rewrite Hc | done].
    destruct (read_text filePath w) as [r w'] eqn:Hr.
    by apply read_text_trace in Hr.
  - intros n data Ht Hf Hd Hr. by eapply read_repeatedly_empty_file.
Qed.

End WithPlatform.
End ContentClaims.

Module ImportClaims.
Import MonadFacts BookStorage BookStorageFacts.

Section WithPlatform.
Context `{Platform}.

Lemma call_same_files {A} (c : IoCall) (act : World -> option (A * World)) :
  (forall w a w', act w = Some (a, w') -> files w' = files w) ->
  frame same_files (Host.call c act).
Proof.
  intros Hact. apply frame_call; [apply _| |exact Hact]. by intros w.
Qed.

Lemma getInfoAsync_files uri : frame same_files (Host.getInfoAsync uri).
Proof. apply call_same_files. by intros w a w' [= _ <-]. Qed.

Lemma readAsStringAsync_files uri enc range :
  frame same_files (Host.readAsStringAsync uri enc range).
Proof.
  apply call_same_files. intros w a w' Ha.
  destruct (files w !! uri) as [[|data]|]; [done| |done].
  destruct enc; [|by simplify_eq].
  destruct (utf8_decode data); by simplify_eq/=.
Qed.

End WithPlatform.

#[export] Hint Resolve getInfoAsync_files readAsStringAsync_files : frame.

Section WithPlatform.
Context `{Platform}.

Lemma isFileReadable_files p : frame same_files (isFileReadable p).
Proof. unfold isFileReadable. frame_steps. Qed.

Lemma split_without_separator (sep : N) (s : jsstring) :
  sep ∉ s -> split sep s = [s].
Proof.
  induction s as [|c s IH]; [done|]. intros Hnot. simpl.
  destruct (c =? sep) eqn:Hc.
  - apply N.eqb_eq in Hc as ->. destruct Hnot. by left.
  - rewrite IH; [done|]. intros Hin. apply Hnot. by right.
Qed.

Lemma fileExtOf_unknown (book : Book) (fileUri : jsstring) :
  includes (fileType book) TEXT_PLAIN = false ->
  includes (fileType book) APPLICATION_PDF = false ->
  includes (fileType book) APPLICATION_EPUB = false ->
  0x2E ∉ fileUri ->
  fileExtOf book fileUri = [].
Proof.
  intros Ht Hp He Hdot. unfold fileExtOf.
  by rewrite Ht, Hp, He, split_without_separator.
Qed.

(** C10.  For a book whose type contains none of text/plain,
    application/pdf and application/epub+zip, imported from a location
    without a dot, the extension is empty: the target path is the content
    directory followed by the id and a dot, the file is brought there by a
    plain copy, and when addBook returns, the record it returns has that
    path as its filePath and the copied file is there. *)
Theorem addBook_unknown_type_trailing_dot (book : Book) (fileUri : jsstring) :
  includes (fileType book) TEXT_PLAIN = false ->
  includes (fileType book) APPLICATION_PDF = false ->
  includes (fileType book) APPLICATION_EPUB = false ->
  0x2E ∉ fileUri ->
  let path := BOOKS_DIR ++ id book ++ [0x2E] in
  localFilePathOf book fileUri = path
  /\ (forall w,
         materialize book fileUri w
         = (initialize ;; Host.copyAsync fileUri path ;; ret path) w)
  /\ (forall w b' w',
         addBook book fileUri w = (Ok b', w') ->
         b' = with_filePath book path
         /\ filePath b' = path
         /\ is_Some (files w' !! path)
         /\ files w' !! path = files (snd (initialize w)) !! fileUri).
Proof.
  intros Ht Hp He Hdot path.
  assert (localFilePathOf book fileUri = path) as Hpath.
  { unfold localFilePathOf. rewrite fileExtOf_unknown by done.
    unfold path. by rewrite (right_id_L [] (++)). }
  assert (forall w,
             materialize book fileUri w
             = (initialize ;; Host.copyAsync fileUri path ;; ret path) w) as Hmat.
  { intros w. unfold materialize. rewrite Hpath, fileExtOf_unknown by done. done. }
  split; [done|]. split; [done|].
  intros w b' w'. unfold addBook. rewrite (try_rethrow (A := Book)).
  intros [(p & w1 & Hm & Hk)|(e & _ & [=])]%bind_inv.
  rewrite Hmat in Hm.
  apply bind_inv in Hm as [([] & wi & Hi & Hm)|(e & _ & [=])].
  apply bind_inv in Hm as [([] & wc & Hc & Hm)|(e & _ & [=])].
  injection Hm as <- <-.
  apply bind_inv in Hk as [(b & w2 & Hr & Hk)|(e & _ & [=])].
  apply isFileReadable_files in Hr.
  destruct b; simpl in Hk; [|done].
  unfold bind in Hk. rewrite getBooks_run, saveBooks_run in Hk. simpl in Hk.
  destruct (rejects (SetItem _ _)); [done|]. injection Hk as <- <-.
  split; [done|]. split; [done|]. simpl. rewrite Hr, Hi. simpl.
  unfold Host.copyAsync, Host.call in Hc.
  destruct (rejects (Copy fileUri path)); [done|]. simpl in Hc.
  destruct (files wi !! fileUri) as [node|]; [|done]. simpl in Hc.
  injection Hc as <-. simpl. rewrite lookup_insert_eq. eauto.
Qed.

End WithPlatform.
End ImportClaims.

(** ** The claims on the reference host *)

Module Examples.
Import MonadFacts BookStorage RefHost.

Definition IPHONE : Platform := ref_host true no_rejects.
Definition ANDROID : Platform := ref_host false no_rejects.

Definition PDF_BOOK : Book := sample_book "7" "application/pdf".
Definition BLOB_BOOK : Book := sample_book "8" "application/octet-stream".
Definition NOVEL : Book := sample_book "1" "text/plain".
Definition NOVEL_REREAD : Book :=
  {| id := js "1"; title := js "Sample"; author := Some (js "A. Writer");
     filePath := SOURCE_URI; fileType := js "text/plain"; coverUrl := None;
     lastRead := Some (DateString (js "2026-11-02T00:00:00.000Z"));
     lastPage := Some 12%Z; totalPages := Some 340%Z; chapterIndex := None;
     highlights := None; bookmarks := None |}.

(** A picked PDF: its bytes are not UTF-8. *)
Definition PICKED_PDF : World :=
  world_of [(SOURCE_URI, File [0x25; 0x50; 0x44; 0x46; 0xFF])].

(** A text file holding [hello], and an empty one. *)
Definition HELLO_FILE : World :=
  world_of [(NOTES_PATH, File (bytes_of_string "hello"))].
Definition EMPTY_FILE : World := world_of [(NOTES_PATH, File [])].


(** A store whose catalog is the novel followed by the PDF book. *)
Definition SHELF : World :=
  {| storage := {[ BOOKS_STORAGE_KEY := stringify [NOVEL; PDF_BOOK] ]};
     files := ∅; contentCache := ∅; trace := [] |}.

(** C1 on an iPhone: the picked PDF is copied, fails the probe read, and
    the import is aborted with the store untouched. *)
Lemma addBook_unreadable_aborts_witness :
  @addBook IPHONE PDF_BOOK SOURCE_URI PICKED_PDF
  = (Err (FileNotReadableError (@localFilePathOf IPHONE PDF_BOOK SOURCE_URI)),
     snd (@isFileReadable IPHONE (@localFilePathOf IPHONE PDF_BOOK SOURCE_URI)
            (snd (@materialize IPHONE PDF_BOOK SOURCE_URI PICKED_PDF))))
  /\ storage (snd (@isFileReadable IPHONE (@localFilePathOf IPHONE PDF_BOOK SOURCE_URI)
                     (snd (@materialize IPHONE PDF_BOOK SOURCE_URI PICKED_PDF))))
     = storage PICKED_PDF
  /\ @catalog IPHONE
       (snd (@isFileReadable IPHONE (@localFilePathOf IPHONE PDF_BOOK SOURCE_URI)
               (snd (@materialize IPHONE PDF_BOOK SOURCE_URI PICKED_PDF))))
     = @catalog IPHONE PICKED_PDF.
Proof.
  apply (proj1 (@CatalogClaims.addBook_unreadable_aborts IPHONE PDF_BOOK SOURCE_URI
                  PICKED_PDF)
           (@localFilePathOf IPHONE PDF_BOOK SOURCE_URI)
           (snd (@materialize IPHONE PDF_BOOK SOURCE_URI PICKED_PDF)));
    vm_compute; reflexivity.
Defined.

(** C2 on a run from an empty store: two imports, an update, a read, a
    deletion. *)
Lemma id_unique_at_all_times_witness :
  @unique_ids ANDROID
    (@run_all ANDROID
       [AddBook NOVEL SOURCE_URI; AddBook PDF_BOOK SOURCE_URI;
        UpdateBook NOVEL_REREAD; GetBook (js "7"); DeleteBook (js "1")]
       PICKED_PDF).
Proof.
  apply (proj2 (proj2 (@CatalogClaims.id_unique_at_all_times ANDROID))).
  - reflexivity.
  - simpl. split; [|split; [|done]].
    + apply (bool_decide_unpack _). vm_compute. exact I.
    + apply (bool_decide_unpack _). vm_compute. exact I.
Defined.

(** C4: the second read of the file holding [hello] is a cache hit. *)
Lemma readBookContent_second_read_cached_witness :
  @readBookContent ANDROID NOTES_PATH TEXT_PLAIN
    (snd (@readBookContent ANDROID NOTES_PATH TEXT_PLAIN HELLO_FILE))
  = (Ok (js "hello"), snd (@readBookContent ANDROID NOTES_PATH TEXT_PLAIN HELLO_FILE))
  /\ fs_calls (snd (@readBookContent ANDROID NOTES_PATH TEXT_PLAIN
                      (snd (@readBookContent ANDROID NOTES_PATH TEXT_PLAIN HELLO_FILE))))
     = fs_calls (snd (@readBookContent ANDROID NOTES_PATH TEXT_PLAIN HELLO_FILE)).
Proof.
  apply (@ContentClaims.readBookContent_second_read_cached ANDROID
           NOTES_PATH TEXT_PLAIN (js "hello") HELLO_FILE);
    [vm_compute; reflexivity | vm_compute; reflexivity | discriminate].
Defined.

(** C4 as worded fails on the empty file: the first read returns the empty
    text, the second returns it too but reads the file again. *)
Lemma second_read_of_empty_file_reads_again :
  @readBookContent ANDROID NOTES_PATH TEXT_PLAIN EMPTY_FILE
  = (Ok [], snd (@readBookContent ANDROID NOTES_PATH TEXT_PLAIN EMPTY_FILE))
  /\ fs_calls (snd (@readBookContent ANDROID NOTES_PATH TEXT_PLAIN EMPTY_FILE))
     = [ReadAsString NOTES_PATH UTF8 None]
  /\ fs_calls (snd (@readBookContent ANDROID NOTES_PATH TEXT_PLAIN
                      (snd (@readBookContent ANDROID NOTES_PATH TEXT_PLAIN EMPTY_FILE))))
     = [ReadAsString NOTES_PATH UTF8 None; ReadAsString NOTES_PATH UTF8 None]
  /\ ~ @second_read_is_free ANDROID.
Proof.
  split; [vm_compute; reflexivity|].
  split; [vm_compute; reflexivity|].
  split; [vm_compute; reflexivity|].
  intros Hclaim.
  destruct (Hclaim NOTES_PATH TEXT_PLAIN [] EMPTY_FILE
              (snd (@readBookContent ANDROID NOTES_PATH TEXT_PLAIN EMPTY_FILE)))
    as (w2 & Hread & Hfs); [vm_compute; reflexivity..|].
  apply (f_equal snd) in Hread. simpl in Hread. subst w2.
  vm_compute in Hfs. discriminate.
Qed.





(** C8: a PDF read of a path never read before gives the placeholder. *)
Lemma readBookContent_placeholders_witness :
  @readBookContent ANDROID NOTES_PATH APPLICATION_PDF HELLO_FILE
  = (Ok PDF_PLACEHOLDER, HELLO_FILE).
Proof.
  apply (proj1 (proj2 (@ContentClaims.readBookContent_placeholders ANDROID
                         NOTES_PATH APPLICATION_PDF HELLO_FILE)));
    reflexivity.
Defined.

(** C8 as worded fails once the path has been read as plain text: the PDF
    read is served the cached text. *)
Lemma pdf_read_of_cached_path_returns_cached_text :
  fst (@readBookContent ANDROID NOTES_PATH APPLICATION_PDF
         (snd (@readBookContent ANDROID NOTES_PATH TEXT_PLAIN HELLO_FILE)))
  = Ok (js "hello")
  /\ ~ @pdf_read_is_placeholder ANDROID.
Proof.
  split; [vm_compute; reflexivity|].
  intros Hclaim.
  specialize (Hclaim NOTES_PATH
                (snd (@readBookContent ANDROID NOTES_PATH TEXT_PLAIN HELLO_FILE))).
  vm_compute in Hclaim. discriminate.
Qed.

(** C9 as worded fails on the empty file for a read that is not typed as
    plain text: after the text read has returned the empty text, a PDF read
    of the same path returns the placeholder and calls nothing. *)
Lemma pdf_read_of_empty_file_calls_nothing :
  @readBookContent ANDROID NOTES_PATH APPLICATION_PDF
    (snd (@readBookContent ANDROID NOTES_PATH TEXT_PLAIN EMPTY_FILE))
  = (Ok PDF_PLACEHOLDER, snd (@readBookContent ANDROID NOTES_PATH TEXT_PLAIN EMPTY_FILE))
  /\ ~ @every_read_rereads ANDROID.
Proof.
  split; [vm_compute; reflexivity|].
  intros Hclaim.
  apply (Hclaim NOTES_PATH APPLICATION_PDF
           (snd (@readBookContent ANDROID NOTES_PATH TEXT_PLAIN EMPTY_FILE)) []);
    vm_compute; reflexivity.
Qed.

(** C9 on the empty file: three reads, three file reads. *)
Lemma readBookContent_empty_never_cached_witness :
  fst (@read_repeatedly ANDROID 3%nat NOTES_PATH TEXT_PLAIN EMPTY_FILE)
  = replicate 3%nat (Ok [])
  /\ trace (snd (@read_repeatedly ANDROID 3%nat NOTES_PATH TEXT_PLAIN EMPTY_FILE))
     = replicate 3%nat (ReadAsString NOTES_PATH UTF8 None) ++ trace EMPTY_FILE.
Proof.
  apply (proj2 (@ContentClaims.readBookContent_empty_never_cached ANDROID
                  NOTES_PATH TEXT_PLAIN EMPTY_FILE eq_refl) 3%nat []);
    reflexivity.
Defined.

(** C10: a document of an unknown type picked from a URI without a dot is
    stored under the id followed by a dot. *)
Lemma addBook_unknown_type_trailing_dot_witness :
  @localFilePathOf ANDROID BLOB_BOOK SOURCE_URI
  = @BOOKS_DIR ANDROID ++ js "8" ++ js "."
  /\ fst (@addBook ANDROID BLOB_BOOK SOURCE_URI PICKED_PDF)
     = Ok (with_filePath BLOB_BOOK (@BOOKS_DIR ANDROID ++ js "8" ++ js "."))
  /\ is_Some (files (snd (@addBook ANDROID BLOB_BOOK SOURCE_URI PICKED_PDF))
                !! (@BOOKS_DIR ANDROID ++ js "8" ++ js ".")).
Proof.
  destruct (@ImportClaims.addBook_unknown_type_trailing_dot ANDROID BLOB_BOOK SOURCE_URI)
    as (Hpath & _ & Hadd); [reflexivity..| |].
  - apply (bool_decide_unpack _). vm_compute. exact I.
  - split; [exact Hpath|].
    destruct (@addBook ANDROID BLOB_BOOK SOURCE_URI PICKED_PDF) as [r w'] eqn:Hrun.
    assert (r = Ok (with_filePath BLOB_BOOK (@BOOKS_DIR ANDROID ++ js "8" ++ js "."))) as ->.
    { apply (f_equal fst) in Hrun. vm_compute in Hrun. vm_compute. congruence. }
    destruct (Hadd _ _ _ Hrun) as (_ & _ & Hsome & _). by split.
Defined.

End Examples.

(** ** Further properties of the catalog and content store *)

Module StorageProperties.
Import MonadFacts BookStorage BookStorageFacts StorageSpec.

Section WithPlatform.
Context `{Platform}.

Lemma initialize_run (w : World) :
  initialize w
  = let w0 := record_call (GetInfo BOOKS_DIR) w in
    if rejects (GetInfo BOOKS_DIR) then (Err (PlatformError (GetInfo BOOKS_DIR)), w0)
    else match files w !! BOOKS_DIR with
         | Some _ => (Ok tt, w0)
         | None =>
           let w1 := record_call (MakeDirectory BOOKS_DIR) w0 in
           if rejects (MakeDirectory BOOKS_DIR)
           then (Err (PlatformError (MakeDirectory BOOKS_DIR)), w1)
           else (Ok tt, set_files (<[BOOKS_DIR := Directory]> (files w)) w1)
         end.
Proof.
  unfold initialize. rewrite (try_rethrow (A := unit)).
  unfold bind, Host.getInfoAsync, Host.makeDirectoryAsync, Host.call, ret. simpl.
  destruct (rejects (GetInfo BOOKS_DIR)); [done|].
  destruct (files w !! BOOKS_DIR) as [[|data]|] eqn:Hf; simpl; [done..|].
  destruct (rejects (MakeDirectory BOOKS_DIR)); [done|]. by rewrite Hf.
Qed.

(** X1.  initialize creates the books directory only when nothing exists at
    its path (a file there counts as existing), leaves every other path, the
    store and the cache alone, changes no file when it throws, and is
    idempotent: after it has returned, a second call returns too and changes
    no file. *)
Theorem initialize_ensures_directory (w : World) :
  (forall w', initialize w = (Ok tt, w') ->
      is_Some (files w' !! BOOKS_DIR)
      /\ (is_Some (files w !! BOOKS_DIR) -> files w' = files w)
      /\ (files w !! BOOKS_DIR = None ->
          files w' = <[BOOKS_DIR := Directory]> (files w))
      /\ exists w'', initialize w' = (Ok tt, w'') /\ files w'' = files w')
  /\ (forall e w', initialize w = (Err e, w') -> files w' = files w)
  /\ (forall r w', initialize w = (r, w') ->
      storage w' = storage w /\ contentCache w' = contentCache w
      /\ forall p, p <> BOOKS_DIR -> files w' !! p = files w !! p).
Proof.
  rewrite initialize_run. simpl.
  destruct (rejects (GetInfo BOOKS_DIR)) eqn:Hinfo.
  { split; [done|]. split; [by intros e w' [= _ <-]|]. by intros r w' [= _ <-]. }
  destruct (files w !! BOOKS_DIR) as [node|] eqn:Hf.
  { split; [|split; [done | by intros r w' [= _ <-]]].
    intros w' [= <-]. simpl. rewrite Hf. split; [eauto|]. split; [done|]. split; [done|].
    rewrite initialize_run. simpl. rewrite Hinfo, Hf. eauto. }
  destruct (rejects (MakeDirectory BOOKS_DIR)) eqn:Hmk.
  { split; [done|]. split; [by intros e w' [= _ <-]|]. by intros r w' [= _ <-]. }
  split; [|split; [done|]].
  - intros w' [= <-]. simpl. rewrite lookup_insert_eq.
    split; [eauto|]. split; [by intros [? [=]]|]. split; [done|].
    rewrite initialize_run. simpl. rewrite Hinfo, lookup_insert_eq. eauto.
  - intros r w' [= _ <-]. simpl. split; [done|]. split; [done|].
    intros p Hp. by rewrite lookup_insert_ne.
Qed.

Lemma isFileReadable_run (p : jsstring) (w : World) :
  exists w', isFileReadable p w = (Ok (readable p w), w') /\ same_state w w'.
Proof.
  unfold isFileReadable, readable, try_catch, bind, Host.getInfoAsync,
    Host.readAsStringAsync, Host.call, ret.
  destruct (rejects (GetInfo p)); simpl; [by eexists|].
  destruct (files w !! p) as [[|data]|] eqn:Hf; simpl; [by eexists| |by eexists].
  destruct OS_is_ios; simpl; [|by eexists].
  destruct (rejects (ReadAsString p UTF8 (Some (100, 0)))); simpl; [by eexists|].
  rewrite Hf. simpl. destruct (utf8_decode data); simpl; by eexists.
Qed.

(** Off iOS the info call is the only call the probe makes. *)
Lemma isFileReadable_trace (p : jsstring) (w : World) :
  OS_is_ios = false -> trace (snd (isFileReadable p w)) = GetInfo p :: trace w.
Proof.
  intros Hos.
  unfold isFileReadable, try_catch, bind, Host.getInfoAsync, Host.call, ret.
  rewrite Hos. destruct (rejects (GetInfo p)); simpl; [done|].
  by destruct (files w !! p) as [[|data]|].
Qed.

(** X2.  isFileReadable never throws and changes neither the store, the
    files nor the cache.  Its answer is true exactly when the info call is
    accepted, the path holds a file (not a directory) and, on iOS only, the
    probe read is accepted and the bytes decode as UTF-8.  On another
    platform the info call is the only call made: no read is attempted. *)
Theorem isFileReadable_verdict (filePath : jsstring) (w : World) :
  exists (b : bool) (w' : World),
    isFileReadable filePath w = (Ok b, w')
    /\ same_state w w'
    /\ (b = true <->
        rejects (GetInfo filePath) = false
        /\ exists data,
            files w !! filePath = Some (File data)
            /\ (OS_is_ios = true ->
                rejects (ReadAsString filePath UTF8 (Some (100, 0))) = false
                /\ is_Some (utf8_decode data)))
    /\ (OS_is_ios = false -> trace w' = GetInfo filePath :: trace w).
Proof.
  destruct (isFileReadable_run filePath w) as (w' & Hrun & Hsame).
  exists (readable filePath w), w'. split; [done|]. split; [done|].
  split.
  2:{ intros Hos. pose proof (isFileReadable_trace filePath w Hos) as Ht.
      by rewrite Hrun in Ht. }
  unfold readable. destruct (rejects (GetInfo filePath)); simpl.
  { split; [done | by intros [? _]]. }
  destruct (files w !! filePath) as [[|data]|]; simpl.
  - split; [done | by intros [_ (? & [=] & _)]].
  - destruct OS_is_ios; simpl.
    + destruct (rejects (ReadAsString _ _ _)); simpl.
      * split; [done|]. intros [_ (? & _ & Hios)]. by destruct Hios.
      * rewrite bool_decide_eq_true. split.
        -- intros Hd. split; [done|]. eauto.
        -- intros [_ (d & [= <-] & Hios)]. by destruct Hios.
    + split; [|done]. intros _. split; [done|]. exists data. split; [done|]. done.
  - split; [done | by intros [_ (? & [=] & _)]].
Qed.

Lemma getBook_run (bookId : jsstring) (w : World) :
  exists w', getBook bookId w = (Ok (lookup_book bookId (catalog w)), w')
             /\ same_state w w'.
Proof.
  unfold getBook, lookup_book, try_catch, bind. rewrite getBooks_run.
  destruct (list_find _ (catalog w)) as [[i b]|]; simpl; [|by eexists].
  destruct (isFileReadable_run (filePath b)
              (record_call (GetItem BOOKS_STORAGE_KEY) w)) as (w' & -> & Hs).
  by eexists.
Qed.

(** X3.  getBook never throws and changes neither the store, the files nor
    the cache.  It returns null exactly when no record of the catalog
    carries the id, and otherwise the first record that does, whether or not
    its file is readable. *)
Theorem getBook_returns_first (bookId : jsstring) (w : World) :
  exists (found : option Book) (w' : World),
    getBook bookId w = (Ok found, w')
    /\ same_state w w'
    /\ (found = None <-> bookId ∉ (id <$> catalog w))
    /\ (forall b, found = Some b ->
        exists index,
          catalog w !! index = Some b /\ id b = bookId
          /\ forall j b', catalog w !! j = Some b' -> (j < index)%nat -> id b' <> bookId).
Proof.
  destruct (getBook_run bookId w) as (w' & Hrun & Hsame).
  exists (lookup_book bookId (catalog w)), w'. split; [done|]. split; [done|].
  unfold lookup_book.
  destruct (list_find _ (catalog w)) as [[i b]|] eqn:Hfind; simpl.
  - apply list_find_Some in Hfind as (Hl & Hid & Hfirst). split.
    + split; [done|]. intros Hnot. destruct Hnot.
      apply list_elem_of_fmap. exists b. split; [done|]. by eapply list_elem_of_lookup_2.
    + intros b' [= <-]. exists i. split; [done|]. split; [done|].
      intros j b' Hj Hlt. by eapply Hfirst.
  - apply list_find_None in Hfind. split; [|done].
    split; [|done]. intros _ (b & -> & Hb)%list_elem_of_fmap.
    rewrite Forall_forall in Hfind. by eapply Hfind.
Qed.

Lemma lookup_book_nil (bookId : jsstring) : lookup_book bookId [] = None.
Proof. done. Qed.

Lemma lookup_book_cons (bookId : jsstring) (b : Book) (books : list Book) :
  lookup_book bookId (b :: books)
  = if decide (id b = bookId) then Some b else lookup_book bookId books.
Proof.
  unfold lookup_book. cbn [list_find]. destruct (decide (id b = bookId)); [done|].
  by destruct (list_find _ books) as [[i x]|].
Qed.

Lemma lookup_book_None (bookId : jsstring) (books : list Book) :
  lookup_book bookId books = None <-> bookId ∉ (id <$> books).
Proof.
  induction books as [|b books IH]; [by split; [intros _ ?%elem_of_nil|]|].
  rewrite lookup_book_cons, fmap_cons, not_elem_of_cons.
  destruct (decide (id b = bookId)) as [<-|Hne]; [by split; [|intros [? _]]|].
  rewrite IH. split; [by split | by intros [_ ?]].
Qed.

Lemma lookup_book_app_fresh (bookId : jsstring) (b : Book) (books : list Book) :
  id b ∉ (id <$> books) ->
  lookup_book bookId (books ++ [b])
  = if decide (id b = bookId) then Some b else lookup_book bookId books.
Proof.
  induction books as [|x books IH]; intros Hfresh;
    [cbn [app]; by rewrite lookup_book_cons|].
  rewrite fmap_cons, not_elem_of_cons in Hfresh. destruct Hfresh as [Hx Hfresh].
  cbn [app]. rewrite !lookup_book_cons, IH by done.
  destruct (decide (id x = bookId)) as [<-|]; [|done].
  by destruct (decide (id b = id x)).
Qed.

Lemma lookup_book_filter (bookId other : jsstring) (books : list Book) :
  lookup_book other (filter (fun book => id book <> bookId) books)
  = if decide (other = bookId) then None else lookup_book other books.
Proof.
  induction books as [|x books IH].
  { by destruct (decide (other = bookId)). }
  rewrite filter_cons. destruct (decide (id x <> bookId)) as [Hx|Hx].
  - rewrite !lookup_book_cons, IH.
    destruct (decide (id x = other)) as [<-|]; [|done].
    by destruct (decide (id x = bookId)).
  - apply dec_stable in Hx. rewrite IH, lookup_book_cons.
    destruct (decide (other = bookId)) as [->|Hne]; [done|].
    destruct (decide (id x = other)) as [Hxo|]; [|done].
    destruct Hne. by rewrite <- Hxo.
Qed.

Lemma filter_other_ids (bookId : jsstring) (books : list Book) :
  bookId ∉ (id <$> books) ->
  filter (fun book => id book <> bookId) books = books.
Proof.
  induction books as [|x books IH]; [done|].
  rewrite fmap_cons, not_elem_of_cons. intros [Hx Hrest].
  rewrite filter_cons. destruct (decide (id x <> bookId)) as [|Hn]; [by rewrite IH|].
  destruct Hn. intros Heq. by apply Hx.
Qed.

Lemma lookup_book_insert (b : Book) (other : jsstring) (index : nat) (old : Book)
    (books : list Book) :
  list_find (fun book => id book = id b) books = Some (index, old) ->
  lookup_book other (<[index := b]> books)
  = if decide (other = id b) then Some b else lookup_book other books.
Proof.
  revert index. induction books as [|x books IH]; intros index; [done|].
  cbn [list_find]. destruct (decide (id x = id b)) as [Hx|Hx].
  - intros [= <- <-]. change (<[0%nat := b]> (x :: books)) with (b :: books).
    rewrite !lookup_book_cons.
    destruct (decide (other = id b)) as [->|Hne].
    + by destruct (decide (id b = id b)).
    + destruct (decide (id b = other)); [congruence|].
      destruct (decide (id x = other)) as [Hxo|]; [|done].
    destruct Hne. by rewrite <- Hxo.
  - destruct (list_find _ books) as [[i y]|] eqn:Hfind; [|done].
    intros [= <- <-].
    change (<[S i := b]> (x :: books)) with (x :: <[i := b]> books).
    rewrite !lookup_book_cons, (IH i) by done.
    destruct (decide (id x = other)) as [<-|]; [|done].
    destruct (decide (id x = id b)); [congruence | done].
Qed.

(** getBook's answer is read off the store alone. *)
Lemma getBook_same_catalog (bookId : jsstring) (w w' : World) :
  catalog w' = catalog w -> fst (getBook bookId w') = fst (getBook bookId w).
Proof.
  intros Hc.
  destruct (getBook_run bookId w) as (w1 & -> & _).
  destruct (getBook_run bookId w') as (w2 & -> & _). simpl. by rewrite Hc.
Qed.

Lemma getBook_fst (bookId : jsstring) (w : World) :
  fst (getBook bookId w) = Ok (lookup_book bookId (catalog w)).
Proof. by destruct (getBook_run bookId w) as (w1 & -> & _). Qed.

(** The probe's verdict is read off the files alone. *)
Lemma readable_same_files (p : jsstring) (w w' : World) :
  files w' = files w -> readable p w' = readable p w.
Proof. intros Hf. unfold readable. by rewrite Hf. Qed.

(** What a returned addBook went through. *)
Lemma addBook_ok_inv book fileUri w b' w' :
  addBook book fileUri w = (Ok b', w') ->
  let path := localFilePathOf book fileUri in
  exists w1,
    materialize book fileUri w = (Ok path, w1)
    /\ readable path w1 = true
    /\ b' = with_filePath book path
    /\ files w' = files w1
    /\ contentCache w' = contentCache w1.
Proof.
  unfold addBook. rewrite (try_rethrow (A := Book)). simpl.
  intros [(p & w1 & Hm & Hk)|(e & _ & [=])]%bind_inv.
  pose proof (materialize_path _ _ _ _ _ Hm) as ->.
  exists w1. split; [done|].
  unfold bind in Hk.
  destruct (isFileReadable_run (localFilePathOf book fileUri) w1) as (w2 & Hr & Hs).
  rewrite Hr in Hk. destruct (readable _ w1); simpl in Hk; [|done].
  rewrite getBooks_run, saveBooks_run in Hk. simpl in Hk.
  destruct (rejects (SetItem _ _)); [done|]. injection Hk as <- <-.
  destruct Hs as (_ & Hf & Hc). done.
Qed.

(** What is read back differs from a record that holds a Date object. *)
Lemma stored_of_date (book : Book) (iso : jsstring) :
  lastRead book = Some (DateObject iso) ->
  lastRead (stored book) = Some (DateString iso) /\ stored book <> book.
Proof.
  intros Hd. assert (lastRead (stored book) = Some (DateString iso)) as Hs.
  { unfold stored. simpl. by rewrite Hd. }
  split; [done|]. intros Heq. rewrite Heq, Hd in Hs. done.
Qed.

(** X4.  After addBook has returned for an id that was not in the catalog
    (the store being readable), the catalog is the old one with the new
    record at the end in its stored form, and getBook of that id returns
    that stored form: the record addBook returned with each Date replaced by
    the string it was written as.  It has the id, title, filePath and
    fileType of the record returned, but it is another record whenever the
    one returned holds a Date in lastRead, as the one importBook builds
    does.  The filePath is the materialized path and passes the readability
    probe again, and getBook of any other id answers as before. *)
Theorem addBook_then_getBook (book : Book) (fileUri : jsstring) (w w' : World) (b' : Book) :
  addBook book fileUri w = (Ok b', w') ->
  rejects (GetItem BOOKS_STORAGE_KEY) = false ->
  id book ∉ (id <$> catalog w) ->
  catalog w' = catalog w ++ [stored b']
  /\ fst (getBook (id book) w') = Ok (Some (stored b'))
  /\ (id (stored b') = id b' /\ title (stored b') = title b'
      /\ filePath (stored b') = filePath b' /\ fileType (stored b') = fileType b')
  /\ (forall iso, lastRead b' = Some (DateObject iso) ->
      lastRead (stored b') = Some (DateString iso) /\ stored b' <> b')
  /\ filePath b' = localFilePathOf book fileUri
  /\ fst (isFileReadable (filePath b') w') = Ok true
  /\ (forall other, other <> id book ->
      fst (getBook other w') = fst (getBook other w)).
Proof.
  intros Hadd Hget Hfresh.
  assert (catalog w' = catalog w ++ [stored b']) as Hcat.
  { apply addBook_cases in Hadd as [[_ [e [=]]]|[[= <-] Hs]].
    erewrite catalog_saved, Hget; [apply stored_catalog_app|].
    rewrite Hs. apply lookup_insert_eq. }
  destruct (addBook_ok_inv _ _ _ _ _ Hadd) as (w1 & _ & Hread & -> & Hf & _).
  split; [done|]. rewrite !getBook_fst, Hcat.
  split; [|split; [done|split; [apply stored_of_date|split; [done|split]]]].
  - rewrite lookup_book_app_fresh by done. simpl.
    by destruct (decide (id book = id book)).
  - simpl. destruct (isFileReadable_run (localFilePathOf book fileUri) w') as (w2 & -> & _).
    simpl. rewrite (readable_same_files _ w1 w') by done. by rewrite Hread.
  - intros other Hne. rewrite !getBook_fst, Hcat, lookup_book_app_fresh by done. simpl.
    destruct (decide (id book = other)) as [Heq|]; [|done]. destruct Hne. by rewrite <- Heq.
Qed.

Lemma deleteBook_run (bookId : jsstring) (w : World) :
  deleteBook bookId w
  = let w0 := record_call (GetItem BOOKS_STORAGE_KEY) w in
    match lookup_book bookId (catalog w) with
    | None => (Ok tt, w0)
    | Some b =>
      let w1 := record_call (Delete (filePath b)) w0 in
      saveBooks (filter (fun book => id book <> bookId) (catalog w))
        (if rejects (Delete (filePath b)) then w1
         else match files w !! filePath b with
              | Some _ => set_files (delete (filePath b) (files w)) w1
              | None => w1
              end)
    end.
Proof.
  unfold deleteBook, lookup_book. rewrite (try_rethrow (A := unit)).
  unfold bind at 1. rewrite getBooks_run.
  destruct (list_find _ (catalog w)) as [[i b]|]; simpl; [|done].
  unfold bind, try_catch, Host.deleteAsync, Host.call, ret. simpl.
  destruct (rejects (Delete (filePath b))); [done|].
  by destruct (files w !! filePath b).
Qed.

(** X5.  After deleteBook has returned, the catalog is the old one without
    the records of that id: getBook of the id returns null and getBook of
    any other id answers as before.  The only file that can have gone is the
    backing file of the record found, and it is gone whenever the host
    accepted the deletion. *)
Theorem deleteBook_then_getBook (bookId : jsstring) (w w' : World) :
  deleteBook bookId w = (Ok tt, w') ->
  catalog w' = filter (fun book => id book <> bookId) (catalog w)
  /\ fst (getBook bookId w') = Ok None
  /\ (forall other, other <> bookId ->
      fst (getBook other w') = fst (getBook other w))
  /\ (forall p, (forall b, lookup_book bookId (catalog w) = Some b -> p <> filePath b) ->
      files w' !! p = files w !! p)
  /\ (forall b, lookup_book bookId (catalog w) = Some b ->
      rejects (Delete (filePath b)) = false ->
      files w' !! filePath b = None).
Proof.
  rewrite deleteBook_run. simpl. intros Hrun.
  assert (catalog w' = filter (fun book => id book <> bookId) (catalog w)
          /\ (forall p, (forall b, lookup_book bookId (catalog w) = Some b -> p <> filePath b) ->
              files w' !! p = files w !! p)
          /\ (forall b, lookup_book bookId (catalog w) = Some b ->
              rejects (Delete (filePath b)) = false ->
              files w' !! filePath b = None)) as (Hcat & Hfiles & Hgone).
  { destruct (lookup_book bookId (catalog w)) as [b|] eqn:Hfind.
    - assert (rejects (GetItem BOOKS_STORAGE_KEY) = false) as Hget.
      { destruct (rejects (GetItem BOOKS_STORAGE_KEY)) eqn:Hr; [|done].
        by rewrite catalog_rejected in Hfind. }
      rewrite saveBooks_run in Hrun. simpl in Hrun.
      destruct (rejects (SetItem _ _)); [done|]. injection Hrun as <-.
      split; [|split].
      + erewrite catalog_saved, Hget; [apply stored_catalog_filter|].
        simpl. apply lookup_insert_eq.
      + intros p Hp. specialize (Hp b eq_refl). simpl.
        destruct (rejects (Delete (filePath b))); [done|].
        destruct (files w !! filePath b); [|done]. simpl. by rewrite lookup_delete_ne.
      + intros b0 [= <-] Hacc. simpl. rewrite Hacc.
        destruct (files w !! filePath b) eqn:Hf; simpl; [|done]. apply lookup_delete_eq.
    - injection Hrun as <-. split; [|split; [done | done]].
      rewrite (catalog_same_storage w) by done.
      apply lookup_book_None in Hfind. by rewrite filter_other_ids. }
  split; [done|]. rewrite !getBook_fst, Hcat, lookup_book_filter.
  split; [by destruct (decide (bookId = bookId))|].
  split; [|done].
  intros other Hne. rewrite !getBook_fst, Hcat, lookup_book_filter.
  by destruct (decide (other = bookId)).
Qed.

Lemma updateBook_run (b : Book) (w : World) :
  updateBook b w
  = let w0 := record_call (GetItem BOOKS_STORAGE_KEY) w in
    match list_find (fun book => id book = id b) (catalog w) with
    | Some (index, _) => saveBooks (<[index := b]> (catalog w)) w0
    | None => (Err (RecordNotFoundError (id b)), w0)
    end.
Proof.
  unfold updateBook. rewrite (try_rethrow (A := unit)).
  unfold bind. rewrite getBooks_run.
  by destruct (list_find _ (catalog w)) as [[i old]|].
Qed.

Lemma updateBook_saved (updatedBook : Book) (w w' : World) :
  updateBook updatedBook w = (Ok tt, w') ->
  exists index old,
    list_find (fun book => id book = id updatedBook) (catalog w) = Some (index, old)
    /\ catalog w' = <[index := stored updatedBook]> (catalog w)
    /\ files w' = files w
    /\ contentCache w' = contentCache w.
Proof.
  rewrite updateBook_run. simpl.
  destruct (list_find _ (catalog w)) as [[index old]|] eqn:Hfind; [|done].
  rewrite saveBooks_run. simpl. destruct (rejects (SetItem _ _)); [done|].
  intros [= <-]. exists index, old. split; [done|]. split; [|done].
  assert (rejects (GetItem BOOKS_STORAGE_KEY) = false) as Hget.
  { destruct (rejects (GetItem BOOKS_STORAGE_KEY)) eqn:Hr; [|done].
    by rewrite catalog_rejected in Hfind. }
  erewrite catalog_saved, Hget; [apply stored_catalog_insert|].
  simpl. apply lookup_insert_eq.
Qed.

(** X6.  After updateBook has returned, getBook of the record's id returns
    the new record in its stored form, each Date replaced by the string it
    was written as: another record than the one handed in whenever that one
    holds a Date in lastRead, as the one loadBook hands in does.  getBook of
    any other id answers as before, the catalog has as many records as it
    had, and neither a file nor the cache has been touched. *)
Theorem updateBook_then_getBook (updatedBook : Book) (w w' : World) :
  updateBook updatedBook w = (Ok tt, w') ->
  fst (getBook (id updatedBook) w') = Ok (Some (stored updatedBook))
  /\ (forall iso, lastRead updatedBook = Some (DateObject iso) ->
      lastRead (stored updatedBook) = Some (DateString iso)
      /\ stored updatedBook <> updatedBook)
  /\ (forall other, other <> id updatedBook ->
      fst (getBook other w') = fst (getBook other w))
  /\ length (catalog w') = length (catalog w)
  /\ files w' = files w
  /\ contentCache w' = contentCache w.
Proof.
  intros (index & old & Hfind & Hcat & Hf & Hc)%updateBook_saved.
  rewrite getBook_fst, Hcat, (lookup_book_insert (stored updatedBook) _ index old) by done.
  change (id (stored updatedBook)) with (id updatedBook).
  split; [by destruct (decide (id updatedBook = id updatedBook))|].
  split; [apply stored_of_date|].
  split; [|by rewrite length_insert].
  intros other Hne.
  rewrite !getBook_fst, Hcat, (lookup_book_insert (stored updatedBook) _ index old) by done.
  change (id (stored updatedBook)) with (id updatedBook).
  by destruct (decide (other = id updatedBook)).
Qed.

Lemma initialize_keeps_entries (w : World) (p : jsstring) (node : FsNode) :
  files w !! p = Some node -> files (snd (initialize w)) !! p = Some node.
Proof.
  intros Hp. rewrite initialize_run. simpl.
  destruct (rejects (GetInfo BOOKS_DIR)); [done|].
  destruct (files w !! BOOKS_DIR) eqn:Hd; [done|].
  destruct (rejects (MakeDirectory BOOKS_DIR)); [done|]. simpl.
  rewrite lookup_insert_ne; [done|]. intros <-. congruence.
Qed.

Lemma fileExtOf_text (book : Book) (fileUri : jsstring) :
  includes (fileType book) TEXT_PLAIN = true -> fileExtOf book fileUri = js "txt".
Proof. intros Ht. unfold fileExtOf. by rewrite Ht. Qed.

(** Bringing a plain-text source to its path caches the decoded text on
    the way, on either route. *)
Lemma materialize_text_caches
    (book : Book) (fileUri : jsstring) (w w1 : World) (path : jsstring)
    (data : list N) (content : jsstring) :
  includes (fileType book) TEXT_PLAIN = true ->
  files w !! fileUri = Some (File data) ->
  utf8_decode data = Some content ->
  rejects (ReadAsString fileUri UTF8 None) = false ->
  materialize book fileUri w = (Ok path, w1) ->
  contentCache w1 !! path = Some content
  /\ (files w1 !! path = Some (File (utf8_encode content))
      \/ files w1 !! path = Some (File data)).
Proof.
  intros Htxt Hsrc Hdec Hacc Hm.
  pose proof (materialize_path _ _ _ _ _ Hm) as ->.
  set (path := localFilePathOf book fileUri) in *.
  unfold materialize in Hm. rewrite fileExtOf_text in Hm by done.
  rewrite bool_decide_eq_true_2 in Hm by done.
  apply bind_inv in Hm as [([] & wi & Hi & Hm)|(e & _ & [=])].
  pose proof (initialize_keeps_entries w fileUri _ Hsrc) as Hsrc'.
  rewrite Hi in Hsrc'. simpl in Hsrc'.
  apply bind_inv in Hm as [([] & wc & Hm & Hret)|(e & _ & [=])].
  injection Hret as <-. fold path in Hm.
  unfold try_catch, bind, cache_put, Host.readAsStringAsync, Host.writeAsStringAsync,
    Host.copyAsync, Host.call in Hm.
  rewrite Hacc in Hm. simpl in Hm. rewrite Hsrc' in Hm. simpl in Hm.
  rewrite Hdec in Hm. simpl in Hm.
  destruct (rejects (WriteAsString path content)); simpl in Hm.
  - destruct (rejects (Copy fileUri path)); [done|]. simpl in Hm.
    rewrite Hsrc' in Hm. simpl in Hm. injection Hm as <-. simpl.
    rewrite !lookup_insert_eq. eauto.
  - destruct (files wi !! path) as [[|d]|] eqn:Hp; simpl in Hm.
    + destruct (rejects (Copy fileUri path)); [done|]. simpl in Hm.
      rewrite Hsrc' in Hm. simpl in Hm. injection Hm as <-. simpl.
      rewrite !lookup_insert_eq. eauto.
    + injection Hm as <-. simpl. rewrite !lookup_insert_eq. eauto.
    + injection Hm as <-. simpl. rewrite !lookup_insert_eq. eauto.
Qed.

(** X7.  Importing a plain-text book whose source the host lets addBook
    read as UTF-8 leaves the decoded text in the cache under the record's
    filePath, whether the file got there by the UTF-8 write or by the
    fallback copy; the file at that path is then the re-encoded text or the
    copied source, and, the text being non-empty, the first readBookContent
    of the new record is served from the cache without any platform call. *)
Theorem addBook_text_primes_cache
    (book : Book) (fileUri : jsstring) (w w' : World) (b' : Book)
    (data : list N) (content : jsstring) :
  includes (fileType book) TEXT_PLAIN = true ->
  files w !! fileUri = Some (File data) ->
  utf8_decode data = Some content ->
  rejects (ReadAsString fileUri UTF8 None) = false ->
  addBook book fileUri w = (Ok b', w') ->
  contentCache w' !! filePath b' = Some content
  /\ (files w' !! filePath b' = Some (File (utf8_encode content))
      \/ files w' !! filePath b' = Some (File data))
  /\ (content <> [] ->
      readBookContent (filePath b') (fileType b') w' = (Ok content, w')).
Proof.
  intros Htxt Hsrc Hdec Hacc Hadd.
  destruct (addBook_ok_inv _ _ _ _ _ Hadd) as (w1 & Hm & _ & -> & Hf & Hc).
  simpl. rewrite Hf, Hc.
  destruct (materialize_text_caches _ _ _ _ _ _ _ Htxt Hsrc Hdec Hacc Hm)
    as [Hcache Hfile].
  split; [done|]. split; [done|].
  intros Hne. unfold readBookContent. rewrite Hc, Hcache. by destruct content.
Qed.

Lemma append_after_last_dot (s1 s2 e1 e2 : jsstring) :
  0x2E ∉ e1 -> 0x2E ∉ e2 ->
  s1 ++ 0x2E :: e1 = s2 ++ 0x2E :: e2 -> s1 = s2 /\ e1 = e2.
Proof.
  intros H1 H2. revert s2.
  induction s1 as [|c s1 IH]; intros [|c' s2] Heq; simpl in Heq.
  - by injection Heq as ->.
  - injection Heq as <- ->. destruct H1. apply elem_of_app. right. by left.
  - injection Heq as -> <-. destruct H2. apply elem_of_app. right. by left.
  - injection Heq as -> Heq. destruct (IH _ Heq) as [-> ->]. done.
Qed.

Lemma fileExtOf_recognized (book : Book) (fileUri : jsstring) :
  recognized (fileType book) = true ->
  fileExtOf book fileUri ∈ [js "txt"; js "pdf"; js "epub"].
Proof.
  unfold recognized, fileExtOf. intros Hr.
  destruct (includes (fileType book) TEXT_PLAIN); [by left|].
  destruct (includes (fileType book) APPLICATION_PDF); [right; by left|].
  destruct (includes (fileType book) APPLICATION_EPUB); [|done].
  right. right. by left.
Qed.

(** X8.  A book of a recognized type is stored under the extension txt, pdf
    or epub.  Two imports whose extensions contain no dot, in particular two
    of recognized types, get the same target path only if their ids are
    equal: records with distinct ids never share a backing file. *)
Theorem localFilePathOf_separates_ids :
  (forall book fileUri,
      recognized (fileType book) = true ->
      fileExtOf book fileUri ∈ [js "txt"; js "pdf"; js "epub"])
  /\ (forall b1 u1 b2 u2,
         0x2E ∉ fileExtOf b1 u1 -> 0x2E ∉ fileExtOf b2 u2 ->
         localFilePathOf b1 u1 = localFilePathOf b2 u2 ->
         id b1 = id b2 /\ fileExtOf b1 u1 = fileExtOf b2 u2)
  /\ (forall b1 u1 b2 u2,
         recognized (fileType b1) = true -> recognized (fileType b2) = true ->
         localFilePathOf b1 u1 = localFilePathOf b2 u2 ->
         id b1 = id b2).
Proof.
  assert (forall b1 u1 b2 u2,
             0x2E ∉ fileExtOf b1 u1 -> 0x2E ∉ fileExtOf b2 u2 ->
             localFilePathOf b1 u1 = localFilePathOf b2 u2 ->
             id b1 = id b2 /\ fileExtOf b1 u1 = fileExtOf b2 u2) as Hsep.
  { intros b1 u1 b2 u2 H1 H2 Heq. unfold localFilePathOf in Heq.
    apply app_inv_head in Heq. by apply append_after_last_dot. }
  split; [exact fileExtOf_recognized|]. split; [exact Hsep|].
  intros b1 u1 b2 u2 Hr1 Hr2 Heq.
  assert (forall b u, recognized (fileType b) = true -> 0x2E ∉ fileExtOf b u) as Hdot.
  { intros b u Hr. pose proof (fileExtOf_recognized b u Hr) as Hin.
    apply elem_of_cons in Hin as [->|Hin]; [by apply (bool_decide_unpack _)|].
    apply elem_of_cons in Hin as [->|Hin]; [by apply (bool_decide_unpack _)|].
    apply list_elem_of_singleton in Hin as ->. by apply (bool_decide_unpack _). }
  by destruct (Hsep b1 u1 b2 u2) as [? _]; auto.
Qed.

(** X9.  deleteBook never touches the content cache, whatever its outcome:
    a non-empty text cached for a path, the deleted book's own path
    included, is still what readBookContent returns afterwards, without any
    platform call. *)
Theorem deleteBook_keeps_cache (bookId : jsstring) (w : World) :
  contentCache (snd (deleteBook bookId w)) = contentCache w
  /\ forall filePath fileType text,
       contentCache w !! filePath = Some text -> text <> [] ->
       readBookContent filePath fileType (snd (deleteBook bookId w))
       = (Ok text, snd (deleteBook bookId w)).
Proof.
  assert (contentCache (snd (deleteBook bookId w)) = contentCache w) as Hc.
  { rewrite deleteBook_run. simpl.
    destruct (lookup_book bookId (catalog w)) as [b|]; [|done].
    rewrite saveBooks_run. simpl.
    destruct (rejects (SetItem _ _)), (rejects (Delete (filePath b))),
      (files w !! filePath b); done. }
  split; [done|]. intros p t text Hp Hne.
  unfold readBookContent. rewrite Hc, Hp. by destruct text.
Qed.

Lemma read_text_run (p : jsstring) (w : World) :
  read_text p w
  = let c1 := ReadAsString p UTF8 None in
    let c2 := ReadAsString p Base64 None in
    let w1 := record_call c1 w in
    let w2 := record_call c2 w1 in
    match (if rejects c1 then None
           else match files w !! p with
                | Some (File data) => utf8_decode data
                | _ => None
                end) with
    | Some text => (Ok text, set_cache (<[p := text]> (contentCache w)) w1)
    | None =>
      if rejects c2 then (Err (PlatformError c2), w2)
      else match files w !! p with
           | Some (File data) =>
             (Ok (Buffer_base64_to_utf8 (base64_encode data)),
              set_cache (<[p := Buffer_base64_to_utf8 (base64_encode data)]>
                           (contentCache w)) w2)
           | _ => (Err (PlatformError c2), w2)
           end
    end.
Proof.
  unfold read_text, bind, try_catch, cache_put, ret, Host.readAsStringAsync, Host.call.
  simpl. destruct (rejects (ReadAsString p UTF8 None)); simpl.
  - destruct (rejects (ReadAsString p Base64 None)); simpl; [done|].
    by destruct (files w !! p) as [[|data]|].
  - destruct (files w !! p) as [[|data]|] eqn:Hf; simpl.
    + destruct (rejects (ReadAsString p Base64 None)); simpl; [done|]. by rewrite Hf.
    + destruct (utf8_decode data); simpl; [done|].
      destruct (rejects (ReadAsString p Base64 None)); simpl; [done|]. by rewrite Hf.
    + destruct (rejects (ReadAsString p Base64 None)); simpl; [done|]. by rewrite Hf.
Qed.

(** X10.  A plain-text read that is not served from the cache ends in one
    of two ways.  It returns a text, which is then exactly what the cache
    holds for the path; or it throws, and then the error is that of the
    Base64 read (the UTF-8 error is never reported) and the cache is left as
    it was.  It throws whenever the path holds no file, and when the bytes
    do not decode as UTF-8 it returns the Buffer decoding of the Base64
    text.  In no case is a file or the store changed. *)
Theorem readBookContent_text_outcomes (filePath fileType : jsstring) (w : World) :
  includes fileType TEXT_PLAIN = true ->
  truthy (contentCache w !! filePath) = false ->
  (forall text w', readBookContent filePath fileType w = (Ok text, w') ->
      contentCache w' = <[filePath := text]> (contentCache w))
  /\ (forall e w', readBookContent filePath fileType w = (Err e, w') ->
      e = PlatformError (ReadAsString filePath Base64 None)
      /\ contentCache w' = contentCache w)
  /\ ((forall data, files w !! filePath <> Some (File data)) ->
      exists w', readBookContent filePath fileType w
                 = (Err (PlatformError (ReadAsString filePath Base64 None)), w'))
  /\ (forall data, files w !! filePath = Some (File data) ->
      utf8_decode data = None ->
      rejects (ReadAsString filePath Base64 None) = false ->
      fst (readBookContent filePath fileType w)
      = Ok (Buffer_base64_to_utf8 (base64_encode data)))
  /\ (forall r w', readBookContent filePath fileType w = (r, w') ->
      files w' = files w /\ storage w' = storage w).
Proof.
  intros Htxt Hmiss.
  assert (readBookContent filePath fileType w = read_text filePath w) as ->.
  { unfold readBookContent. rewrite Hmiss, Htxt. by rewrite (try_rethrow (A := jsstring)). }
  rewrite read_text_run. simpl.
  destruct (rejects (ReadAsString filePath UTF8 None)); simpl;
    destruct (files w !! filePath) as [[|data]|] eqn:Hf; simpl;
    try destruct (utf8_decode data) as [text|] eqn:Hd; simpl;
    destruct (rejects (ReadAsString filePath Base64 None)); simpl;
    (split; [by intros ? ? [= <- <-]|]);
    (split; [by intros ? ? [= <- <-]|]);
    (split; [first [by eauto | intros Hno; by destruct (Hno data)]|]);
    (split; [intros ? ? ? ?; by simplify_eq/=|]);
    by intros ? ? [= _ <-].
Qed.

Lemma split_after_last (sep : N) (pre suf : jsstring) :
  sep ∉ suf ->
  List.last (split sep (pre ++ sep :: suf)) [] = suf
  /\ (1 < length (split sep (pre ++ sep :: suf)))%nat.
Proof.
  intros Hsuf. induction pre as [|c pre [IH1 IH2]]; simpl.
  - rewrite N.eqb_refl. rewrite ImportClaims.split_without_separator by done.
    split; [done | simpl; lia].
  - destruct (c =? sep).
    + destruct (split sep (pre ++ sep :: suf)) as [|p ps] eqn:Hs; [simpl in IH2; lia|].
      split; [done | simpl; lia].
    + destruct (split sep (pre ++ sep :: suf)) as [|p [|p' ps]] eqn:Hs;
        simpl in IH2; try lia.
      split; [done | simpl; lia].
Qed.

(** X11.  The extension addBook stores a book under: txt as soon as the
    type contains text/plain (even if it also names another type), else pdf
    for application/pdf, else epub for application/epub+zip; and for any
    other type the lower-cased part of the source location after its last
    dot, which is the empty string when the location ends in a dot. *)
Theorem fileExtOf_cases (book : Book) (fileUri : jsstring) :
  (includes (fileType book) TEXT_PLAIN = true -> fileExtOf book fileUri = js "txt")
  /\ (includes (fileType book) TEXT_PLAIN = false ->
      includes (fileType book) APPLICATION_PDF = true ->
      fileExtOf book fileUri = js "pdf")
  /\ (includes (fileType book) TEXT_PLAIN = false ->
      includes (fileType book) APPLICATION_PDF = false ->
      includes (fileType book) APPLICATION_EPUB = true ->
      fileExtOf book fileUri = js "epub")
  /\ (recognized (fileType book) = false ->
      forall pre suf,
        fileUri = pre ++ 0x2E :: suf -> 0x2E ∉ suf ->
        fileExtOf book fileUri = toLowerCase suf
        /\ localFilePathOf book fileUri = BOOKS_DIR ++ id book ++ 0x2E :: toLowerCase suf).
Proof.
  unfold recognized, localFilePathOf, fileExtOf.
  split; [by intros ->|]. split; [by intros -> ->|]. split; [by intros -> -> ->|].
  intros Hr pre suf -> Hsuf.
  destruct (includes (fileType book) TEXT_PLAIN); [done|].
  destruct (includes (fileType book) APPLICATION_PDF); [done|].
  destruct (includes (fileType book) APPLICATION_EPUB); [done|].
  destruct (split_after_last 0x2E pre suf Hsuf) as [Hlast Hlen].
  apply Nat.ltb_lt in Hlen. by rewrite Hlen, Hlast.
Qed.

End WithPlatform.
End StorageProperties.

(** ** Properties of the reader screen *)

Module ReaderProperties.
Import MonadFacts Screen BookStorage BookStorageFacts StorageSpec StorageProperties
  ReaderScreen.

Lemma taps_snoc (ts : list Tap) (t : Tap) (s : State) :
  taps (ts ++ [t]) s = tap t (taps ts s).
Proof. unfold taps. by rewrite foldl_app. Qed.

Lemma tap_mode_invariant (t : Tap) (s : State) :
  mode_invariant s -> mode_invariant (tap t s).
Proof.
  intros (Hs & Hr & Ht & Ho). unfold mode_invariant.
  destruct t; simpl; unfold handleCenterTap; try destruct (readerMode s) eqn:Hm;
    simpl; repeat split; intros; try done; auto.
Qed.

(** X12.  Whatever the user taps, starting from the mounted screen: the
    reader is never in SETTINGS mode, the controls are driven to opacity 0
    whenever the mode is READING and to 0 or 1 always, and the table of
    contents is visible whenever the mode is TOC. *)
Theorem reader_mode_invariants (ts : list Tap) (darkScheme : bool) :
  let s := taps ts (initial darkScheme) in
  readerMode s <> SETTINGS
  /\ (readerMode s = READING -> controlsOpacity s = 0%Z)
  /\ (readerMode s = TOC -> isTableOfContentsVisible s = true)
  /\ (controlsOpacity s = 0%Z \/ controlsOpacity s = 1%Z).
Proof.
  simpl. change (mode_invariant (taps ts (initial darkScheme))).
  induction ts as [|t ts IH] using rev_ind.
  - unfold mode_invariant. simpl. repeat split; try done. by left.
  - rewrite taps_snoc. by apply tap_mode_invariant.
Qed.

Lemma tap_fontSize (t : Tap) (s : State) :
  (12 <= fontSize (settings s) <= 32)%Z ->
  (12 <= fontSize (settings (tap t s)) <= 32)%Z
  /\ fontFamily (settings (tap t s)) = fontFamily (settings s)
  /\ lineHeight (settings (tap t s)) = lineHeight (settings s)
  /\ theme (settings (tap t s)) = theme (settings s).
Proof.
  intros Hf. destruct t; simpl; unfold handleCenterTap;
    try destruct (readerMode s); simpl; repeat split; try done; lia.
Qed.

(** X13.  The font size stays between 12 and 32 under any run of taps that
    starts within that range, and no tap changes the font family, the line
    height or the theme.  A+ adds 2 but stops at 32, A- takes 2 but stops at
    12, so below 31 an A- undoes an A+. *)
Theorem fontSize_stays_in_range (ts : list Tap) (s : State) :
  (12 <= fontSize (settings s) <= 32)%Z ->
  ((12 <= fontSize (settings (taps ts s)) <= 32)%Z
   /\ fontFamily (settings (taps ts s)) = fontFamily (settings s)
   /\ lineHeight (settings (taps ts s)) = lineHeight (settings s)
   /\ theme (settings (taps ts s)) = theme (settings s))
  /\ fontSize (settings (increaseFontSize s))
     = (if (fontSize (settings s) <=? 30)%Z then fontSize (settings s) + 2 else 32)%Z
  /\ fontSize (settings (decreaseFontSize s))
     = (if (14 <=? fontSize (settings s))%Z then fontSize (settings s) - 2 else 12)%Z
  /\ ((fontSize (settings s) <= 30)%Z ->
      fontSize (settings (decreaseFontSize (increaseFontSize s))) = fontSize (settings s)).
Proof.
  intros Hf. split; [|split; [|split]].
  - induction ts as [|t ts IH] using rev_ind; [done|].
    rewrite taps_snoc. destruct IH as (IH1 & IH2 & IH3 & IH4).
    destruct (tap_fontSize t (taps ts s) IH1) as (? & ? & ? & ?).
    repeat split; try lia; congruence.
  - simpl. destruct (Z.leb_spec (fontSize (settings s)) 30); lia.
  - simpl. destruct (Z.leb_spec 14 (fontSize (settings s))); lia.
  - intros Hle. simpl. lia.
Qed.

Section WithPlatform.
Context `{Platform}.
Variable rejection_message : IoCall -> jsstring.

(** The steps of loadBook for an id that is given. *)
Lemma loadBook_run (language : Language) (now : jsstring) (id : option jsstring)
    (s : State) (w : World) :
  truthy id = true ->
  loadBook rejection_message language now id s w
  = let bookId := default [] id in
    let s0 := setError None (setLoading true s) in
    let w1 := snd (getBook bookId w) in
    match lookup_book bookId (catalog w) with
    | None =>
      (Ok tt, setLoading false (setError (Some (fileNotFound language)) s0), w1)
    | Some bookData =>
      let s1 := setBook (Some bookData) s0 in
      match Host.getInfoAsync (filePath bookData) w1 with
      | (Err e, w2) =>
        (Ok tt, setLoading false
                  (setError (Some (message_of rejection_message e)) s1), w2)
      | (Ok fileInfo, w2) =>
        if negb (fst fileInfo)
        then (Ok tt, setLoading false (setError (Some (fileNotFound language)) s1), w2)
        else
          match readBookContent (filePath bookData) (fileType bookData) w2 with
          | (Err _, w3) =>
            (Ok tt, setLoading false
                      (setError (Some (fileNotReadable language)) s1), w3)
          | (Ok bookContent, w3) =>
            (Ok tt,
             setLoading false
               (setContent bookContent
                  (if includes (fileType bookData) TEXT_PLAIN
                   then setChapters (Reader.detectedChapters bookContent) s1
                   else s1)),
             snd (updateBook (with_lastRead bookData now) w3))
          end
      end
    end.
Proof.
  intros Hid. unfold loadBook. rewrite Hid. simpl.
  unfold ui_finally, ui_try, ui_bind, modify, lift, ui_throw, ui_ret.
  destruct (getBook_run (default [] id) w) as (w1 & Hget & _).
  rewrite Hget. simpl.
  destruct (lookup_book (default [] id) (catalog w)) as [bookData|]; [|done].
  destruct (Host.getInfoAsync (filePath bookData) w1) as [[fileInfo|e] w2]; [|done].
  destruct (negb (fst fileInfo)); [done|].
  destruct (readBookContent (filePath bookData) (fileType bookData) w2)
    as [[bookContent|e] w3]; [|done].
  destruct (includes (fileType bookData) TEXT_PLAIN);
    by destruct (updateBook (with_lastRead bookData now) w3) as [[[]|e] w4].
Qed.

Lemma getInfoAsync_run (p : jsstring) (w : World) :
  Host.getInfoAsync p w
  = if rejects (GetInfo p)
    then (Err (PlatformError (GetInfo p)), record_call (GetInfo p) w)
    else (Ok (match files w !! p with
              | None => (false, false)
              | Some Directory => (true, true)
              | Some (File _) => (true, false)
              end), record_call (GetInfo p) w).
Proof. unfold Host.getInfoAsync, Host.call. by destruct (rejects (GetInfo p)). Qed.

(** What a read returns depends on the files and the cache, not on the
    calls made before. *)
Lemma readBookContent_same_state (p t : jsstring) (w w' : World) :
  same_state w w' ->
  fst (readBookContent p t w') = fst (readBookContent p t w).
Proof.
  intros (_ & Hf & Hc). unfold readBookContent. rewrite Hc.
  destruct (truthy (contentCache w !! p)); [done|].
  rewrite !(try_rethrow (A := jsstring)).
  destruct (includes t TEXT_PLAIN); [|by repeat case_match].
  rewrite !read_text_run. simpl. rewrite Hf, Hc.
  by repeat case_match.
Qed.

Lemma same_state_trans (a b c : World) :
  same_state a b -> same_state b c -> same_state a c.
Proof. intros (?&?&?) (?&?&?). unfold same_state. repeat split; congruence. Qed.

(** X14.  loadBook never throws.  Without an id it does nothing at all, so
    a screen mounted without one keeps its loading flag.  With an id it ends
    with the loading flag off and with no error, or with one of three
    messages: file not found, file not readable, or the host's message for a
    refused file-info call; the mode, the settings and the other cells of
    the screen are not touched. *)
Theorem loadBook_settles (language : Language) (now : jsstring)
    (id : option jsstring) (s : State) (w : World) :
  exists s' w',
    loadBook rejection_message language now id s w = (Ok tt, s', w')
    /\ (truthy id = false -> s' = s /\ w' = w)
    /\ (truthy id = true ->
        loading s' = false
        /\ (error s' = None
            \/ error s' = Some (fileNotFound language)
            \/ error s' = Some (fileNotReadable language)
            \/ exists p, error s' = Some (rejection_message (GetInfo p))))
    /\ readerMode s' = readerMode s
    /\ controlsOpacity s' = controlsOpacity s
    /\ settings s' = settings s
    /\ isTableOfContentsVisible s' = isTableOfContentsVisible s
    /\ isSettingsVisible s' = isSettingsVisible s
    /\ refreshKey s' = refreshKey s.
Proof.
  destruct (truthy id) eqn:Hid.
  2:{ exists s, w. unfold loadBook. rewrite Hid. simpl. by repeat split. }
  rewrite loadBook_run by done. simpl.
  destruct (lookup_book (default [] id) (catalog w)) as [bookData|].
  2:{ eexists _, _. split; [done|]. split; [done|]. split; [|done].
      intros _. split; [done|]. right. by left. }
  rewrite getInfoAsync_run.
  destruct (rejects (GetInfo (filePath bookData))).
  { eexists _, _. split; [done|]. split; [done|]. split; [|done].
    intros _. split; [done|]. right. right. right. by eexists. }
  destruct (negb _).
  { eexists _, _. split; [done|]. split; [done|]. split; [|done].
    intros _. split; [done|]. right. by left. }
  destruct (readBookContent _ _ _) as [[bookContent|e] w3].
  - eexists _, _. split; [done|]. split; [done|]. split.
    + intros _. split; [done|]. left.
      by destruct (includes (fileType bookData) TEXT_PLAIN).
    + by destruct (includes (fileType bookData) TEXT_PLAIN).
  - eexists _, _. split; [done|]. split; [done|]. split; [|done].
    intros _. split; [done|]. right. right. by left.
Qed.

(** X15.  When no record carries the id, or the record found points at a
    path where the host finds nothing, loadBook reports file not found and
    changes neither the content and chapters on screen nor the store, the
    files or the cache: a text still cached for the path is not shown, and
    the record's lastRead is not updated. *)
Theorem loadBook_file_not_found (language : Language) (now : jsstring)
    (id : option jsstring) (s : State) (w : World) :
  truthy id = true ->
  (lookup_book (default [] id) (catalog w) = None
   \/ exists bookData,
        lookup_book (default [] id) (catalog w) = Some bookData
        /\ rejects (GetInfo (filePath bookData)) = false
        /\ files w !! filePath bookData = None) ->
  exists s' w',
    loadBook rejection_message language now id s w = (Ok tt, s', w')
    /\ error s' = Some (fileNotFound language)
    /\ loading s' = false
    /\ content s' = content s
    /\ chapters s' = chapters s
    /\ same_state w w'.
Proof.
  intros Hid Hcase. rewrite loadBook_run by done. simpl.
  destruct (getBook_run (default [] id) w) as (w1 & Hget & Hs1).
  rewrite Hget. simpl.
  destruct Hcase as [->|(bookData & -> & Hacc & Hnone)].
  { by eexists _, _. }
  rewrite getInfoAsync_run, Hacc.
  destruct Hs1 as (Hst & Hf & Hc). rewrite Hf, Hnone. simpl.
  eexists _, _. split; [done|]. repeat split; done.
Qed.

(** What updateBook leaves of the store: it was refused or found nothing,
    or the record now reads back in its stored form. *)
Lemma updateBook_outcome (b : Book) (w : World) :
  storage (snd (updateBook b w)) = storage w
  \/ (fst (getBook (id b) (snd (updateBook b w))) = Ok (Some (stored b))
      /\ forall other, other <> id b ->
           fst (getBook other (snd (updateBook b w))) = fst (getBook other w)).
Proof.
  destruct (updateBook b w) as [[[]|e] w'] eqn:Hrun; simpl.
  - right. apply updateBook_saved in Hrun as (index & old & Hfind & Hcat & _).
    rewrite getBook_fst, Hcat, (lookup_book_insert (stored b) _ index old) by done.
    change (id (stored b)) with (id b).
    split; [by destruct (decide (id b = id b))|].
    intros other Hne.
    rewrite !getBook_fst, Hcat, (lookup_book_insert (stored b) _ index old) by done.
    change (id (stored b)) with (id b).
    by destruct (decide (other = id b)).
  - left. revert Hrun. rewrite updateBook_run. simpl.
    destruct (list_find _ (catalog w)) as [[i old]|]; [|by intros [= _ <-]].
    rewrite saveBooks_run. simpl. destruct (rejects (SetItem _ _)); [|done].
    by intros [= _ <-].
Qed.

(** The run of loadBook when the record is found, its path holds something
    and the read returns. *)
Lemma loadBook_read_ok (language : Language) (now : jsstring)
    (param : option jsstring) (s : State) (w : World)
    (bookData : Book) (text : jsstring) :
  truthy param = true ->
  lookup_book (default [] param) (catalog w) = Some bookData ->
  rejects (GetInfo (filePath bookData)) = false ->
  is_Some (files w !! filePath bookData) ->
  fst (readBookContent (filePath bookData) (fileType bookData) w) = Ok text ->
  exists w3,
    storage w3 = storage w
    /\ loadBook rejection_message language now param s w
       = (Ok tt,
          setLoading false
            (setContent text
               (if includes (fileType bookData) TEXT_PLAIN
                then setChapters (Reader.detectedChapters text)
                       (setBook (Some bookData) (setError None (setLoading true s)))
                else setBook (Some bookData) (setError None (setLoading true s)))),
          snd (updateBook (with_lastRead bookData now) w3)).
Proof.
  intros Hid Hfind Hacc Hex Hread. rewrite loadBook_run by done. simpl.
  destruct (getBook_run (default [] param) w) as (w1 & Hget & Hs1).
  rewrite Hget, Hfind. simpl. rewrite getInfoAsync_run, Hacc.
  assert (fst (match files w1 !! filePath bookData with
               | None => (false, false)
               | Some Directory => (true, true)
               | Some (File _) => (true, false)
               end) = true) as ->.
  { destruct Hs1 as (_ & -> & _). destruct Hex as [[|d] ->]; done. }
  simpl.
  set (w2 := record_call (GetInfo (filePath bookData)) w1).
  assert (same_state w w2) as Hs2 by (by destruct Hs1 as (?&?&?)).
  pose proof (readBookContent_same_state (filePath bookData) (fileType bookData)
                w w2 Hs2) as Hfst.
  rewrite Hread in Hfst.
  destruct (readBookContent (filePath bookData) (fileType bookData) w2)
    as [r w3] eqn:Hrun.
  simpl in Hfst. subst r. exists w3. split; [|done].
  apply CatalogClaims.readBookContent_frame in Hrun.
  destruct Hs2 as (Hst & _). unfold same_storage in Hrun. congruence.
Qed.

(** X16.  When the record is found, the host finds something at its path
    and a read of that path returns a text, loadBook shows that text with no
    error: the chapters are those detected in it for a plain-text book and
    are left as they were for any other type.  This holds whether or not the
    lastRead update goes through; when it does, getBook returns the record
    with the new date as it is stored, and no other record changes. *)
Theorem loadBook_shows_text (language : Language) (now : jsstring)
    (param : option jsstring) (s : State) (w : World)
    (bookData : Book) (text : jsstring) :
  truthy param = true ->
  lookup_book (default [] param) (catalog w) = Some bookData ->
  rejects (GetInfo (filePath bookData)) = false ->
  is_Some (files w !! filePath bookData) ->
  fst (readBookContent (filePath bookData) (fileType bookData) w) = Ok text ->
  exists s' w',
    loadBook rejection_message language now param s w = (Ok tt, s', w')
    /\ error s' = None
    /\ loading s' = false
    /\ book s' = Some bookData
    /\ content s' = text
    /\ chapters s'
       = (if includes (fileType bookData) TEXT_PLAIN
          then Reader.detectedChapters text else chapters s)
    /\ (storage w' = storage w
        \/ fst (getBook (default [] param) w')
           = Ok (Some (stored (with_lastRead bookData now))))
    /\ (forall other, other <> default [] param ->
        fst (getBook other w') = fst (getBook other w)).
Proof.
  intros Hid Hfind Hacc Hex Hread.
  destruct (loadBook_read_ok language now param s w bookData text)
    as (w3 & Hs3 & ->); try done.
  assert (id bookData = default [] param) as Hbid.
  { unfold lookup_book in Hfind.
    destruct (list_find _ (catalog w)) as [[i b]|] eqn:Hlf; [|done].
    injection Hfind as ->. by apply list_find_Some in Hlf as (_ & ? & _). }
  eexists _, _. split; [done|].
  split; [by destruct (includes (fileType bookData) TEXT_PLAIN)|].
  split; [by destruct (includes (fileType bookData) TEXT_PLAIN)|].
  split; [by destruct (includes (fileType bookData) TEXT_PLAIN)|].
  split; [by destruct (includes (fileType bookData) TEXT_PLAIN)|].
  split; [by destruct (includes (fileType bookData) TEXT_PLAIN)|].
  destruct (updateBook_outcome (with_lastRead bookData now) w3) as [Hsame|[Hnew Hothers]].
  - split; [left; congruence|].
    intros other Hne. apply getBook_same_catalog, catalog_same_storage. congruence.
  - simpl in Hnew, Hothers. rewrite Hbid in Hnew, Hothers. split; [by right|].
    intros other Hne. rewrite Hothers by done.
    by apply getBook_same_catalog, catalog_same_storage.
Qed.

(** X17.  When the record is found and the host finds something at its path
    but the read throws (the path is a directory, say, or the bytes cannot
    be had), loadBook reports file not readable, whatever the error thrown
    was; the content and chapters on screen stay those of the previous load,
    and the store is not written: lastRead is updated only after a read
    that returned. *)
Theorem loadBook_unreadable (language : Language) (now : jsstring)
    (param : option jsstring) (s : State) (w : World)
    (bookData : Book) (e : Error) :
  truthy param = true ->
  lookup_book (default [] param) (catalog w) = Some bookData ->
  rejects (GetInfo (filePath bookData)) = false ->
  is_Some (files w !! filePath bookData) ->
  fst (readBookContent (filePath bookData) (fileType bookData) w) = Err e ->
  exists s' w',
    loadBook rejection_message language now param s w = (Ok tt, s', w')
    /\ error s' = Some (fileNotReadable language)
    /\ loading s' = false
    /\ book s' = Some bookData
    /\ content s' = content s
    /\ chapters s' = chapters s
    /\ storage w' = storage w.
Proof.
  intros Hid Hfind Hacc Hex Hread. rewrite loadBook_run by done. simpl.
  destruct (getBook_run (default [] param) w) as (w1 & Hget & Hs1).
  rewrite Hget, Hfind. simpl. rewrite getInfoAsync_run, Hacc.
  assert (fst (match files w1 !! filePath bookData with
               | None => (false, false)
               | Some Directory => (true, true)
               | Some (File _) => (true, false)
               end) = true) as ->.
  { destruct Hs1 as (_ & -> & _). destruct Hex as [[|d] ->]; done. }
  simpl.
  set (w2 := record_call (GetInfo (filePath bookData)) w1).
  assert (same_state w w2) as Hs2 by (by destruct Hs1 as (?&?&?)).
  pose proof (readBookContent_same_state (filePath bookData) (fileType bookData)
                w w2 Hs2) as Hfst.
  rewrite Hread in Hfst.
  destruct (readBookContent (filePath bookData) (fileType bookData) w2)
    as [r w3] eqn:Hrun.
  simpl in Hfst. subst r.
  eexists _, _. split; [done|]. repeat split; try done.
  apply CatalogClaims.readBookContent_frame in Hrun.
  destruct Hs2 as (Hst & _). unfold same_storage in Hrun. simpl. congruence.
Qed.

End WithPlatform.
End ReaderProperties.

(** ** Properties of the bookshelf screen *)

Module BookshelfProperties.
Import MonadFacts Screen BookStorage BookStorageFacts StorageSpec StorageProperties
  BookshelfScreen.

Lemma extension_matches_dot (pre ext : jsstring) :
  extension_matches (pre ++ 0x2E :: ext) = false.
Proof.
  unfold extension_matches.
  destruct (pre ++ 0x2E :: ext) eqn:Heq; [done|]. rewrite <- Heq.
  rewrite forallb_app. simpl. by rewrite andb_false_r.
Qed.

Lemma extension_matches_true (ext : jsstring) :
  0x2E ∉ ext ->
  extension_matches ext = bool_decide (ext <> [] /\ 0x2F ∉ ext).
Proof.
  intros Hdot. destruct ext as [|c ext].
  { symmetry. apply bool_decide_eq_false_2. by intros [? _]. }
  unfold extension_matches.
  destruct (forallb _ (c :: ext)) eqn:Hall.
  - symmetry. apply bool_decide_eq_true_2. split; [done|].
    intros Hin. rewrite forallb_forall in Hall.
    apply list_elem_of_In, Hall in Hin. by rewrite N.eqb_refl in Hin.
  - symmetry. apply bool_decide_eq_false_2. intros [_ Hslash].
    assert (forallb (fun x => negb ((x =? 47) || (x =? 46))) (c :: ext) = true) as Ht;
      [|by rewrite Ht in Hall].
    apply forallb_forall. intros x Hx%list_elem_of_In.
    destruct (N.eqb_spec x 47) as [->|]; [done|].
    destruct (N.eqb_spec x 46) as [->|]; done.
Qed.

Lemma remove_extension_no_dot (s : jsstring) :
  0x2E ∉ s -> remove_extension s = s.
Proof.
  induction s as [|c s IH]; [done|]. intros Hdot. simpl.
  destruct (N.eqb_spec c 46) as [->|_].
  { destruct Hdot. by left. }
  simpl. rewrite IH; [done|]. intros Hin. apply Hdot. by right.
Qed.

(** X18.  The title importBook gives a book, [fileName.replace(/\.[^/.]+$/, '')]:
    a name without a dot is kept; a name with a dot is cut at its last dot
    when what follows that dot is not empty and holds no slash, and is kept
    otherwise.  So at most one extension goes, and a name that is an
    extension only gives the empty title. *)
Theorem remove_extension_cuts_at_last_dot (s : jsstring) :
  (0x2E ∉ s -> remove_extension s = s)
  /\ (forall pre ext,
        s = pre ++ 0x2E :: ext -> 0x2E ∉ ext ->
        remove_extension s
        = if bool_decide (ext <> [] /\ 0x2F ∉ ext) then pre else s).
Proof.
  split; [apply remove_extension_no_dot|].
  intros pre ext -> Hdot. rewrite <- extension_matches_true by done.
  induction pre as [|c pre IH].
  - simpl. destruct (extension_matches ext); [done|].
    simpl. by rewrite remove_extension_no_dot.
  - simpl. rewrite extension_matches_dot, andb_false_r, IH.
    by destruct (extension_matches ext).
Qed.

Lemma starts_with_spec (p s : jsstring) :
  starts_with p s = true <-> exists r, s = p ++ r.
Proof.
  revert s. induction p as [|a p IH]; intros s; simpl.
  { split; [by exists s|done]. }
  destruct s as [|b s].
  { split; [done|]. by intros [r [=]]. }
  rewrite andb_true_iff, IH, N.eqb_eq. split.
  - intros [-> [r ->]]. by exists r.
  - intros [r [= -> ->]]. split; [done|]. by exists r.
Qed.

Lemma includes_spec (s sub : jsstring) :
  includes s sub = true <-> exists pre post, s = pre ++ sub ++ post.
Proof.
  induction s as [|c s IH]; simpl; rewrite orb_true_iff, starts_with_spec.
  - split.
    + intros [[r Hr]|[=]]. by exists [], r.
    + intros ([|? pre] & post & Heq); [|done]. left. by exists post.
  - rewrite IH. split.
    + intros [[r Hr]|(pre & post & ->)]; [by exists [], r|].
      by exists (c :: pre), post.
    + intros ([|c' pre] & post & Heq).
      * left. by exists post.
      * injection Heq as -> ->. right. by exists pre, post.
Qed.

(** A string that contains [a] contains what [a] contains. *)
Lemma includes_trans (s a b : jsstring) :
  includes s a = true -> includes a b = true -> includes s b = true.
Proof.
  rewrite !includes_spec. intros (pre & post & ->) (pre' & post' & ->).
  exists (pre ++ pre'), (post' ++ post). by rewrite <- !app_assoc.
Qed.

(** X21.  Every type that addBook and readBookContent recognise (one that
    contains text/plain, application/pdf or application/epub+zip) passes the
    type test of importBook, which looks for epub, text/plain or pdf. *)
Theorem recognized_is_supported (fileType : jsstring) :
  recognized fileType = true -> supported fileType = true.
Proof.
  unfold recognized, supported. rewrite !orb_true_iff.
  intros [[Ht|Hp]|He].
  - left. by right.
  - right. by apply (includes_trans _ APPLICATION_PDF).
  - left. left. by apply (includes_trans _ APPLICATION_EPUB).
Qed.

Section WithPlatform.
Context `{Platform}.

(** X22.  The label renderBookItem shows for a book of a recognised type is
    the extension addBook stored its file under, provided the type does not
    contain epub together with text/plain or application/pdf: the label
    looks for epub first and the extension for it last. *)
Theorem typeLabel_matches_extension (item : Book) (fileUri : jsstring) :
  recognized (fileType item) = true ->
  includes (fileType item) (js "epub") = false
  \/ (includes (fileType item) TEXT_PLAIN = false
      /\ includes (fileType item) APPLICATION_PDF = false) ->
  js (typeLabel item) = fileExtOf item fileUri.
Proof.
  unfold recognized, typeLabel, fileExtOf. intros Hrec Hcase.
  destruct (includes (fileType item) APPLICATION_EPUB) eqn:He.
  - pose proof (includes_trans _ _ (js "epub") He eq_refl) as Hepub.
    rewrite Hepub in *. by destruct Hcase as [[=]|[-> ->]].
  - rewrite orb_false_r in Hrec.
    destruct (includes (fileType item) (js "epub")) eqn:Hepub.
    + destruct Hcase as [[=]|[Ht Hp]]. by rewrite Ht, Hp in Hrec.
    + destruct (includes (fileType item) TEXT_PLAIN); [done|].
      destruct (includes (fileType item) APPLICATION_PDF); done.
Qed.



(** The steps of importBook. *)
Lemma importBook_run (picked : Result PickerResult) (now_ms now : jsstring)
    (s : State) (w : World) :
  importBook picked now_ms now s w
  = match picked with
    | Err _ => (Ok tt, shown (mkAlert (T "importFailed") (T "importFailedMessage")) s, w)
    | Ok result =>
      if canceled result then (Ok tt, s, w)
      else
        match assets result with
        | [] => (Ok tt, shown (mkAlert (T "importFailed") (T "importFailedMessage")) s, w)
        | file :: _ =>
          if negb (supported (fileTypeOf file))
          then (Ok tt, shown (mkAlert (T "unsupportedFileType")
                                      (T "unsupportedFileTypeMessage")) s, w)
          else if too_large (size file)
          then (Ok tt, shown (mkAlert (T "fileTooLarge") (T "fileTooLarge")) s, w)
          else
            let book := newBook file (fileTypeOf file) (fileNameOf file) now_ms now in
            match addBook book (uri file) w with
            | (Ok savedBook, w') =>
              (Ok tt,
               shown (mkAlert (T "importSuccess")
                              (TTitle "importSuccessMessage" (title book)))
                     (setBooks (fun prevBooks => prevBooks ++ [savedBook]) s), w')
            | (Err _, w') =>
              (Ok tt, shown (mkAlert (T "importFailed") (T "saveFileFailed")) s, w')
            end
        end
    end.
Proof.
  unfold importBook, ui_try, ui_bind, alert, modify, lift, ui_throw, ui_ret, shown.
  destruct picked as [result|e]; [|done].
  destruct (canceled result); [done|].
  destruct (assets result) as [|file rest]; [done|].
  destruct (negb _); [done|]. destruct (too_large _); [done|].
  by destruct (addBook _ _ w) as [[savedBook|e] w'].
Qed.

(** X20.  importBook never throws and shows at most one alert.  The books
    on screen change in one way only: the record addBook returned is put at
    their end, its id the time stamp and its title the file name without
    extension, together with the success alert that names the title; the
    store has then been written with the catalog plus that record.  In
    every other case the books and the store are as before, and no alert
    shown is the success alert. *)
Theorem importBook_settles (picked : Result PickerResult) (now_ms now : jsstring)
    (s : State) (w : World) :
  exists s' w',
    importBook picked now_ms now s w = (Ok tt, s', w')
    /\ loading s' = loading s
    /\ ((books s' = books s
         /\ storage w' = storage w
         /\ (alerts s' = alerts s
             \/ exists a, alerts s' = a :: alerts s /\ heading a <> T "importSuccess"))
        \/ (exists result file rest savedBook,
              picked = Ok result
              /\ assets result = file :: rest
              /\ books s' = books s ++ [savedBook]
              /\ id savedBook = now_ms
              /\ title savedBook = remove_extension (fileNameOf file)
              /\ fileType savedBook = fileTypeOf file
              /\ alerts s'
                 = mkAlert (T "importSuccess")
                           (TTitle "importSuccessMessage" (title savedBook))
                   :: alerts s
              /\ storage w'
                 = <[BOOKS_STORAGE_KEY := JSON_stringify (catalog w ++ [savedBook])]>
                     (storage w))).
Proof.
  rewrite importBook_run.
  destruct picked as [result|e].
  2:{ eexists _, _. split; [done|]. split; [done|]. left.
      split; [done|]. split; [done|]. right. by eexists. }
  destruct (canceled result).
  { eexists _, _. split; [done|]. split; [done|]. left. by repeat split; try left. }
  destruct (assets result) as [|file rest] eqn:Hassets.
  { eexists _, _. split; [done|]. split; [done|]. left.
    split; [done|]. split; [done|]. right. by eexists. }
  destruct (negb _).
  { eexists _, _. split; [done|]. split; [done|]. left.
    split; [done|]. split; [done|]. right. by eexists. }
  destruct (too_large _).
  { eexists _, _. split; [done|]. split; [done|]. left.
    split; [done|]. split; [done|]. right. by eexists. }
  simpl.
  destruct (addBook _ _ w) as [r w'] eqn:Hadd.
  destruct (addBook_cases _ _ _ _ _ Hadd) as [[Hs [e ->]]|[-> Hs]].
  - eexists _, _. split; [done|]. split; [done|]. left.
    split; [done|]. split; [done|]. right. by eexists.
  - eexists _, _. split; [done|]. split; [done|]. right.
    exists result, file, rest, (with_filePath (newBook file (fileTypeOf file) (fileNameOf file) now_ms now)
                    (localFilePathOf (newBook file (fileTypeOf file) (fileNameOf file)
                                        now_ms now) (uri file))).
    by repeat split.
Qed.



End WithPlatform.
End BookshelfProperties.

(** ** From the shelf to the reader *)

Module ImportThenRead.
Import MonadFacts Screen BookStorage BookStorageFacts StorageSpec StorageProperties.

Section WithPlatform.
Context `{Platform}.
Variable rejection_message : IoCall -> jsstring.

(** X24.  A plain-text file that importBook has put on the shelf opens in
    the reader: when the source decodes as UTF-8 to a non-empty text, the
    time stamp used as id is not empty and not yet in the catalog, and the
    host answers the calls that read the source, the store and the file
    info, then loadBook of that id shows the record the shelf shows last,
    as it is stored, with the decoded text and the chapters detected in
    it, and no error. *)
Theorem imported_text_opens
    (language : ReaderScreen.Language) (now_ms now later : jsstring)
    (file : BookshelfScreen.Asset) (rest : list BookshelfScreen.Asset)
    (data : list N) (text : jsstring)
    (s s1 : BookshelfScreen.State) (rs : ReaderScreen.State) (w w1 : World) :
  includes (BookshelfScreen.fileTypeOf file) TEXT_PLAIN = true ->
  files w !! BookshelfScreen.uri file = Some (File data) ->
  utf8_decode data = Some text ->
  text <> [] ->
  now_ms <> [] ->
  now_ms ∉ (id <$> catalog w) ->
  rejects (ReadAsString (BookshelfScreen.uri file) UTF8 None) = false ->
  rejects (GetItem BOOKS_STORAGE_KEY) = false ->
  (forall p, rejects (GetInfo p) = false) ->
  BookshelfScreen.importBook
    (Ok (BookshelfScreen.mkPicked false (file :: rest))) now_ms now s w
  = (Ok tt, s1, w1) ->
  BookshelfScreen.books s1 <> BookshelfScreen.books s ->
  exists savedBook rs' w2,
    last (BookshelfScreen.books s1) = Some savedBook
    /\ title savedBook
       = BookshelfScreen.remove_extension (BookshelfScreen.fileNameOf file)
    /\ ReaderScreen.loadBook rejection_message language later (Some now_ms) rs w1
       = (Ok tt, rs', w2)
    /\ ReaderScreen.error rs' = None
    /\ ReaderScreen.loading rs' = false
    /\ ReaderScreen.book rs' = Some (stored savedBook)
    /\ ReaderScreen.content rs' = text
    /\ ReaderScreen.chapters rs' = Reader.detectedChapters text.
Proof.
  intros Htxt Hsrc Hdec Htext Hid Hfresh Hread Hget Hinfo Himport Hbooks.
  rewrite BookshelfProperties.importBook_run in Himport. simpl in Himport.
  destruct (negb _); [by injection Himport as <- _|].
  destruct (BookshelfScreen.too_large _); [by injection Himport as <- _|].
  set (book := BookshelfScreen.newBook file (BookshelfScreen.fileTypeOf file)
                 (BookshelfScreen.fileNameOf file) now_ms now) in *.
  destruct (addBook book (BookshelfScreen.uri file) w) as [[savedBook|e] w'] eqn:Hadd;
    [|by injection Himport as <- _].
  injection Himport as <- <-. clear Hbooks.
  pose proof (CatalogClaims.addBook_appends _ _ _ _ _ Hget Hadd) as Hcat.
  destruct (addBook_ok_inv _ _ _ _ _ Hadd) as (wm & Hm & _ & Hsaved & Hf & Hc).
  destruct (materialize_text_caches book _ _ _ _ _ _ Htxt Hsrc Hdec Hread Hm)
    as [Hcache Hfile].
  assert (filePath savedBook = localFilePathOf book (BookshelfScreen.uri file)) as Hpath
    by (by rewrite Hsaved).
  assert (fileType savedBook = BookshelfScreen.fileTypeOf file) as Htype
    by (by rewrite Hsaved).
  assert (lookup_book now_ms (catalog w') = Some (stored savedBook)) as Hfind.
  { rewrite Hcat, lookup_book_app_fresh by (by rewrite Hsaved).
    rewrite Hsaved. simpl. by destruct (decide (now_ms = now_ms)). }
  assert (fst (readBookContent (filePath savedBook) (fileType savedBook) w') = Ok text)
    as Hcontent.
  { rewrite ContentClaims.readBookContent_hit; rewrite Hpath, Hc, Hcache; [done|].
    by destruct text. }
  destruct (ReaderProperties.loadBook_read_ok rejection_message language later
              (Some now_ms) rs w' (stored savedBook) text) as (w3 & _ & Hload);
    try done.
  { by destruct now_ms. }
  { change (filePath (stored savedBook)) with (filePath savedBook).
    rewrite Hpath, Hf. destruct Hfile as [->| ->]; by eexists. }
  exists savedBook. eexists _, _.
  split; [simpl; by rewrite last_snoc|].
  split; [by rewrite Hsaved|].
  split; [exact Hload|].
  change (fileType (stored savedBook)) with (fileType savedBook).
  rewrite Htype, Htxt. by repeat split.
Qed.

End WithPlatform.
End ImportThenRead.

(** ** The catalog as stored *)

Module CatalogProperties.
Import MonadFacts BookStorage BookStorageFacts StorageSpec StorageProperties.

Section WithPlatform.
Context `{Platform}.

Lemma lookup_book_app_found (bookId : jsstring) (b : Book) (books more : list Book) :
  lookup_book bookId books = Some b -> lookup_book bookId (books ++ more) = Some b.
Proof.
  induction books as [|x books IH]; [done|].
  cbn [app]. rewrite !lookup_book_cons.
  by destruct (decide (id x = bookId)).
Qed.

(** X25.  Round trip saveBooks/getAllBooks.  When saveBooks returns, a
    getAllBooks that the store answers returns the saved records in their
    order and in stored form, each Date replaced by the string it was
    written as: the list handed in itself only when it holds no Date
    object.  The other keys of the store, the files and the cache are
    untouched.  When it throws, the error is the rejection of its setItem
    call and nothing has changed. *)
Theorem saveBooks_then_getAllBooks (books : list Book) (w : World) :
  (forall w', saveBooks books w = (Ok tt, w') ->
      (rejects (GetItem BOOKS_STORAGE_KEY) = false ->
       fst (getAllBooks w') = Ok (Records (stored <$> books))
       /\ (fst (getAllBooks w') = Ok (Records books) <->
           forall b, b ∈ books -> stored b = b))
      /\ (forall key, key <> BOOKS_STORAGE_KEY -> storage w' !! key = storage w !! key)
      /\ files w' = files w
      /\ contentCache w' = contentCache w)
  /\ (forall e w', saveBooks books w = (Err e, w') ->
      e = PlatformError (SetItem BOOKS_STORAGE_KEY (JSON_stringify books))
      /\ same_state w w').
Proof.
  rewrite saveBooks_run. simpl.
  destruct (rejects (SetItem _ _)); split; try done.
  - by intros e w' [= <- <-].
  - intros w' [= <-]. simpl. split; [|split; [|done]].
    + intros Hget.
      rewrite getAllBooks_accepted by done. simpl.
      rewrite lookup_insert_eq, JSON_parse_stringify. simpl.
      split; [done|]. rewrite <- stored_fixed. split; [by intros [= ->]|by intros ->].
    + intros key Hne. by apply lookup_insert_ne.
Qed.

(** X26.  addBook does not look for the id in the catalog.  When a record
    with the book's id is already there and addBook returns, the catalog
    holds both records (the new one in its stored form), so its ids are no
    longer unique; getBook of the id still returns the old record, and an
    updateBook with that id replaces the old record and leaves the new one
    as it is. *)
Theorem addBook_duplicate_id_shadowed
    (book : Book) (fileUri : jsstring) (w w' : World) (b' old : Book) :
  addBook book fileUri w = (Ok b', w') ->
  rejects (GetItem BOOKS_STORAGE_KEY) = false ->
  lookup_book (id book) (catalog w) = Some old ->
  catalog w' = catalog w ++ [stored b']
  /\ id b' = id old
  /\ ~ unique_ids w'
  /\ fst (getBook (id book) w') = Ok (Some old)
  /\ (forall updatedBook w'',
        id updatedBook = id book ->
        updateBook updatedBook w' = (Ok tt, w'') ->
        exists index,
          catalog w !! index = Some old
          /\ catalog w'' = <[index := stored updatedBook]> (catalog w) ++ [stored b']).
Proof.
  intros Hadd Hget Hold.
  pose proof (CatalogClaims.addBook_appends _ _ _ _ _ Hget Hadd) as Hcat.
  destruct (addBook_ok_inv _ _ _ _ _ Hadd) as (_ & _ & _ & Hb' & _).
  assert (id b' = id book) as Hid by (by rewrite Hb').
  unfold lookup_book in Hold.
  destruct (list_find (fun b => id b = id book) (catalog w)) as [[index x]|] eqn:Hfind;
    [|done].
  injection Hold as ->.
  pose proof Hfind as (Hat & Hidold & _)%list_find_Some.
  split; [done|]. split; [congruence|]. split; [|split].
  - unfold unique_ids. rewrite Hcat, fmap_app. intros Hnd%NoDup_app.
    destruct Hnd as (_ & Hdisj & _).
    apply (Hdisj (id old)).
    + apply list_elem_of_fmap. exists old. split; [done|]. by eapply list_elem_of_lookup_2.
    + simpl. rewrite Hid, <- Hidold. by left.
  - rewrite getBook_fst, Hcat. f_equal. apply lookup_book_app_found.
    unfold lookup_book. by rewrite Hfind.
  - intros updatedBook w'' Hsame Hupd.
    apply updateBook_saved in Hupd as (i & o & Hf & Hc & _).
    rewrite Hsame, Hcat in Hf.
    rewrite (list_find_app_l _ _ _ _ _ Hfind) in Hf. injection Hf as <- <-.
    exists index. split; [done|].
    rewrite Hc, Hcat. apply insert_app_l. by eapply lookup_lt_Some.
Qed.

End WithPlatform.
End CatalogProperties.

(** ** The further properties on the reference host *)

Module PropertyExamples.
Import MonadFacts BookStorage StorageSpec RefHost Examples.

(** A picked text document, and the world after the novel has been imported
    from it. *)
Definition PICKED_TEXT : World :=
  world_of [(SOURCE_URI, File (bytes_of_string "CHAPTER ONE"))].

Definition STAMP : jsstring := Eval vm_compute in js "1793491200000".
Definition TODAY : jsstring := Eval vm_compute in js "2026-11-01T00:00:00.000Z".

(** The novel as a caller builds it, with a Date object; the record addBook
    returns for it; and that record as the catalog holds it. *)
Definition FRESH_NOVEL : Book := ReaderScreen.with_lastRead NOVEL TODAY.

Definition IMPORTED : World := snd (@addBook ANDROID FRESH_NOVEL SOURCE_URI PICKED_TEXT).

Definition RETURNED_NOVEL : Book :=
  with_filePath FRESH_NOVEL (@localFilePathOf ANDROID FRESH_NOVEL SOURCE_URI).

Definition IMPORTED_NOVEL : Book := stored RETURNED_NOVEL.

(** A catalog whose only record points at a directory. *)
Definition FOLDER_SHELF : World :=
  {| storage := {[ BOOKS_STORAGE_KEY := stringify [NOVEL] ]};
     files := {[ SOURCE_URI := Directory ]}; contentCache := ∅; trace := [] |}.

(** What the reader shows of a refused call. *)
Definition REFUSED (call : IoCall) : jsstring := js "refused".

(** The asset the picker gives for the text document. *)
Definition PICKED_ASSET : BookshelfScreen.Asset :=
  {| BookshelfScreen.uri := SOURCE_URI;
     BookshelfScreen.mimeType := Some TEXT_PLAIN;
     BookshelfScreen.name := Some (js "novel.txt");
     BookshelfScreen.size := Some 11 |}.

Definition EMPTY_SHELF : BookshelfScreen.State :=
  BookshelfScreen.mkState [] true [].

Lemma addBook_then_getBook_witness :
  @catalog ANDROID IMPORTED = @catalog ANDROID PICKED_TEXT ++ [IMPORTED_NOVEL]
  /\ fst (@getBook ANDROID (js "1") IMPORTED) = Ok (Some IMPORTED_NOVEL)
  /\ lastRead RETURNED_NOVEL = Some (DateObject TODAY)
  /\ lastRead IMPORTED_NOVEL = Some (DateString TODAY)
  /\ IMPORTED_NOVEL <> RETURNED_NOVEL.
Proof.
  destruct (@StorageProperties.addBook_then_getBook ANDROID FRESH_NOVEL SOURCE_URI
              PICKED_TEXT IMPORTED RETURNED_NOVEL) as (Hcat & Hget & _ & Hdate & _).
  - vm_compute. reflexivity.
  - reflexivity.
  - apply (bool_decide_unpack _). vm_compute. exact I.
  - destruct (Hdate TODAY eq_refl) as [Hs Hne].
    split; [exact Hcat|]. split; [exact Hget|]. split; [reflexivity|].
    split; [exact Hs | exact Hne].
Defined.

Lemma deleteBook_then_getBook_witness :
  fst (@getBook ANDROID (js "1") (snd (@deleteBook ANDROID (js "1") SHELF))) = Ok None
  /\ fst (@getBook ANDROID (js "7") (snd (@deleteBook ANDROID (js "1") SHELF)))
     = fst (@getBook ANDROID (js "7") SHELF).
Proof.
  destruct (@StorageProperties.deleteBook_then_getBook ANDROID (js "1") SHELF
              (snd (@deleteBook ANDROID (js "1") SHELF))) as (_ & Hgone & Hothers & _).
  - vm_compute. reflexivity.
  - split; [exact Hgone|]. apply Hothers. discriminate.
Defined.

Lemma updateBook_then_getBook_witness :
  fst (@getBook ANDROID (js "1") (snd (@updateBook ANDROID FRESH_NOVEL SHELF)))
  = Ok (Some (stored FRESH_NOVEL))
  /\ lastRead (stored FRESH_NOVEL) = Some (DateString TODAY)
  /\ stored FRESH_NOVEL <> FRESH_NOVEL.
Proof.
  destruct (@StorageProperties.updateBook_then_getBook ANDROID FRESH_NOVEL SHELF
              (snd (@updateBook ANDROID FRESH_NOVEL SHELF)))
    as (Hget & Hdate & _).
  - vm_compute. reflexivity.
  - split; [exact Hget|]. exact (Hdate TODAY eq_refl).
Defined.

Lemma addBook_text_primes_cache_witness :
  contentCache IMPORTED !! filePath IMPORTED_NOVEL = Some (js "CHAPTER ONE")
  /\ @readBookContent ANDROID (filePath IMPORTED_NOVEL) (fileType IMPORTED_NOVEL) IMPORTED
     = (Ok (js "CHAPTER ONE"), IMPORTED).
Proof.
  destruct (@StorageProperties.addBook_text_primes_cache ANDROID FRESH_NOVEL SOURCE_URI
              PICKED_TEXT IMPORTED RETURNED_NOVEL (bytes_of_string "CHAPTER ONE")
              (js "CHAPTER ONE")) as (Hcache & _ & Hread).
  - reflexivity.
  - reflexivity.
  - vm_compute. reflexivity.
  - reflexivity.
  - vm_compute. reflexivity.
  - split; [exact Hcache|]. apply Hread. discriminate.
Defined.

Lemma readBookContent_text_outcomes_witness :
  contentCache (snd (@readBookContent ANDROID NOTES_PATH TEXT_PLAIN HELLO_FILE))
  = <[NOTES_PATH := js "hello"]> (contentCache HELLO_FILE).
Proof.
  apply (proj1 (@StorageProperties.readBookContent_text_outcomes ANDROID
                  NOTES_PATH TEXT_PLAIN HELLO_FILE eq_refl eq_refl) (js "hello")).
  vm_compute. reflexivity.
Defined.

Lemma fontSize_stays_in_range_witness :
  (12 <= ReaderScreen.fontSize
           (ReaderScreen.settings
              (ReaderScreen.taps
                 (replicate 9%nat ReaderScreen.FontUp ++ [ReaderScreen.FontDown])
                 (ReaderScreen.initial false))) <= 32)%Z.
Proof.
  apply (proj1 (proj1 (ReaderProperties.fontSize_stays_in_range
                         (replicate 9%nat ReaderScreen.FontUp ++ [ReaderScreen.FontDown])
                         (ReaderScreen.initial false)
                         ltac:(simpl; lia)))).
Defined.

Lemma loadBook_file_not_found_witness :
  exists s' w',
    @ReaderScreen.loadBook ANDROID REFUSED ReaderScreen.en TODAY (Some (js "1"))
      (ReaderScreen.initial false) SHELF = (Ok tt, s', w')
    /\ ReaderScreen.error s' = Some (js "File not found")
    /\ ReaderScreen.loading s' = false
    /\ ReaderScreen.content s' = []
    /\ ReaderScreen.chapters s' = []
    /\ same_state SHELF w'.
Proof.
  apply (@ReaderProperties.loadBook_file_not_found ANDROID REFUSED ReaderScreen.en TODAY
           (Some (js "1")) (ReaderScreen.initial false) SHELF).
  - reflexivity.
  - right. exists NOVEL. split; [vm_compute; reflexivity|]. split; reflexivity.
Defined.

Lemma loadBook_shows_text_witness :
  exists s' w',
    @ReaderScreen.loadBook ANDROID REFUSED ReaderScreen.en TODAY (Some (js "1"))
      (ReaderScreen.initial false) IMPORTED = (Ok tt, s', w')
    /\ ReaderScreen.error s' = None
    /\ ReaderScreen.content s' = js "CHAPTER ONE"
    /\ ReaderScreen.chapters s'
       = [{| Reader.title := js "CHAPTER ONE"; Reader.position := 0%nat |}].
Proof.
  destruct (@ReaderProperties.loadBook_shows_text ANDROID REFUSED ReaderScreen.en TODAY
              (Some (js "1")) (ReaderScreen.initial false) IMPORTED
              IMPORTED_NOVEL (js "CHAPTER ONE"))
    as (s' & w' & Hrun & Herr & _ & _ & Hcontent & Hchapters & _).
  - reflexivity.
  - vm_compute. reflexivity.
  - reflexivity.
  - vm_compute. by eexists.
  - vm_compute. reflexivity.
  - exists s', w'. split; [exact Hrun|]. split; [exact Herr|]. split; [exact Hcontent|].
    rewrite Hchapters. vm_compute. reflexivity.
Defined.

Lemma loadBook_unreadable_witness :
  exists s' w',
    @ReaderScreen.loadBook ANDROID REFUSED ReaderScreen.zh TODAY (Some (js "1"))
      (ReaderScreen.initial false) FOLDER_SHELF = (Ok tt, s', w')
    /\ ReaderScreen.error s' = Some (ReaderScreen.fileNotReadable ReaderScreen.zh)
    /\ ReaderScreen.loading s' = false
    /\ ReaderScreen.book s' = Some NOVEL
    /\ ReaderScreen.content s' = []
    /\ ReaderScreen.chapters s' = []
    /\ storage w' = storage FOLDER_SHELF.
Proof.
  apply (@ReaderProperties.loadBook_unreadable ANDROID REFUSED ReaderScreen.zh TODAY
           (Some (js "1")) (ReaderScreen.initial false) FOLDER_SHELF NOVEL
           (PlatformError (ReadAsString SOURCE_URI Base64 None))).
  - reflexivity.
  - vm_compute. reflexivity.
  - reflexivity.
  - vm_compute. by eexists.
  - vm_compute. reflexivity.
Defined.

Lemma recognized_is_supported_witness :
  BookshelfScreen.supported APPLICATION_EPUB = true.
Proof.
  apply (BookshelfProperties.recognized_is_supported APPLICATION_EPUB).
  vm_compute. reflexivity.
Defined.

Lemma typeLabel_matches_extension_witness :
  js (BookshelfScreen.typeLabel PDF_BOOK) = @fileExtOf ANDROID PDF_BOOK SOURCE_URI.
Proof.
  apply (@BookshelfProperties.typeLabel_matches_extension ANDROID PDF_BOOK SOURCE_URI).
  - vm_compute. reflexivity.
  - left. vm_compute. reflexivity.
Defined.


Lemma imported_text_opens_witness :
  exists savedBook rs' w2,
    last (BookshelfScreen.books
            (snd (fst (@BookshelfScreen.importBook ANDROID
                         (Ok (BookshelfScreen.mkPicked false [PICKED_ASSET]))
                         STAMP TODAY EMPTY_SHELF PICKED_TEXT))))
    = Some savedBook
    /\ title savedBook = js "novel"
    /\ @ReaderScreen.loadBook ANDROID REFUSED ReaderScreen.en TODAY (Some STAMP)
         (ReaderScreen.initial false)
         (snd (@BookshelfScreen.importBook ANDROID
                 (Ok (BookshelfScreen.mkPicked false [PICKED_ASSET]))
                 STAMP TODAY EMPTY_SHELF PICKED_TEXT))
       = (Ok tt, rs', w2)
    /\ ReaderScreen.content rs' = js "CHAPTER ONE".
Proof.
  destruct (@ImportThenRead.imported_text_opens ANDROID REFUSED ReaderScreen.en
              STAMP TODAY TODAY PICKED_ASSET [] (bytes_of_string "CHAPTER ONE")
              (js "CHAPTER ONE") EMPTY_SHELF
              (snd (fst (@BookshelfScreen.importBook ANDROID
                           (Ok (BookshelfScreen.mkPicked false [PICKED_ASSET]))
                           STAMP TODAY EMPTY_SHELF PICKED_TEXT)))
              (ReaderScreen.initial false) PICKED_TEXT
              (snd (@BookshelfScreen.importBook ANDROID
                      (Ok (BookshelfScreen.mkPicked false [PICKED_ASSET]))
                      STAMP TODAY EMPTY_SHELF PICKED_TEXT)))
    as (savedBook & rs' & w2 & Hlast & Htitle & Hrun & _ & _ & _ & Hcontent & _).
  - reflexivity.
  - reflexivity.
  - vm_compute. reflexivity.
  - discriminate.
  - discriminate.
  - apply (bool_decide_unpack _). vm_compute. exact I.
  - reflexivity.
  - reflexivity.
  - intros p. reflexivity.
  - vm_compute. reflexivity.
  - vm_compute. discriminate.
  - exists savedBook, rs', w2. split; [exact Hlast|]. split; [|split; [exact Hrun|exact Hcontent]].
    rewrite Htitle. vm_compute. reflexivity.
Defined.

Lemma addBook_duplicate_id_shadowed_witness :
  fst (@getBook ANDROID (js "1") (snd (@addBook ANDROID NOVEL_REREAD SOURCE_URI IMPORTED)))
  = Ok (Some IMPORTED_NOVEL)
  /\ ~ @unique_ids ANDROID (snd (@addBook ANDROID NOVEL_REREAD SOURCE_URI IMPORTED)).
Proof.
  destruct (@CatalogProperties.addBook_duplicate_id_shadowed ANDROID NOVEL_REREAD
              SOURCE_URI IMPORTED (snd (@addBook ANDROID NOVEL_REREAD SOURCE_URI IMPORTED))
              (with_filePath NOVEL_REREAD (@localFilePathOf ANDROID NOVEL_REREAD SOURCE_URI))
              IMPORTED_NOVEL) as (_ & _ & Hdup & Hget & _).
  - vm_compute. reflexivity.
  - reflexivity.
  - vm_compute. reflexivity.
  - split; [exact Hget | exact Hdup].
Defined.

End PropertyExamples.
